(** * The metadata extraction and quality-matching engine of [api-manager.js]

    A shallow embedding of the pure core of [APIManager] (title cleaning,
    quality / size / HDR / codec extraction, quality ranking, preference
    matching, grouping and best-match selection) and of the upgrade scanner,
    whose collaborator calls are threaded through a state-and-exception
    monad.

    JavaScript strings are modelled as [string]: sequences of code units
    below 256 (the Latin-1 range).  A property that may be [undefined] in the
    JavaScript objects is an [option]. *)

From Stdlib Require Import Bool Arith ZArith QArith Lia List Ascii String.
From Stdlib Require Import Permutation Sorted DecimalString.
Import ListNotations.

Set Implicit Arguments.

Close Scope Q_scope.
Local Open Scope string_scope.

(** ** Strings *)

Module JsString.

Definition code (c : ascii) : nat := nat_of_ascii c.

Definition between (lo hi : nat) (c : ascii) : bool :=
  (lo <=? code c)%nat && (code c <=? hi)%nat.

Definition isDigit (c : ascii) : bool := between 48 57 c.

(** [\w] : letters, digits and the underscore. *)
Definition isWordChar (c : ascii) : bool :=
  between 97 122 c || between 65 90 c || isDigit c || (code c =? 95)%nat.

(** White space of [\s] and of [trim]: TAB, LF, VT, FF, CR, SP, NBSP. *)
Definition isWhiteSpace (c : ascii) : bool :=
  between 9 13 c || (code c =? 32)%nat || (code c =? 160)%nat.

(** Line terminators, which [.] does not match. *)
Definition isLineTerminator (c : ascii) : bool :=
  (code c =? 10)%nat || (code c =? 13)%nat.

Definition shift_down (c : ascii) : ascii := ascii_of_nat (code c - 32).
Definition shift_up (c : ascii) : ascii := ascii_of_nat (code c + 32).

(** Lower-case letters that have an upper-case partner below 256. *)
Definition isLower (c : ascii) : bool :=
  between 97 122 c || (between 224 254 c && negb (code c =? 247)%nat).

Definition isUpper (c : ascii) : bool :=
  between 65 90 c || (between 192 222 c && negb (code c =? 215)%nat).

(** The canonical form used by a case-insensitive pattern. *)
Definition canonicalize (c : ascii) : ascii :=
  if isLower c then shift_down c else c.

Definition lowerChar (c : ascii) : ascii :=
  if isUpper c then shift_up c else c.

Fixpoint toLowerCase (s : string) : string :=
  match s with
  | EmptyString => EmptyString
  | String c s' => String (lowerChar c) (toLowerCase s')
  end.

(** Only applied to the unit a size pattern captured, which is made of
    the letters G, M and B in either case. *)
Fixpoint toUpperCase (s : string) : string :=
  match s with
  | EmptyString => EmptyString
  | String c s' => String (canonicalize c) (toUpperCase s')
  end.

Fixpoint startsWith (s p : string) : bool :=
  match p, s with
  | EmptyString, _ => true
  | String a p', String b s' => Ascii.eqb a b && startsWith s' p'
  | String _ _, EmptyString => false
  end.

(** [hay.includes(needle)] *)
Fixpoint includes (hay needle : string) : bool :=
  startsWith hay needle ||
  match hay with
  | EmptyString => false
  | String _ hay' => includes hay' needle
  end.

Fixpoint trimStart (s : string) : string :=
  match s with
  | EmptyString => EmptyString
  | String c s' => if isWhiteSpace c then trimStart s' else s
  end.

Fixpoint trimEnd (s : string) : string :=
  match s with
  | EmptyString => EmptyString
  | String c s' =>
      match trimEnd s' with
      | EmptyString => if isWhiteSpace c then EmptyString else String c EmptyString
      | r => String c r
      end
  end.

Definition trim (s : string) : string := trimEnd (trimStart s).

(** [rev_onto pre s] is the reversal of [pre] followed by [s]. *)
Fixpoint rev_onto (pre s : string) : string :=
  match pre with
  | EmptyString => s
  | String c pre' => rev_onto pre' (String c s)
  end.

Fixpoint take (n : nat) (s : string) : string :=
  match n, s with
  | S n', String c s' => String c (take n' s')
  | _, _ => EmptyString
  end.

(** Truthiness of a possibly-undefined string. *)
Definition truthy (o : option string) : bool :=
  match o with
  | Some s => negb (String.eqb s "")
  | None => false
  end.

End JsString.

(** ** Regular expressions

    The patterns of the source, with the backtracking semantics of
    [RegExp.prototype.exec]: alternatives in order, greedy and lazy
    repetition, capture groups, negative lookahead, word boundaries. *)

Module Regex.
Import JsString.

Inductive regex : Type :=
| Eps
| Chr (c : ascii)
| Dot
| Digit
| Space
| WordB
| Seq (r1 r2 : regex)
| Alt (r1 r2 : regex)
| Star (greedy : bool) (r : regex)
| Group (n : nat) (r : regex)
| NotAhead (r : regex).

(** A position in the subject: the text before it (nearest character
    first) and the text after it. *)
Definition captures := list (nat * string).
Definition result := (string * string * captures)%type.
Definition cont := string -> string -> captures -> option result.

Definition chrMatches (ci : bool) (c x : ascii) : bool :=
  if ci then Ascii.eqb (canonicalize c) (canonicalize x) else Ascii.eqb c x.

Definition one (p : ascii -> bool) (pre s : string) (cs : captures) (k : cont)
  : option result :=
  match s with
  | String x s' => if p x then k (String x pre) s' cs else None
  | EmptyString => None
  end.

Definition wordBefore (pre : string) : bool :=
  match pre with String c _ => isWordChar c | EmptyString => false end.

Definition orElse (a : option result) (b : unit -> option result) : option result :=
  match a with Some r => Some r | None => b tt end.

Definition accept : cont := fun pre s cs => Some (pre, s, cs).

(** Repetition of a step, as often as the subject allows.  An iteration
    that consumes nothing is rejected, as in the language definition, so
    the fuel, the length of the subject at the start, is never used up
    while an iteration is still possible. *)
Definition starLoop (step : string -> string -> captures -> cont -> option result)
    (greedy : bool) (k : cont) : nat -> string -> string -> captures -> option result :=
  fix loop (fuel : nat) (pre s : string) (cs : captures) {struct fuel} : option result :=
    let again (_ : unit) :=
      match fuel with
      | O => None
      | S fuel' =>
          step pre s cs (fun pre' s' cs' =>
            if (String.length s' <? String.length s)%nat
            then loop fuel' pre' s' cs' else None)
      end in
    if greedy then orElse (again tt) (fun _ => k pre s cs)
    else orElse (k pre s cs) again.

Fixpoint run (ci : bool) (r : regex) (pre s : string) (cs : captures) (k : cont)
  {struct r} : option result :=
  match r with
  | Eps => k pre s cs
  | Chr c => one (chrMatches ci c) pre s cs k
  | Dot => one (fun x => negb (isLineTerminator x)) pre s cs k
  | Digit => one isDigit pre s cs k
  | Space => one isWhiteSpace pre s cs k
  | WordB => if xorb (wordBefore pre) (wordBefore s) then k pre s cs else None
  | Seq r1 r2 => run ci r1 pre s cs (fun pre' s' cs' => run ci r2 pre' s' cs' k)
  | Alt r1 r2 => orElse (run ci r1 pre s cs k) (fun _ => run ci r2 pre s cs k)
  | Star greedy r1 => starLoop (run ci r1) greedy k (String.length s) pre s cs
  | Group n r1 =>
      run ci r1 pre s cs (fun pre' s' cs' =>
        k pre' s'
          ((n, rev_onto (take (String.length pre' - String.length pre) pre') "")
             :: cs'))
  | NotAhead r1 =>
      match run ci r1 pre s cs accept with
      | Some _ => None
      | None => k pre s cs
      end
  end.

(** Derived forms. *)
Definition Opt (r : regex) : regex := Alt r Eps.
Definition Plus (r : regex) : regex := Seq r (Star true r).
Fixpoint Lit (s : string) : regex :=
  match s with
  | EmptyString => Eps
  | String c EmptyString => Chr c
  | String c s' => Seq (Chr c) (Lit s')
  end.
Fixpoint Alts (rs : list regex) : regex :=
  match rs with
  | [] => Eps
  | [r] => r
  | r :: rs' => Alt r (Alts rs')
  end.
Fixpoint Seqs (rs : list regex) : regex :=
  match rs with
  | [] => Eps
  | [r] => r
  | r :: rs' => Seq r (Seqs rs')
  end.

(** A match anchored at the current position. *)
Definition matchHere (ci : bool) (r : regex) (pre s : string) : option result :=
  run ci r pre s [] accept.

(** The outcome of [exec]: the matched text [m[0]] and the groups. *)
Record found : Type := Found { whole : string; groups : captures }.

Definition group (n : nat) (f : found) : option string :=
  match find (fun p => (fst p =? n)%nat) (groups f) with
  | Some p => Some (snd p)
  | None => None
  end.

(** Leftmost match, scanning the start position forwards. *)
Fixpoint search (ci : bool) (r : regex) (pre s : string) : option found :=
  match matchHere ci r pre s with
  | Some (pre', _, cs) =>
      Some (Found (rev_onto (take (String.length pre' - String.length pre) pre') "") cs)
  | None =>
      match s with
      | EmptyString => None
      | String c s' => search ci r (String c pre) s'
      end
  end.

(** [str.match(re)] without the global flag. *)
Definition exec (ci : bool) (r : regex) (s : string) : option found :=
  search ci r "" s.

(** [re.test(str)] *)
Definition test (ci : bool) (r : regex) (s : string) : bool :=
  match exec ci r s with Some _ => true | None => false end.

(** [str.replace(re, '')] with the global flag: every match is dropped,
    an empty match advances by one character. *)
Fixpoint removeFrom (fuel : nat) (ci : bool) (r : regex) (pre s : string) : string :=
  match fuel with
  | O => s
  | S fuel' =>
      match matchHere ci r pre s with
      | Some (pre', s', _) =>
          if (String.length s' <? String.length s)%nat
          then removeFrom fuel' ci r pre' s'
          else match s with
               | EmptyString => EmptyString
               | String c s'' => String c (removeFrom fuel' ci r (String c pre) s'')
               end
      | None =>
          match s with
          | EmptyString => EmptyString
          | String c s'' => String c (removeFrom fuel' ci r (String c pre) s'')
          end
      end
  end.

Definition removeAll (ci : bool) (r : regex) (s : string) : string :=
  removeFrom (S (String.length s)) ci r "" s.

End Regex.

(** ** Numbers

    The numbers the size clause computes with are IEEE 754 doubles that are
    never negative: a double is kept as the rational it denotes, in lowest
    terms, with the rounding to 53 significant bits written out. *)

Module JsNumber.

Inductive number : Type :=
| NaN
| Finite (q : Q)
| Infinity.

(** Nearest integer to [a / b], ties to even ([0 <= a], [0 < b]). *)
Definition roundHalfEven (a b : Z) : Z :=
  let fl := (a / b)%Z in
  let twice := (2 * (a mod b))%Z in
  if (twice <? b)%Z then fl
  else if (b <? twice)%Z then (fl + 1)%Z
  else if Z.even fl then fl else (fl + 1)%Z.

(** The double nearest to the non-negative rational [n / d]. *)
Definition roundDouble (n d : Z) : number :=
  if (n <=? 0)%Z then Finite 0
  else
    let e0 := (Z.log2 n - Z.log2 d)%Z in
    let below :=
      if (0 <=? e0)%Z then (n <? d * 2 ^ e0)%Z else (n * 2 ^ (- e0) <? d)%Z in
    let e := if below then (e0 - 1)%Z else e0 in
    let x := Z.max (e - 52) (-1074) in
    let m :=
      if (0 <=? x)%Z then roundHalfEven n (d * 2 ^ x)
      else roundHalfEven (n * 2 ^ (- x)) d in
    if (0 <=? x)%Z then
      if (2 ^ 1024 <=? m * 2 ^ x)%Z then Infinity
      else Finite (inject_Z (m * 2 ^ x))
    else Finite (Qred (Qmake m (Z.to_pos (2 ^ (- x))))).

(** Digits read from the front of a string: their value, how many there
    were, and the rest. *)
Fixpoint digits (acc : Z) (count : nat) (s : string) : Z * nat * string :=
  match s with
  | String c s' =>
      if JsString.isDigit c
      then digits (10 * acc + Z.of_nat (JsString.code c - 48)) (S count) s'
      else (acc, count, s)
  | EmptyString => (acc, count, s)
  end.

(** [parseFloat] on an unsigned decimal literal without exponent, which is
    all the size pattern captures: the longest prefix [ddd] or [ddd.ddd]. *)
Definition parseFloat (s : string) : number :=
  let '(ip, ni, rest) := digits 0 0 s in
  match rest with
  | String "." rest' =>
      let '(fp, nf, _) := digits ip 0 rest' in
      match ni, nf with
      | O, O => NaN
      | _, _ => roundDouble fp (10 ^ Z.of_nat nf)
      end
  | _ => match ni with O => NaN | _ => roundDouble ip 1 end
  end.

(** [x / 1024] *)
Definition div1024 (x : number) : number :=
  match x with
  | NaN => NaN
  | Infinity => Infinity
  | Finite q => roundDouble (Qnum q) (Zpos (Qden q) * 1024)
  end.

(** [x > y] *)
Definition gt (x y : number) : bool :=
  match x, y with
  | NaN, _ | _, NaN => false
  | Infinity, Infinity => false
  | Infinity, Finite _ => true
  | Finite _, Infinity => false
  | Finite a, Finite b => negb (Qle_bool a b)
  end.

End JsNumber.

(** ** The objects the engine passes around *)

(** A release as the engine sees it: the record the extractors build from a
    label, and the candidates a search returns (which carry a [magnet] and
    may lack [hdr] and [codec]). *)
Module Metadata.
Record t : Type := Make {
  magnet : option string;
  title : string;
  quality : option string;
  size : option string;
  type : string;
  hdr : option string;
  codec : option string
}.

(** The same record with another [size]. *)
Definition withSize (sz : option string) (m : t) : t :=
  {| magnet := magnet m; title := title m; quality := quality m; size := sz;
     type := type m; hdr := hdr m; codec := codec m |}.
End Metadata.

Module Preferences.
Record t : Type := Make {
  quality : option string;
  allowHigherQuality : bool;
  allowLowerQuality : bool;
  hdrPreference : option string;
  fileTypes : option (list string);
  maxSize : option string;
  autoUpgrade : bool;
  deleteOldAfterUpgrade : bool;
  maxUpgradeMatches : option Z;
  completeSeasons : bool
}.

(** The same preferences with another [maxSize]. *)
Definition withMaxSize (mx : option string) (p : t) : t :=
  {| quality := quality p; allowHigherQuality := allowHigherQuality p;
     allowLowerQuality := allowLowerQuality p; hdrPreference := hdrPreference p;
     fileTypes := fileTypes p; maxSize := mx; autoUpgrade := autoUpgrade p;
     deleteOldAfterUpgrade := deleteOldAfterUpgrade p;
     maxUpgradeMatches := maxUpgradeMatches p;
     completeSeasons := completeSeasons p |}.

(** No preference stated: every clause of the matcher is switched off. *)
Definition none : t :=
  {| quality := None; allowHigherQuality := false; allowLowerQuality := false;
     hdrPreference := None; fileTypes := None; maxSize := None;
     autoUpgrade := false; deleteOldAfterUpgrade := false;
     maxUpgradeMatches := None; completeSeasons := false |}.
End Preferences.

Module Torrent.
Record t : Type := Make {
  id : string;
  filename : string;
  status : string
}.
End Torrent.

(** ** The pure core of [APIManager] *)

Module APIManager.
Import JsString Regex JsNumber.

(** *** Patterns *)

Definition reBracketed : regex := Seqs [Chr "["; Star false Dot; Chr "]"].
Definition reParenthesized : regex := Seqs [Chr "("; Star false Dot; Chr ")"].
Definition reFourDigits : regex := Seqs [Digit; Digit; Digit; Digit; Opt (Chr "p")].
Definition reSourceTag : regex :=
  Alts [Lit "BluRay"; Lit "WEB-DL"; Lit "WEBRip"; Lit "HDRip"; Lit "BRRip"].
Definition reCodecTag : regex := Alts [Lit "x264"; Lit "x265"; Lit "HEVC"].
Definition reQuality : regex :=
  Alts [Group 1 (Seqs [Digit; Digit; Digit; Opt Digit; Chr "p"]); Lit "4K"; Lit "UHD"].
Definition reSize : regex :=
  Seqs [Group 1 (Seq (Plus Digit) (Opt (Seq (Chr ".") (Plus Digit))));
        Star true Space;
        Group 2 (Alt (Lit "GB") (Lit "MB"))].
Definition reTv : regex :=
  Alts [Seqs [Chr "S"; Digit; Digit; Chr "E"; Digit; Digit]; Lit "Season"; Lit "Episode"].
Definition reDolbyVision : regex :=
  Alt (Seqs [Lit "dolby"; Opt Dot; Lit "vision"]) (Lit "dv").
Definition reHdr10Plus : regex := Lit "hdr10+".
Definition reHdr10NotPlus : regex := Seq (Lit "hdr10") (NotAhead (Chr "+")).
Definition reHdrWord : regex := Seqs [WordB; Lit "hdr"; WordB].
Definition reHdr10 : regex := Lit "hdr10".
Definition reHevc : regex :=
  Alts [Lit "x265"; Lit "hevc"; Seqs [Chr "h"; Opt (Chr "."); Lit "265"]].
Definition reH264 : regex := Alt (Lit "x264") (Seqs [Chr "h"; Opt (Chr "."); Lit "264"]).
Definition reAv1 : regex := Lit "av1".
Definition reRemux : regex := Lit "remux".
Definition reBluray : regex := Alt (Lit "bluray") (Lit "bdrip").
Definition reWeb : regex := Alt (Lit "web-dl") (Lit "webrip").
Definition reSeasonish : regex :=
  Alts [Lit "complete"; Lit "season"; Seqs [Chr "s"; Digit; Digit]].
Definition reEpisode : regex := Seqs [Chr "s"; Digit; Digit; Chr "e"; Digit; Digit].
Definition reSeasonNum : regex := Seq (Chr "s") (Group 1 (Seq Digit Digit)).
Definition reEpisodeNum : regex :=
  Seqs [Chr "s"; Digit; Digit; Chr "e"; Group 1 (Seq Digit Digit)].

(** *** Metadata extraction *)

Definition cleanTitle (title : string) : string :=
  trim
    (removeAll true reCodecTag
       (removeAll true reSourceTag
          (removeAll false reFourDigits
             (removeAll false reParenthesized
                (removeAll false reBracketed title))))).

Definition extractQuality (title : string) : string :=
  match exec true reQuality title with
  | Some m => whole m
  | None => "Unknown"
  end.

(** A capture that did not take part in the match reads as [undefined]
    in a template string. *)
Definition groupText (n : nat) (m : found) : string :=
  match group n m with Some s => s | None => "undefined" end.

Definition extractSize (title : string) : string :=
  match exec true reSize title with
  | Some m => groupText 1 m ++ " " ++ groupText 2 m
  | None => "Unknown"
  end.

Definition detectContentType (title : string) : string :=
  if test true reTv title then "tv" else "movie".

Definition extractHDRInfo (title : string) : string :=
  let dolbyVision := test true reDolbyVision title in
  let hdr10Plus := test true reHdr10Plus title in
  let hdr10 := test true reHdr10NotPlus title in
  let hdr := test true reHdrWord title && negb (test true reHdr10 title) in
  if dolbyVision then "Dolby Vision"
  else if hdr10Plus then "HDR10+"
  else if hdr10 then "HDR10"
  else if hdr then "HDR"
  else "SDR".

Definition extractCodec (title : string) : string :=
  if test true reHevc title then "HEVC"
  else if test true reH264 title then "H.264"
  else if test true reAv1 title then "AV1"
  else "Unknown".

Definition extractMetadataFromFilename (filename : string) : Metadata.t :=
  {| Metadata.magnet := None;
     Metadata.title := cleanTitle filename;
     Metadata.quality := Some (extractQuality filename);
     Metadata.size := Some (extractSize filename);
     Metadata.type := detectContentType filename;
     Metadata.hdr := Some (extractHDRInfo filename);
     Metadata.codec := Some (extractCodec filename) |}.

(** *** Quality ranking *)

Definition getQualityRank (quality : option string) : Z :=
  match quality with
  | None => (-1)%Z
  | Some q =>
      if String.eqb q "" || String.eqb q "Unknown" then (-1)%Z
      else
        let normalized := toLowerCase q in
        if includes normalized "4k" || includes normalized "uhd" then 5%Z
        else if includes normalized "2160p" then 4%Z
        else if includes normalized "1080p" then 3%Z
        else if includes normalized "720p" then 2%Z
        else if includes normalized "480p" then 1%Z
        else 0%Z
  end.

Definition isBetterQuality (newQuality currentQuality preferredQuality : option string)
  : bool :=
  let newRank := getQualityRank newQuality in
  let currentRank := getQualityRank currentQuality in
  let preferredRank := getQualityRank preferredQuality in
  if (newRank >? currentRank)%Z
  then (currentRank <? preferredRank)%Z || (newRank <=? preferredRank)%Z
  else false.

(** *** Preference matching *)

Definition convertSizeToGB (sizeString : option string) : number :=
  match sizeString with
  | None => Finite 0
  | Some s =>
      if String.eqb s "" || String.eqb s "Unknown" then Finite 0
      else
        match exec true reSize s with
        | None => Finite 0
        | Some m =>
            let value := parseFloat (groupText 1 m) in
            let unit := toUpperCase (groupText 2 m) in
            if String.eqb unit "GB" then value else div1024 value
        end
  end.

Definition isUnknown (o : option string) : bool :=
  match o with Some s => String.eqb s "Unknown" | None => false end.

Definition hasPreferredType (title : string) (type : string) : bool :=
  if String.eqb type "remux" then test true reRemux title
  else if String.eqb type "bluray" then test true reBluray title
  else if String.eqb type "web" then test true reWeb title
  else false.

Definition matchesOtherPreferences (metadata : Metadata.t) (preferences : Preferences.t)
  : bool :=
  let typeOk :=
    match Preferences.fileTypes preferences with
    | Some (ty :: tys) => existsb (hasPreferredType (Metadata.title metadata)) (ty :: tys)
    | _ => true
    end in
  if negb typeOk then false
  else if truthy (Preferences.maxSize preferences)
          && negb (isUnknown (Metadata.size metadata))
  then
    let sizeInGB := convertSizeToGB (Metadata.size metadata) in
    let maxSizeGB := convertSizeToGB (Preferences.maxSize preferences) in
    if gt sizeInGB maxSizeGB then false else true
  else true.

Definition optIs (o : option string) (s : string) : bool :=
  match o with Some x => String.eqb x s | None => false end.

Definition matchesPreferences (metadata : Metadata.t) (preferences : Preferences.t)
  : bool :=
  let hdrPreference := Preferences.hdrPreference preferences in
  let isHDRContent :=
    truthy (Metadata.hdr metadata) && negb (optIs (Metadata.hdr metadata) "SDR") in
  let hdrRejects :=
    match hdrPreference with
    | None => false
    | Some pref =>
        if String.eqb pref "any" then false
        else if String.eqb pref "sdr-only" && isHDRContent then true
        else if String.eqb pref "hdr-only" && negb isHDRContent then true
        else false
    end in
  if hdrRejects then false
  else if truthy (Preferences.quality preferences)
          && negb (isUnknown (Metadata.quality metadata))
  then
    let metadataRank := getQualityRank (Metadata.quality metadata) in
    let preferredRank := getQualityRank (Preferences.quality preferences) in
    if (metadataRank =? preferredRank)%Z then matchesOtherPreferences metadata preferences
    else if (metadataRank >? preferredRank)%Z
            && negb (Preferences.allowHigherQuality preferences) then false
    else if (metadataRank <? preferredRank)%Z
            && negb (Preferences.allowLowerQuality preferences) then false
    else matchesOtherPreferences metadata preferences
  else matchesOtherPreferences metadata preferences.

(** *** Sorting, slicing and grouping *)

(** [matches.sort((a, b) => rank(b) - rank(a))]: the sort is stable, so
    its result is the one of a stable insertion sort, best rank first. *)
Fixpoint insertByRank (x : Metadata.t) (sorted : list Metadata.t) : list Metadata.t :=
  match sorted with
  | [] => [x]
  | y :: ys =>
      if (getQualityRank (Metadata.quality y) >? getQualityRank (Metadata.quality x))%Z
      then y :: insertByRank x ys
      else x :: y :: ys
  end.

Definition sortByRank (matches : list Metadata.t) : list Metadata.t :=
  fold_right insertByRank [] matches.

(** [xs.slice(0, n)] for an integer [n]. *)
Definition sliceTo {A : Type} (n : Z) (xs : list A) : list A :=
  if (n <? 0)%Z then firstn (Z.to_nat (Z.max (Z.of_nat (List.length xs) + n) 0)) xs
  else firstn (Z.to_nat n) xs.

(** [preferences.maxUpgradeMatches || 3] *)
Definition upgradeLimit (preferences : Preferences.t) : Z :=
  match Preferences.maxUpgradeMatches preferences with
  | Some n => if (n =? 0)%Z then 3%Z else n
  | None => 3%Z
  end.

(** What [findBetterQualityMatches] does with the candidates once the
    search has returned them. *)
Definition selectBetterMatches (allMatches : list Metadata.t)
    (currentQuality : option string) (preferences : Preferences.t) : list Metadata.t :=
  let betterMatches :=
    filter (fun m =>
              isBetterQuality (Metadata.quality m) currentQuality
                (Preferences.quality preferences)
              && matchesPreferences m preferences) allMatches in
  sliceTo (upgradeLimit preferences) (sortByRank betterMatches).

(** A [Map] from group key to the members of the group, in insertion
    order. *)
Definition groupMap := list (string * list Metadata.t).

Fixpoint addToGroup (key : string) (m : Metadata.t) (groups : groupMap) : groupMap :=
  match groups with
  | [] => [(key, [m])]
  | (k, ms) :: rest =>
      if String.eqb k key then (k, (ms ++ [m])%list) :: rest
      else (k, ms) :: addToGroup key m rest
  end.

Definition seasonGroupKey (title : string) : string :=
  let groupKey := cleanTitle title in
  match exec true reSeasonNum title with
  | Some seasonMatch =>
      let seasonNum := groupText 1 seasonMatch in
      match exec true reEpisodeNum title with
      | Some _ => groupKey ++ "_S" ++ seasonNum ++ "_Individual"
      | None => groupKey ++ "_S" ++ seasonNum ++ "_Pack"
      end
  | None => groupKey ++ "_Complete"
  end.

Definition groupShowsBySeasonStructure (matches : list Metadata.t) : groupMap :=
  fold_left (fun groups m => addToGroup (seasonGroupKey (Metadata.title m)) m groups)
    matches [].

(** The callback of [allMatches.filter] in [findBestQualityMatchForShow]. *)
Definition showFilter (preferences : Preferences.t) (m : Metadata.t) : bool :=
  if negb (matchesPreferences m preferences) then false
  else if Preferences.completeSeasons preferences then
    if test true reSeasonish (Metadata.title m) then true
    else if test true reEpisode (Metadata.title m) then false
    else true
  else true.

(** The choice made inside one group. *)
Definition bestOfGroup (preferences : Preferences.t) (matches : list Metadata.t)
  : option Metadata.t :=
  let sortedMatches := sortByRank matches in
  let preferredRank := getQualityRank (Preferences.quality preferences) in
  let withinPreferred :=
    find (fun m =>
            let matchRank := getQualityRank (Metadata.quality m) in
            (matchRank =? preferredRank)%Z || (matchRank <=? preferredRank)%Z)
      sortedMatches in
  match withinPreferred with
  | Some m => Some m
  | None =>
      if Preferences.allowHigherQuality preferences then hd_error sortedMatches
      else None
  end.

(** What [findBestQualityMatchForShow] does with the candidates once the
    search has returned them. *)
Definition selectBestForShow (allMatches : list Metadata.t) (preferences : Preferences.t)
  : list Metadata.t :=
  match allMatches with
  | [] => []
  | _ =>
      let filteredMatches := filter (showFilter preferences) allMatches in
      let seasonGroups := groupShowsBySeasonStructure filteredMatches in
      flat_map (fun g => match bestOfGroup preferences (snd g) with
                         | Some m => [m]
                         | None => []
                         end) seasonGroups
  end.

(** The grouping of [findBestQualityMatch]: by cleaned title. *)
Definition groupByTitle (matches : list Metadata.t) : groupMap :=
  fold_left (fun groups m => addToGroup (cleanTitle (Metadata.title m)) m groups)
    matches [].

(** What [findBestQualityMatch] does with the candidates once the search
    has returned them: the best of each group, kept only if it satisfies the
    preferences. *)
Definition selectBest (allMatches : list Metadata.t) (preferences : Preferences.t)
  : list Metadata.t :=
  match allMatches with
  | [] => []
  | _ =>
      let titleGroups := groupByTitle allMatches in
      flat_map (fun g => match bestOfGroup preferences (snd g) with
                         | Some m => if matchesPreferences m preferences then [m] else []
                         | None => []
                         end) titleGroups
  end.

End APIManager.

(** ** The upgrade scanner and its collaborators *)

Module Scanner.
Import JsString APIManager.

(** [{ success: true, data }] or [{ success: false, error }]. *)
Inductive reply (A : Type) : Type :=
| Success (data : A)
| Failure (error : string).
Arguments Success {A} data.
Arguments Failure {A} error.

Inductive call : Type :=
| GetRealDebridTorrents (apiKey : string)
| FindAllMatchingContent (title type : string)
| AddMagnetToRealDebrid (apiKey : string) (magnet : option string)
| DeleteRealDebridTorrent (apiKey torrentId : string).

(** The report of one scan. *)
Record Results : Type := {
  checkedTorrents : nat;
  upgradesFound : nat;
  upgradesAdded : nat;
  errors : list string
}.

Definition emptyResults : Results :=
  {| checkedTorrents := 0; upgradesFound := 0; upgradesAdded := 0; errors := [] |}.

Inductive outcome (A : Type) : Type :=
| Returned (a : A)
| Thrown (message : string).
Arguments Returned {A} a.
Arguments Thrown {A} message.

Section Collaborators.

(** Whatever the remote services and the hash-list index depend on. *)
Variable World : Type.

(** The three Real-Debrid calls catch every error themselves and answer
    with a reply or a flag. *)
Variable getRealDebridTorrents : string -> World -> reply (list Torrent.t) * World.
Variable addMagnetToRealDebrid : string -> option string -> World -> reply unit * World.
Variable deleteRealDebridTorrent : string -> string -> World -> bool * World.

(** The candidate search is not part of the class: it either answers
    with candidates or throws. *)
Variable findAllMatchingContent :
  string -> string -> World -> outcome (list Metadata.t) * World.

(** The state one scan runs in: the outside world, the calls made so
    far, and the [results] object the scan fills in place. *)
Record store : Type := {
  world : World;
  calls : list call;
  results : Results
}.

Definition M (A : Type) : Type := store -> outcome A * store.

Definition ret {A : Type} (a : A) : M A := fun st => (Returned a, st).

Definition bind {A B : Type} (m : M A) (f : A -> M B) : M B :=
  fun st =>
    match m st with
    | (Returned a, st') => f a st'
    | (Thrown msg, st') => (Thrown msg, st')
    end.

Definition tryCatch (m : M unit) (handler : string -> M unit) : M unit :=
  fun st =>
    match m st with
    | (Returned a, st') => (Returned a, st')
    | (Thrown msg, st') => handler msg st'
    end.

Definition perform {A : Type} (c : call) (f : World -> A * World) : M A :=
  fun st =>
    let (a, w) := f (world st) in
    (Returned a, {| world := w; calls := (calls st ++ [c])%list; results := results st |}).

Definition performOrThrow {A : Type} (c : call) (f : World -> outcome A * World)
  : M A :=
  fun st =>
    let (a, w) := f (world st) in
    (a, {| world := w; calls := (calls st ++ [c])%list; results := results st |}).

Definition update (f : Results -> Results) : M unit :=
  fun st =>
    (Returned tt, {| world := world st; calls := calls st; results := f (results st) |}).

Fixpoint forEach {A : Type} (body : A -> M unit) (xs : list A) : M unit :=
  match xs with
  | [] => ret tt
  | x :: xs' => bind (body x) (fun _ => forEach body xs')
  end.

Notation "x <- m ;; k" := (bind m (fun x => k))
  (at level 61, m at next level, right associativity).
Notation "m ;; k" := (bind m (fun _ => k))
  (at level 61, right associativity).

Definition getResults : M Results := fun st => (Returned (results st), st).

Definition pushError (message : string) (r : Results) : Results :=
  {| checkedTorrents := checkedTorrents r;
     upgradesFound := upgradesFound r;
     upgradesAdded := upgradesAdded r;
     errors := (errors r ++ [message])%list |}.

Definition setChecked (n : nat) (r : Results) : Results :=
  {| checkedTorrents := n;
     upgradesFound := upgradesFound r;
     upgradesAdded := upgradesAdded r;
     errors := errors r |}.

Definition addFound (n : nat) (r : Results) : Results :=
  {| checkedTorrents := checkedTorrents r;
     upgradesFound := upgradesFound r + n;
     upgradesAdded := upgradesAdded r;
     errors := errors r |}.

Definition incrAdded (r : Results) : Results :=
  {| checkedTorrents := checkedTorrents r;
     upgradesFound := upgradesFound r;
     upgradesAdded := upgradesAdded r + 1;
     errors := errors r |}.

Definition findBetterQualityMatches (title type : string)
    (currentQuality : option string) (preferences : Preferences.t)
  : M (list Metadata.t) :=
  allMatches <- performOrThrow (FindAllMatchingContent title type)
                  (findAllMatchingContent title type) ;;
  ret (selectBetterMatches allMatches currentQuality preferences).

Definition findBestQualityMatchForShow (showTitle : string)
    (preferences : Preferences.t) (year : option Z) : M (list Metadata.t) :=
  allMatches <- performOrThrow (FindAllMatchingContent showTitle "tv")
                  (findAllMatchingContent showTitle "tv") ;;
  ret (selectBestForShow allMatches preferences).

(** The body of the inner loop: one candidate is submitted. *)
Definition submitUpgrade (rdApiKey : string) (preferences : Preferences.t)
    (torrent : Torrent.t) (currentMetadata : Metadata.t) (m : Metadata.t) : M unit :=
  addResult <- perform (AddMagnetToRealDebrid rdApiKey (Metadata.magnet m))
                 (addMagnetToRealDebrid rdApiKey (Metadata.magnet m)) ;;
  match addResult with
  | Success _ =>
      update incrAdded ;;
      if Preferences.deleteOldAfterUpgrade preferences then
        _ <- perform (DeleteRealDebridTorrent rdApiKey (Torrent.id torrent))
               (deleteRealDebridTorrent rdApiKey (Torrent.id torrent)) ;;
        ret tt
      else ret tt
  | Failure error =>
      update (pushError ("Failed to upgrade " ++ Metadata.title currentMetadata
                           ++ ": " ++ error))
  end.

(** The body of the outer loop: one held torrent is checked. *)
Definition checkTorrent (rdApiKey : string) (preferences : Preferences.t)
    (torrent : Torrent.t) : M unit :=
  if negb (String.eqb (Torrent.status torrent) "downloaded") then ret tt
  else
    let currentMetadata := extractMetadataFromFilename (Torrent.filename torrent) in
    betterMatches <- findBetterQualityMatches (Metadata.title currentMetadata)
                       (Metadata.type currentMetadata)
                       (Metadata.quality currentMetadata) preferences ;;
    if (0 <? List.length betterMatches)%nat then
      update (addFound (List.length betterMatches)) ;;
      if Preferences.autoUpgrade preferences then
        forEach (submitUpgrade rdApiKey preferences torrent currentMetadata)
          betterMatches
      else ret tt
    else ret tt.

Definition checkErrorHandler (message : string) : M unit :=
  update (pushError ("Quality upgrade check error: " ++ message)).

(** The first definition in the class body, of two parameters. *)
Definition checkForQualityUpgrades_1 (rdApiKey : string)
    (preferences : Preferences.t) : M Results :=
  update (fun _ => emptyResults) ;;
  tryCatch
    (torrentsResult <- perform (GetRealDebridTorrents rdApiKey)
                         (getRealDebridTorrents rdApiKey) ;;
     match torrentsResult with
     | Failure _ => update (pushError "Failed to get current torrents")
     | Success currentTorrents =>
         update (setChecked (List.length currentTorrents)) ;;
         forEach (checkTorrent rdApiKey preferences) currentTorrents
     end)
    checkErrorHandler ;;
  getResults.

(** [currentTorrents.filter(...)] when a content type is given. *)
Definition filterByContentType (contentType : option string)
    (currentTorrents : list Torrent.t) : list Torrent.t :=
  if truthy contentType then
    filter (fun torrent =>
              let metadata := extractMetadataFromFilename (Torrent.filename torrent) in
              optIs contentType (Metadata.type metadata)) currentTorrents
  else currentTorrents.

(** The second definition, with [contentType = null] by default: the one
    in force, since a later method of a class body replaces an earlier
    one of the same name. *)
Definition checkForQualityUpgrades (rdApiKey : string)
    (preferences : Preferences.t) (contentType : option string) : M Results :=
  update (fun _ => emptyResults) ;;
  tryCatch
    (torrentsResult <- perform (GetRealDebridTorrents rdApiKey)
                         (getRealDebridTorrents rdApiKey) ;;
     match torrentsResult with
     | Failure _ => update (pushError "Failed to get current torrents")
     | Success currentTorrents =>
         let filteredTorrents := filterByContentType contentType currentTorrents in
         update (setChecked (List.length filteredTorrents)) ;;
         forEach (checkTorrent rdApiKey preferences) filteredTorrents
     end)
    checkErrorHandler ;;
  getResults.

Definition findBestQualityMatch (title type : string) (preferences : Preferences.t)
  : M (list Metadata.t) :=
  allMatches <- performOrThrow (FindAllMatchingContent title type)
                  (findAllMatchingContent title type) ;;
  ret (selectBest allMatches preferences).

(** A scan starts with no call made. *)
Definition start (w : World) : store :=
  {| world := w; calls := []; results := emptyResults |}.

End Collaborators.

End Scanner.

(** ** Auxiliary definitions used by the statements *)

Module Aux.
Import Regex APIManager.

(** A token that [cleanTitle] would remove is present. *)
Definition removable (s : string) : bool :=
  test false reBracketed s || test false reParenthesized s
  || test false reFourDigits s || test true reSourceTag s
  || test true reCodecTag s.

(** The label of the end-to-end scenario. *)
Definition scenarioLabel : string := "Movie.Title.2023.1080p.BluRay.x264-GROUP".

(** A candidate as [processHashListForMatching] builds it: magnet, title,
    quality, size and type, without [hdr] or [codec]. *)
Definition candidate (magnet title quality size type : string) : Metadata.t :=
  {| Metadata.magnet := Some magnet; Metadata.title := title;
     Metadata.quality := Some quality; Metadata.size := Some size;
     Metadata.type := type; Metadata.hdr := None; Metadata.codec := None |}.

Definition withHdr (h : option string) (m : Metadata.t) : Metadata.t :=
  {| Metadata.magnet := Metadata.magnet m; Metadata.title := Metadata.title m;
     Metadata.quality := Metadata.quality m; Metadata.size := Metadata.size m;
     Metadata.type := Metadata.type m; Metadata.hdr := h;
     Metadata.codec := Metadata.codec m |}.

Definition sdrOnly : Preferences.t :=
  {| Preferences.quality := None; Preferences.allowHigherQuality := false;
     Preferences.allowLowerQuality := false;
     Preferences.hdrPreference := Some "sdr-only";
     Preferences.fileTypes := None; Preferences.maxSize := None;
     Preferences.autoUpgrade := false; Preferences.deleteOldAfterUpgrade := false;
     Preferences.maxUpgradeMatches := None; Preferences.completeSeasons := false |}.

(** Complete seasons wanted, at 1080p. *)
Definition completeSeasons1080 : Preferences.t :=
  {| Preferences.quality := Some "1080p"; Preferences.allowHigherQuality := false;
     Preferences.allowLowerQuality := false;
     Preferences.hdrPreference := None;
     Preferences.fileTypes := None; Preferences.maxSize := None;
     Preferences.autoUpgrade := false; Preferences.deleteOldAfterUpgrade := false;
     Preferences.maxUpgradeMatches := None; Preferences.completeSeasons := true |}.

Definition seasonPack : Metadata.t :=
  candidate "magnet:?xt=urn:btih:aa" "Show.S01.Complete.1080p" "1080p" "Unknown" "tv".

Definition singleEpisode : Metadata.t :=
  candidate "magnet:?xt=urn:btih:bb" "Show.S01E02.1080p" "1080p" "Unknown" "tv".

End Aux.

(** Concrete collaborators, for running the scanner. *)
Module Demo.
Import Scanner.

(** The world counts the calls it has answered. *)
Definition World : Type := nat.

Definition heldEpisode : Torrent.t :=
  {| Torrent.id := "T1"; Torrent.filename := "Show.S01E01.720p";
     Torrent.status := "downloaded" |}.

Definition queuedMovie : Torrent.t :=
  {| Torrent.id := "T2"; Torrent.filename := "Queued.Movie.720p";
     Torrent.status := "downloading" |}.

Definition heldMovieA : Torrent.t :=
  {| Torrent.id := "T3"; Torrent.filename := "Movie.A.720p";
     Torrent.status := "downloaded" |}.

Definition heldMovieB : Torrent.t :=
  {| Torrent.id := "T4"; Torrent.filename := "Movie.B.720p";
     Torrent.status := "downloaded" |}.

Definition holding (ts : list Torrent.t)
  : string -> World -> reply (list Torrent.t) * World :=
  fun _ w => (Success ts, S w).

Definition addSucceeds : string -> option string -> World -> reply unit * World :=
  fun _ _ w => (Success tt, S w).

Definition addFails : string -> option string -> World -> reply unit * World :=
  fun _ _ w => (Failure "Failed to add magnet", S w).

Definition deleteSucceeds : string -> string -> World -> bool * World :=
  fun _ _ w => (true, S w).

Definition searchFinds (found : list Metadata.t)
  : string -> string -> World -> outcome (list Metadata.t) * World :=
  fun _ _ w => (Returned found, S w).

(** The class has no [findAllMatchingContent] method, so calling it
    throws a [TypeError]. *)
Definition searchThrows
  : string -> string -> World -> outcome (list Metadata.t) * World :=
  fun _ _ w => (Thrown "this.findAllMatchingContent is not a function", S w).

Definition upgradeTo1080 : Preferences.t :=
  {| Preferences.quality := Some "1080p"; Preferences.allowHigherQuality := false;
     Preferences.allowLowerQuality := false;
     Preferences.hdrPreference := None;
     Preferences.fileTypes := None; Preferences.maxSize := None;
     Preferences.autoUpgrade := true; Preferences.deleteOldAfterUpgrade := false;
     Preferences.maxUpgradeMatches := None; Preferences.completeSeasons := false |}.

Definition betterMovieA : Metadata.t :=
  Aux.candidate "magnet:?xt=urn:btih:ee" "Movie.A.1080p" "1080p" "Unknown" "movie".

End Demo.

(** ** The proxied requests

    [fetchWithFallback] and the Real-Debrid calls built on it.  The network
    is a collaborator: [fetch] answers with a response or rejects. *)

Module Http.
Import JsString Scanner.

Definition corsProxies : list string :=
  ["https://api.allorigins.win/raw?url=";
   "https://cors-anywhere.herokuapp.com/";
   "https://thingproxy.freeboard.io/fetch/";
   "https://corsproxy.org/?";
   "https://cors.eu.org/";
   "https://yacdn.org/proxy/"].

Definition rdBaseUrl : string := "https://api.real-debrid.com/rest/1.0".

(** The two fields the rotation keeps; [corsProxy] is [undefined] when the
    index points outside the list. *)
Record proxyState : Type := {
  currentProxyIndex : nat;
  corsProxy : option string
}.

Definition proxyAt (i : nat) : option string := nth_error corsProxies i.

(** The state the constructor leaves. *)
Definition initialProxy : proxyState :=
  {| currentProxyIndex := 0; corsProxy := proxyAt 0 |}.

Definition tryNextProxy (p : proxyState) : proxyState :=
  let i := ((currentProxyIndex p + 1) mod List.length corsProxies)%nat in
  {| currentProxyIndex := i; corsProxy := proxyAt i |}.

(** A possibly-undefined string inside a template string. *)
Definition render (o : option string) : string :=
  match o with Some s => s | None => "undefined" end.

(** A number inside a template string. *)
Definition decimal (n : nat) : string := NilZero.string_of_uint (Nat.to_uint n).

(** The options of a request. *)
Record options : Type := {
  method : option string;
  headers : list (string * string);
  body : option string
}.

Definition noOptions : options := {| method := None; headers := []; body := None |}.

(** [{...headers, [k]: v}]: an existing key keeps its place. *)
Fixpoint setHeader (k v : string) (hs : list (string * string)) : list (string * string) :=
  match hs with
  | [] => [(k, v)]
  | (k', v') :: rest =>
      if String.eqb k' k then (k', v) :: rest else (k', v') :: setHeader k v rest
  end.

Fixpoint getHeader (k : string) (hs : list (string * string)) : option string :=
  match hs with
  | [] => None
  | (k', v') :: rest => if String.eqb k' k then Some v' else getHeader k rest
  end.

(** The options [fetchWithFallback] hands to [fetch]. *)
Definition requestOptions (o : options) : options :=
  {| method := method o;
     headers := setHeader "X-Requested-With" "XMLHttpRequest" (headers o);
     body := body o |}.

(** [lastError?.message || 'Unknown error'] *)
Definition errorMessage (lastError : option string) : string :=
  match lastError with
  | Some m => if String.eqb m "" then "Unknown error" else m
  | None => "Unknown error"
  end.

(** [ids.join(',')] *)
Fixpoint join (sep : string) (xs : list string) : string :=
  match xs with
  | [] => ""
  | [x] => x
  | x :: rest => x ++ sep ++ join sep rest
  end.

(** [files.map((_, index) => index + 1).join(',')] for [n] files. *)
Definition fileIds (n : nat) : string := join "," (map decimal (seq 1 n)).

Section Network.

Variable World : Type.

(** What [response.json()] yields. *)
Variable Json : Type.

Record response : Type := {
  ok : bool;
  status : nat;
  statusText : string;
  json : outcome Json
}.

Variable fetch : string -> options -> World -> outcome response * World.
Variable encodeURIComponent : string -> string.

(** Reading the [id] of an answer: it throws when the answer is [null] or
    [undefined]; otherwise it gives the [id] when that is truthy, as a
    template string renders it.  And the number of entries of the [files]
    array of an answer, if it has one. *)
Variable idOf : Json -> outcome (option string).
Variable filesOf : Json -> option nat.

(** The outside world, the rotation state of the manager, and the requests
    made so far. *)
Record net : Type := {
  world : World;
  proxy : proxyState;
  requests : list (string * options)
}.

Definition H (A : Type) : Type := net -> outcome A * net.

Definition ret {A : Type} (a : A) : H A := fun st => (Returned a, st).

Definition throw {A : Type} (message : string) : H A := fun st => (Thrown message, st).

Definition bind {A B : Type} (m : H A) (f : A -> H B) : H B :=
  fun st =>
    match m st with
    | (Returned a, st') => f a st'
    | (Thrown msg, st') => (Thrown msg, st')
    end.

Definition tryCatch {A : Type} (m : H A) (handler : string -> H A) : H A :=
  fun st =>
    match m st with
    | (Returned a, st') => (Returned a, st')
    | (Thrown msg, st') => handler msg st'
    end.

Notation "x <- m ;; k" := (bind m (fun x => k))
  (at level 61, m at next level, right associativity).

Definition doFetch (url : string) (o : options) : H response :=
  fun st =>
    let (r, w) := fetch url o (world st) in
    (r, {| world := w; proxy := proxy st;
           requests := (requests st ++ [(url, o)])%list |}).

Definition awaitJson (r : response) : H Json := fun st => (json r, st).

(** The body of the [try] of one attempt. *)
Definition attempt (url : string) (o : options) : H response :=
  fun st =>
    let proxyUrl := render (corsProxy (proxy st)) ++ encodeURIComponent url in
    (response <- doFetch proxyUrl (requestOptions o) ;;
     if ok response then ret response
     else if (400 <=? status response)%nat
     then throw ("HTTP " ++ decimal (status response) ++ ": " ++ statusText response)
     else ret response) st.

(** The [for] loop with [remaining] attempts to go: it ends with the
    response an attempt returned, or with the last error. *)
Fixpoint retryLoop (remaining : nat) (url : string) (o : options)
    (lastError : option string) (st : net) : (response + option string) * net :=
  match remaining with
  | O => (inr lastError, st)
  | S rest =>
      match attempt url o st with
      | (Returned response, st1) => (inl response, st1)
      | (Thrown message, st1) =>
          let st2 :=
            match rest with
            | O => st1
            | S _ => {| world := world st1; proxy := tryNextProxy (proxy st1);
                        requests := requests st1 |}
            end in
          retryLoop rest url o (Some message) st2
      end
  end.

Definition fetchWithFallback (url : string) (o : options) (maxRetries : nat)
  : H response :=
  fun st =>
    let originalProxyIndex := currentProxyIndex (proxy st) in
    match retryLoop maxRetries url o None st with
    | (inl response, st1) => (Returned response, st1)
    | (inr lastError, st1) =>
        (Thrown ("All CORS proxies failed. Last error: " ++ errorMessage lastError),
         {| world := world st1;
            proxy := {| currentProxyIndex := originalProxyIndex;
                        corsProxy := proxyAt originalProxyIndex |};
            requests := requests st1 |})
    end.

Definition bearer (apiKey : string) : string * string :=
  ("Authorization", "Bearer " ++ apiKey).

Definition getRealDebridTorrents (apiKey : string) : H (reply Json) :=
  tryCatch
    (response <- fetchWithFallback (rdBaseUrl ++ "/torrents")
                   {| method := None; headers := [bearer apiKey]; body := None |} 3 ;;
     if ok response then
       torrents <- awaitJson response ;;
       ret (Success torrents)
     else ret (Failure "Failed to get torrents"))
    (fun message => ret (Failure message)).

Definition deleteRealDebridTorrent (apiKey torrentId : string) : H bool :=
  tryCatch
    (response <- fetchWithFallback (rdBaseUrl ++ "/torrents/delete/" ++ torrentId)
                   {| method := Some "DELETE"; headers := [bearer apiKey];
                      body := None |} 3 ;;
     ret (ok response))
    (fun _ => ret false).

Definition selectAllFiles (apiKey torrentId : string) : H unit :=
  tryCatch
    (infoResponse <- fetchWithFallback (rdBaseUrl ++ "/torrents/info/" ++ torrentId)
                       {| method := None; headers := [bearer apiKey]; body := None |} 3 ;;
     if ok infoResponse then
       torrentInfo <- awaitJson infoResponse ;;
       match filesOf torrentInfo with
       | None => throw "Cannot read properties of undefined (reading 'map')"
       | Some n =>
           _ <- fetchWithFallback (rdBaseUrl ++ "/torrents/selectFiles/" ++ torrentId)
                  {| method := Some "POST";
                     headers := [bearer apiKey;
                                 ("Content-Type", "application/x-www-form-urlencoded")];
                     body := Some ("files=" ++ fileIds n) |} 3 ;;
           ret tt
       end
     else ret tt)
    (fun _ => ret tt).

Definition addMagnetToRealDebrid (apiKey magnetLink : string) : H (reply Json) :=
  tryCatch
    (addResponse <- fetchWithFallback (rdBaseUrl ++ "/torrents/addMagnet")
                      {| method := Some "POST";
                         headers := [bearer apiKey;
                                     ("Content-Type", "application/x-www-form-urlencoded")];
                         body := Some ("magnet=" ++ encodeURIComponent magnetLink) |} 3 ;;
     if ok addResponse then
       addResult <- awaitJson addResponse ;;
       _ <- match idOf addResult with
            | Returned (Some id) => selectAllFiles apiKey id
            | Returned None => ret tt
            | Thrown message => throw message
            end ;;
       ret (Success addResult)
     else ret (Failure "Failed to add magnet"))
    (fun message => ret (Failure message)).

End Network.

End Http.

(** ** The auto-add process with separate movie and show preferences *)

Module AutoAdd.
Import JsString APIManager Scanner.

Record GlobalSettings : Type := {
  checkForUpgrades : bool;
  autoAddMovies : bool;
  autoAddShows : bool
}.

(** The [movie] or [show] of a watchlist item. *)
Record WatchItem : Type := {
  title : string;
  year : option Z
}.

Record AutoResults : Type := {
  moviesProcessed : nat;
  showsProcessed : nat;
  moviesAdded : nat;
  showsAdded : nat;
  movieUpgradesFound : nat;
  showUpgradesFound : nat;
  upgradesAdded : nat;
  errors : list string
}.

Definition emptyAutoResults : AutoResults :=
  {| moviesProcessed := 0; showsProcessed := 0; moviesAdded := 0; showsAdded := 0;
     movieUpgradesFound := 0; showUpgradesFound := 0; upgradesAdded := 0; errors := [] |}.

Definition setMoviesProcessed (n : nat) (r : AutoResults) : AutoResults :=
  {| moviesProcessed := n; showsProcessed := showsProcessed r;
     moviesAdded := moviesAdded r; showsAdded := showsAdded r;
     movieUpgradesFound := movieUpgradesFound r;
     showUpgradesFound := showUpgradesFound r;
     upgradesAdded := upgradesAdded r; errors := errors r |}.

Definition setShowsProcessed (n : nat) (r : AutoResults) : AutoResults :=
  {| moviesProcessed := moviesProcessed r; showsProcessed := n;
     moviesAdded := moviesAdded r; showsAdded := showsAdded r;
     movieUpgradesFound := movieUpgradesFound r;
     showUpgradesFound := showUpgradesFound r;
     upgradesAdded := upgradesAdded r; errors := errors r |}.

Definition incrMoviesAdded (r : AutoResults) : AutoResults :=
  {| moviesProcessed := moviesProcessed r; showsProcessed := showsProcessed r;
     moviesAdded := moviesAdded r + 1; showsAdded := showsAdded r;
     movieUpgradesFound := movieUpgradesFound r;
     showUpgradesFound := showUpgradesFound r;
     upgradesAdded := upgradesAdded r; errors := errors r |}.

Definition incrShowsAdded (r : AutoResults) : AutoResults :=
  {| moviesProcessed := moviesProcessed r; showsProcessed := showsProcessed r;
     moviesAdded := moviesAdded r; showsAdded := showsAdded r + 1;
     movieUpgradesFound := movieUpgradesFound r;
     showUpgradesFound := showUpgradesFound r;
     upgradesAdded := upgradesAdded r; errors := errors r |}.

Definition pushErrors (messages : list string) (r : AutoResults) : AutoResults :=
  {| moviesProcessed := moviesProcessed r; showsProcessed := showsProcessed r;
     moviesAdded := moviesAdded r; showsAdded := showsAdded r;
     movieUpgradesFound := movieUpgradesFound r;
     showUpgradesFound := showUpgradesFound r;
     upgradesAdded := upgradesAdded r; errors := (errors r ++ messages)%list |}.

(** The three assignments after the scan for movies. *)
Definition takeMovieUpgrades (u : Results) (r : AutoResults) : AutoResults :=
  {| moviesProcessed := moviesProcessed r; showsProcessed := showsProcessed r;
     moviesAdded := moviesAdded r; showsAdded := showsAdded r;
     movieUpgradesFound := Scanner.upgradesFound u;
     showUpgradesFound := showUpgradesFound r;
     upgradesAdded := upgradesAdded r + Scanner.upgradesAdded u;
     errors := (errors r ++ Scanner.errors u)%list |}.

(** The three assignments after the scan for shows. *)
Definition takeShowUpgrades (u : Results) (r : AutoResults) : AutoResults :=
  {| moviesProcessed := moviesProcessed r; showsProcessed := showsProcessed r;
     moviesAdded := moviesAdded r; showsAdded := showsAdded r;
     movieUpgradesFound := movieUpgradesFound r;
     showUpgradesFound := Scanner.upgradesFound u;
     upgradesAdded := upgradesAdded r + Scanner.upgradesAdded u;
     errors := (errors r ++ Scanner.errors u)%list |}.

Section Collaborators.

Variable World : Type.
Variable getRealDebridTorrents : string -> World -> reply (list Torrent.t) * World.
Variable addMagnetToRealDebrid : string -> option string -> World -> reply unit * World.
Variable deleteRealDebridTorrent : string -> string -> World -> bool * World.
Variable findAllMatchingContent :
  string -> string -> World -> outcome (list Metadata.t) * World.

(** [getTraktWatchlist(accessToken, type)] catches every error itself. *)
Variable getTraktWatchlist : string -> string -> World -> reply (list WatchItem) * World.

(** The state of the process: the store the scanner and the searches run
    in, and the [results] object of the process itself. *)
Record autoStore : Type := {
  scanStore : store World;
  auto : AutoResults
}.

Definition MA (A : Type) : Type := autoStore -> outcome A * autoStore.

Definition ret {A : Type} (a : A) : MA A := fun s => (Returned a, s).

Definition bind {A B : Type} (m : MA A) (f : A -> MA B) : MA B :=
  fun s =>
    match m s with
    | (Returned a, s') => f a s'
    | (Thrown msg, s') => (Thrown msg, s')
    end.

Definition tryCatch (m : MA unit) (handler : string -> MA unit) : MA unit :=
  fun s =>
    match m s with
    | (Returned a, s') => (Returned a, s')
    | (Thrown msg, s') => handler msg s'
    end.

Notation "x <- m ;; k" := (bind m (fun x => k))
  (at level 61, m at next level, right associativity).
Notation "m ;; k" := (bind m (fun _ => k))
  (at level 61, right associativity).

(** A method of the manager called from the process. *)
Definition call {A : Type} (m : M World A) : MA A :=
  fun s =>
    let (o, st) := m (scanStore s) in
    (o, {| scanStore := st; auto := auto s |}).

Definition update (f : AutoResults -> AutoResults) : MA unit :=
  fun s => (Returned tt, {| scanStore := scanStore s; auto := f (auto s) |}).

Definition getAuto : MA AutoResults := fun s => (Returned (auto s), s).

Definition watchlist (traktToken type : string) : MA (reply (list WatchItem)) :=
  fun s =>
    let (r, w) := getTraktWatchlist traktToken type (world (scanStore s)) in
    (Returned r,
     {| scanStore := {| world := w; calls := calls (scanStore s);
                        results := results (scanStore s) |};
        auto := auto s |}).

Fixpoint forEach {A : Type} (body : A -> MA unit) (xs : list A) : MA unit :=
  match xs with
  | [] => ret tt
  | x :: xs' => bind (body x) (fun _ => forEach body xs')
  end.

(** The inner loop: the best matches of one title are added. *)
Definition addMatches (rdApiKey : string) (itemTitle : string)
    (added : AutoResults -> AutoResults) (bestMatches : list Metadata.t) : MA unit :=
  forEach (fun m =>
             addResult <- call (perform (AddMagnetToRealDebrid rdApiKey (Metadata.magnet m))
                                  (addMagnetToRealDebrid rdApiKey (Metadata.magnet m))) ;;
             match addResult with
             | Success _ => update added
             | Failure error =>
                 update (pushErrors ["Failed to add " ++ itemTitle ++ ": " ++ error])
             end) bestMatches.

Definition runAutoAddProcessSeparate (rdApiKey traktToken : string)
    (moviePreferences showPreferences : Preferences.t)
    (globalSettings : GlobalSettings) : MA AutoResults :=
  update (fun _ => emptyAutoResults) ;;
  tryCatch
    ((if checkForUpgrades globalSettings then
        (if Preferences.autoUpgrade moviePreferences then
           movieUpgradeResults <-
             call (checkForQualityUpgrades getRealDebridTorrents addMagnetToRealDebrid
                     deleteRealDebridTorrent findAllMatchingContent
                     rdApiKey moviePreferences (Some "movie")) ;;
           update (takeMovieUpgrades movieUpgradeResults)
         else ret tt) ;;
        (if Preferences.autoUpgrade showPreferences then
           showUpgradeResults <-
             call (checkForQualityUpgrades getRealDebridTorrents addMagnetToRealDebrid
                     deleteRealDebridTorrent findAllMatchingContent
                     rdApiKey showPreferences (Some "tv")) ;;
           update (takeShowUpgrades showUpgradeResults)
         else ret tt)
      else ret tt) ;;
     (if autoAddMovies globalSettings then
        movieWatchlist <- watchlist traktToken "movies" ;;
        match movieWatchlist with
        | Success data =>
            update (setMoviesProcessed (List.length data)) ;;
            forEach (fun item =>
                       let movieTitle := title item in
                       bestMatches <- call (findBestQualityMatch findAllMatchingContent
                                              movieTitle "movie" moviePreferences) ;;
                       addMatches rdApiKey movieTitle incrMoviesAdded bestMatches) data
        | Failure _ => ret tt
        end
      else ret tt) ;;
     (if autoAddShows globalSettings then
        showWatchlist <- watchlist traktToken "shows" ;;
        match showWatchlist with
        | Success data =>
            update (setShowsProcessed (List.length data)) ;;
            forEach (fun item =>
                       let showTitle := title item in
                       bestMatches <- call (findBestQualityMatchForShow
                                              findAllMatchingContent
                                              showTitle showPreferences (year item)) ;;
                       addMatches rdApiKey showTitle incrShowsAdded bestMatches) data
        | Failure _ => ret tt
        end
      else ret tt))
    (fun message => update (pushErrors ["Auto-add process error: " ++ message])) ;;
  getAuto.

(** The process starts with no call made. *)
Definition begin (w : World) : autoStore :=
  {| scanStore := start w; auto := emptyAutoResults |}.

End Collaborators.

End AutoAdd.

(** Concrete watchlists, for running the process. *)
Module DemoAuto.
Import Scanner AutoAdd.

Definition watching (items : list WatchItem)
  : string -> string -> Demo.World -> reply (list WatchItem) * Demo.World :=
  fun _ _ w => (Success items, S w).

Definition movieA : WatchItem := {| title := "Movie A"; year := Some 2020%Z |}.
Definition movieB : WatchItem := {| title := "Movie B"; year := None |}.

Definition everythingOff : GlobalSettings :=
  {| checkForUpgrades := false; autoAddMovies := false; autoAddShows := false |}.

Definition addingBoth : GlobalSettings :=
  {| checkForUpgrades := false; autoAddMovies := true; autoAddShows := true |}.

Definition upgradesOnly : GlobalSettings :=
  {| checkForUpgrades := true; autoAddMovies := false; autoAddShows := false |}.

End DemoAuto.

(** Notions used to state properties of the proxied requests. *)
Module HttpNotions.
Import Http.

(** The index points into the list and [corsProxy] is the entry there. *)
Definition wellFormed (p : proxyState) : Prop :=
  (currentProxyIndex p < List.length corsProxies)%nat /\
  corsProxy p = proxyAt (currentProxyIndex p).

(** The state after [k] rotations. *)
Definition rotated (k : nat) (p : proxyState) : proxyState :=
  Nat.iter k tryNextProxy p.

(** The request of attempt [j], counted from 0, of a call that started
    with the rotation state [p]. *)
Definition requestAt (encodeURIComponent : string -> string) (p : proxyState)
    (url : string) (o : options) (j : nat) : string * options :=
  (render (corsProxy (rotated j p)) ++ encodeURIComponent url, requestOptions o).

(** A computation that makes at most [n] requests and leaves the rotation
    well formed if it found it so. *)
Definition within {World A : Type} (n : nat)
    (m : net World -> Scanner.outcome A * net World) : Prop :=
  forall st out st',
    m st = (out, st') ->
    (List.length (requests st) <= List.length (requests st')
     <= List.length (requests st) + n)%nat /\
    (wellFormed (proxy st) -> wellFormed (proxy st')).

(** A computation that always returns. *)
Definition neverThrows {World A : Type}
    (m : net World -> Scanner.outcome A * net World) : Prop :=
  forall st, exists a st', m st = (Scanner.Returned a, st').

End HttpNotions.

(** A concrete network, for running the requests. *)
Module DemoNet.
Import Scanner Http.

Definition World : Type := nat.
Definition Json : Type := unit.

(** Every proxy answers 503. *)
Definition fetchUnavailable : string -> options -> World -> outcome (response Json) * World :=
  fun _ _ w =>
    (Returned {| ok := false; status := 503; statusText := "Service Unavailable";
                 json := Thrown "Unexpected token" |}, S w).

(** The first request is rejected, the following ones are answered. *)
Definition fetchSecondTime : string -> options -> World -> outcome (response Json) * World :=
  fun _ _ w =>
    match w with
    | O => (Thrown "Failed to fetch", S w)
    | S _ => (Returned {| ok := true; status := 200; statusText := "OK";
                          json := Returned tt |}, S w)
    end.

Definition noEncoding : string -> string := fun s => s.

Definition fresh : net World :=
  {| world := 0; proxy := initialProxy; requests := [] |}.

End DemoNet.

(** Notions used to state further properties of the scanner. *)
Module ScanNotions.
Import JsString APIManager Scanner.

Definition isSubmission (c : call) : bool :=
  match c with
  | AddMagnetToRealDebrid _ _ | DeleteRealDebridTorrent _ _ => true
  | _ => false
  end.

Definition isDeletion (c : call) : bool :=
  match c with
  | DeleteRealDebridTorrent _ _ => true
  | _ => false
  end.

Definition isSearch (c : call) : bool :=
  match c with
  | FindAllMatchingContent _ _ => true
  | _ => false
  end.

Definition isListing (c : call) : bool :=
  match c with
  | GetRealDebridTorrents _ => true
  | _ => false
  end.

(** The search made for a held torrent. *)
Definition searchFor (torrent : Torrent.t) : call :=
  let cm := extractMetadataFromFilename (Torrent.filename torrent) in
  FindAllMatchingContent (Metadata.title cm) (Metadata.type cm).

Definition downloaded (torrent : Torrent.t) : bool :=
  String.eqb (Torrent.status torrent) "downloaded".

Section Run.

Variable World : Type.
Variable addMagnetToRealDebrid : string -> option string -> World -> reply unit * World.
Variable deleteRealDebridTorrent : string -> string -> World -> bool * World.
Variable findAllMatchingContent :
  string -> string -> World -> outcome (list Metadata.t) * World.
Variable rdApiKey : string.
Variable preferences : Preferences.t.

(** The state in which the loop of a scan starts: the listing was answered
    and left the world [w1], and [n] torrents are to be checked. *)
Definition listed (st : store World) (w1 : World) (n : nat) : store World :=
  {| world := w1;
     calls := (calls st ++ [GetRealDebridTorrents rdApiKey])%list;
     results := setChecked n emptyResults |}.

(** What the search for [torrent] answers when it is made in state [st]. *)
Definition searchAnswer (torrent : Torrent.t) (st : store World)
  : outcome (list Metadata.t) * World :=
  let cm := extractMetadataFromFilename (Torrent.filename torrent) in
  findAllMatchingContent (Metadata.title cm) (Metadata.type cm) (world st).

(** The loop over [ts], started in [st0], gets to the torrent of index [i]
    in state [st1]: the torrents before it were checked and no exception
    ended the loop. *)
Definition reaches (ts : list Torrent.t) (st0 : store World) (i : nat)
    (st1 : store World) : Prop :=
  forEach (checkTorrent addMagnetToRealDebrid deleteRealDebridTorrent
             findAllMatchingContent rdApiKey preferences) (firstn i ts) st0
  = (Returned tt, st1).

(** The loop gets to every downloaded torrent of [ts], and the search made
    for it there answers. *)
Definition allAnswered (ts : list Torrent.t) (st0 : store World) : Prop :=
  forall i torrent,
    nth_error ts i = Some torrent -> downloaded torrent = true ->
    exists st1 found w,
      reaches ts st0 i st1 /\ searchAnswer torrent st1 = (Returned found, w).

(** The searches made between two states. *)
Definition searchesSince (st0 st' : store World) : list call :=
  filter isSearch (skipn (List.length (calls st0)) (calls st')).

(** The loop ran to its end: every downloaded torrent was searched, in
    order and once, and every search answered. *)
Definition searchedAll (ts : list Torrent.t) (st0 st' : store World) (r : Results)
  : Prop :=
  forEach (checkTorrent addMagnetToRealDebrid deleteRealDebridTorrent
             findAllMatchingContent rdApiKey preferences) ts st0
  = (Returned tt, st') /\
  r = results st' /\
  searchesSince st0 st' = map searchFor (filter downloaded ts) /\
  allAnswered ts st0.

(** The loop ended at the first search that threw: the search for the
    downloaded torrent of index [i].  The searches before it answered, it is
    the last call of the scan, and its message ends the report. *)
Definition stoppedAtThrow (ts : list Torrent.t) (st0 st' : store World) (r : Results)
  : Prop :=
  exists i torrent message st1 w2,
    nth_error ts i = Some torrent /\ downloaded torrent = true /\
    reaches ts st0 i st1 /\
    allAnswered (firstn i ts) st0 /\
    searchAnswer torrent st1 = (Thrown message, w2) /\
    searchesSince st0 st'
    = (map searchFor (filter downloaded (firstn i ts)) ++ [searchFor torrent])%list /\
    calls st' = (calls st1 ++ [searchFor torrent])%list /\
    world st' = w2 /\
    r = pushError ("Quality upgrade check error: " ++ message) (results st1).

End Run.

End ScanNotions.

(** Notions used to state further properties. *)
Module Notions.
Import JsString APIManager.

Definition rankOf (m : Metadata.t) : Z := getQualityRank (Metadata.quality m).

Definition preferredRankOf (p : Preferences.t) : Z :=
  getQualityRank (Preferences.quality p).

(** Best rank first. *)
Definition bestFirst (ms : list Metadata.t) : Prop :=
  StronglySorted (fun a b => (rankOf b <= rankOf a)%Z) ms.

(** The members of rank [r], in the order of the list. *)
Definition ofRank (r : Z) (ms : list Metadata.t) : list Metadata.t :=
  filter (fun m => (rankOf m =? r)%Z) ms.

Definition withHdrPreference (h : option string) (p : Preferences.t) : Preferences.t :=
  {| Preferences.quality := Preferences.quality p;
     Preferences.allowHigherQuality := Preferences.allowHigherQuality p;
     Preferences.allowLowerQuality := Preferences.allowLowerQuality p;
     Preferences.hdrPreference := h;
     Preferences.fileTypes := Preferences.fileTypes p;
     Preferences.maxSize := Preferences.maxSize p;
     Preferences.autoUpgrade := Preferences.autoUpgrade p;
     Preferences.deleteOldAfterUpgrade := Preferences.deleteOldAfterUpgrade p;
     Preferences.maxUpgradeMatches := Preferences.maxUpgradeMatches p;
     Preferences.completeSeasons := Preferences.completeSeasons p |}.

Definition withQuality (q : option string) (p : Preferences.t) : Preferences.t :=
  {| Preferences.quality := q;
     Preferences.allowHigherQuality := Preferences.allowHigherQuality p;
     Preferences.allowLowerQuality := Preferences.allowLowerQuality p;
     Preferences.hdrPreference := Preferences.hdrPreference p;
     Preferences.fileTypes := Preferences.fileTypes p;
     Preferences.maxSize := Preferences.maxSize p;
     Preferences.autoUpgrade := Preferences.autoUpgrade p;
     Preferences.deleteOldAfterUpgrade := Preferences.deleteOldAfterUpgrade p;
     Preferences.maxUpgradeMatches := Preferences.maxUpgradeMatches p;
     Preferences.completeSeasons := Preferences.completeSeasons p |}.

(** Not HDR content for the matcher: no [hdr], an empty one, or ['SDR']. *)
Definition notHdrContent (m : Metadata.t) : Prop :=
  Metadata.hdr m = None \/ Metadata.hdr m = Some "" \/ Metadata.hdr m = Some "SDR".

(** A release type the whitelist knows. *)
Definition knownFileType (t : string) : Prop :=
  t = "remux" \/ t = "bluray" \/ t = "web".

(** The values JavaScript treats as no quality at all. *)
Definition noQuality (q : option string) : Prop :=
  q = None \/ q = Some "" \/ q = Some "Unknown".

(** [groups] is the grouping of [ms] by [key]: the keys are distinct, each
    group holds exactly the members of [ms] with its key, in their order,
    and every member of [ms] has its group. *)
Definition groupedBy (key : Metadata.t -> string) (ms : list Metadata.t)
    (groups : groupMap) : Prop :=
  NoDup (map fst groups) /\
  (forall k members, In (k, members) groups ->
     members <> [] /\ members = filter (fun m => String.eqb (key m) k) ms) /\
  (forall m, In m ms -> In (key m) (map fst groups)).

Definition titleKey (m : Metadata.t) : string := cleanTitle (Metadata.title m).

Definition seasonKey (m : Metadata.t) : string := seasonGroupKey (Metadata.title m).

(** The values [extractHDRInfo] returns, in the order it tries them. *)
Definition hdrTiers : list string :=
  ["Dolby Vision"; "HDR10+"; "HDR10"; "HDR"; "SDR"].

(** The test of [groupShowsBySeasonStructure] that files a title under an
    individual-episode group: [seasonMatch] and [episodeMatch] both found. *)
Definition inIndividualGroup (title : string) : bool :=
  match Regex.exec true reSeasonNum title, Regex.exec true reEpisodeNum title with
  | Some _, Some _ => true
  | _, _ => false
  end.

(** The last code unit of a string. *)
Fixpoint lastChar (s : string) : option ascii :=
  match s with
  | EmptyString => None
  | String c EmptyString => Some c
  | String _ rest => lastChar rest
  end.

(** The candidates [findBetterQualityMatches] sorts: the upgrades over
    [currentQuality] that pass the preferences, in the order received. *)
Definition eligibleUpgrades (allMatches : list Metadata.t)
    (currentQuality : option string) (preferences : Preferences.t) : list Metadata.t :=
  filter (fun m =>
            isBetterQuality (Metadata.quality m) currentQuality
              (Preferences.quality preferences)
            && matchesPreferences m preferences) allMatches.

End Notions.

(** Three releases of one film, for the selection examples. *)
Module DemoChoice.

Definition movieA720 : Metadata.t :=
  Aux.candidate "magnet:?xt=urn:btih:e7" "Movie.A.720p" "720p" "Unknown" "movie".

Definition movieA1080 : Metadata.t :=
  Aux.candidate "magnet:?xt=urn:btih:e1" "Movie.A.1080p" "1080p" "Unknown" "movie".

Definition movieA2160 : Metadata.t :=
  Aux.candidate "magnet:?xt=urn:btih:e2" "Movie.A.2160p" "2160p" "Unknown" "movie".

Definition movieA1080Remux : Metadata.t :=
  Aux.candidate "magnet:?xt=urn:btih:e3" "Movie.A.1080p.Remux" "1080p" "Unknown" "movie".

Definition higherAllowed : Preferences.t :=
  {| Preferences.quality := Some "1080p"; Preferences.allowHigherQuality := true;
     Preferences.allowLowerQuality := false;
     Preferences.hdrPreference := None;
     Preferences.fileTypes := None; Preferences.maxSize := None;
     Preferences.autoUpgrade := true; Preferences.deleteOldAfterUpgrade := false;
     Preferences.maxUpgradeMatches := None; Preferences.completeSeasons := false |}.

(** A search that finds nothing while the world has answered fewer than
    [n] calls, and throws from then on. *)
Definition searchThrowsFrom (n : nat)
  : string -> string -> Demo.World -> Scanner.outcome (list Metadata.t) * Demo.World :=
  fun _ _ w =>
    if (w <? n)%nat then (Scanner.Returned [], S w)
    else (Scanner.Thrown "index unavailable", S w).

(** [upgradeTo1080] with a negative [maxUpgradeMatches]. *)
Definition allButLast : Preferences.t :=
  {| Preferences.quality := Some "1080p"; Preferences.allowHigherQuality := false;
     Preferences.allowLowerQuality := false;
     Preferences.hdrPreference := None;
     Preferences.fileTypes := None; Preferences.maxSize := None;
     Preferences.autoUpgrade := true; Preferences.deleteOldAfterUpgrade := false;
     Preferences.maxUpgradeMatches := Some (-1)%Z;
     Preferences.completeSeasons := false |}.

End DemoChoice.

(** * Properties *)

Module Ranking.
Import APIManager.

(** C1. [isBetterQuality(n, c, p)] is true exactly when the rank of [n] is
    above the rank of [c] and, in addition, the rank of [c] is below the
    rank of [p] or the rank of [n] is at most the rank of [p]; this holds
    for every quality, the tiers of the table included. *)
Theorem isBetterQuality_iff (n c p : option string) :
  isBetterQuality n c p = true <->
  (getQualityRank n > getQualityRank c)%Z /\
  ((getQualityRank c < getQualityRank p)%Z \/
   (getQualityRank n <= getQualityRank p)%Z).
Proof.
  unfold isBetterQuality.
  generalize (getQualityRank n) (getQualityRank c) (getQualityRank p).
  intros rn rc rp.
  destruct (Z.gtb_spec rn rc) as [Hgt | Hle].
  - rewrite orb_true_iff, Z.ltb_lt, Z.leb_le. split.
    + intros H. split; [lia | exact H].
    + intros [_ H]. exact H.
  - split; [discriminate | lia].
Qed.

(** The ranks of the tiers of the table. *)
Lemma getQualityRank_table :
  getQualityRank (Some "Unknown") = (-1)%Z /\
  getQualityRank (Some "480p") = 1%Z /\
  getQualityRank (Some "720p") = 2%Z /\
  getQualityRank (Some "1080p") = 3%Z /\
  getQualityRank (Some "2160p") = 4%Z /\
  getQualityRank (Some "4K") = 5%Z /\
  getQualityRank (Some "UHD") = 5%Z.
Proof. repeat split; reflexivity. Qed.

(** C2, as the spec has it, fails: with the current quality already at
    the preferred one, a candidate above it is no upgrade. *)
Lemma isBetterQuality_spec_instances_fail :
  ~ (isBetterQuality (Some "1080p") (Some "720p") (Some "1080p") = true /\
     isBetterQuality (Some "2160p") (Some "1080p") (Some "1080p") = true /\
     isBetterQuality (Some "2160p") (Some "1080p") (Some "720p") = false).
Proof. intros [_ [H _]]. vm_compute in H. discriminate H. Qed.

(** C2, amended. [isBetterQuality('1080p','720p','1080p')] is true, while
    [isBetterQuality('2160p','1080p','1080p')] and
    [isBetterQuality('2160p','1080p','720p')] are both false. *)
Theorem isBetterQuality_instances :
  isBetterQuality (Some "1080p") (Some "720p") (Some "1080p") = true /\
  isBetterQuality (Some "2160p") (Some "1080p") (Some "1080p") = false /\
  isBetterQuality (Some "2160p") (Some "1080p") (Some "720p") = false.
Proof. repeat split; reflexivity. Qed.

(** Overshooting the preferred quality is allowed from strictly below it. *)
Example isBetterQuality_overshoot :
  isBetterQuality (Some "2160p") (Some "720p") (Some "1080p") = true.
Proof. reflexivity. Qed.

End Ranking.

Module Extractor.
Import APIManager Aux.

(** C6, as the spec has it, fails: the cleaned title keeps the dots and
    loses the year. *)
Lemma scenario_title_differs :
  Metadata.title (extractMetadataFromFilename scenarioLabel) <> "Movie Title 2023".
Proof. vm_compute. discriminate. Qed.

(** C6, amended. On the label [Movie.Title.2023.1080p.BluRay.x264-GROUP]
    the extraction yields the cleaned title [Movie.Title....-GROUP] (the
    four-digit year and the tags are removed, the dots stay), quality
    [1080p], content type [movie], HDR tier [SDR] and codec [H.264]; the
    size is [Unknown]. *)
Theorem scenario_metadata :
  extractMetadataFromFilename scenarioLabel =
  {| Metadata.magnet := None;
     Metadata.title := "Movie.Title....-GROUP";
     Metadata.quality := Some "1080p";
     Metadata.size := Some "Unknown";
     Metadata.type := "movie";
     Metadata.hdr := Some "SDR";
     Metadata.codec := Some "H.264" |}.
Proof. vm_compute. reflexivity. Qed.

End Extractor.

Module SizeCap.
Import JsNumber APIManager.

Lemma convert_1024_MB : convertSizeToGB (Some "1024 MB") = Finite 1.
Proof. vm_compute. reflexivity. Qed.

Lemma convert_1_GB : convertSizeToGB (Some "1 GB") = Finite 1.
Proof. vm_compute. reflexivity. Qed.

(** C9. [convertSizeToGB("1024 MB")] equals [convertSizeToGB("1 GB")],
    and for any preferences (any [maxSize] cap) a record of size
    ["1024 MB"] and the same record of size ["1 GB"] get the same answer
    from [matchesOtherPreferences]. *)
Theorem size_1024_MB_is_1_GB :
  convertSizeToGB (Some "1024 MB") = convertSizeToGB (Some "1 GB") /\
  forall (m : Metadata.t) (p : Preferences.t),
    matchesOtherPreferences (Metadata.withSize (Some "1024 MB") m) p =
    matchesOtherPreferences (Metadata.withSize (Some "1 GB") m) p.
Proof.
  split.
  - rewrite convert_1024_MB, convert_1_GB. reflexivity.
  - intros m p. unfold matchesOtherPreferences, Metadata.withSize.
    cbn [Metadata.size Metadata.title].
    rewrite convert_1024_MB, convert_1_GB.
    reflexivity.
Qed.

(** A cap that lets both through, and one that rejects both. *)
Example cap_2_GB_passes_both :
  let m sz := Metadata.Make None "X" None (Some sz) "movie" None None in
  let p := Preferences.withMaxSize (Some "2 GB") Preferences.none in
  matchesOtherPreferences (m "1024 MB") p = true /\
  matchesOtherPreferences (m "1 GB") p = true.
Proof. split; vm_compute; reflexivity. Qed.

Example cap_512_MB_rejects_both :
  let m sz := Metadata.Make None "X" None (Some sz) "movie" None None in
  let p := Preferences.withMaxSize (Some "512 MB") Preferences.none in
  matchesOtherPreferences (m "1024 MB") p = false /\
  matchesOtherPreferences (m "1 GB") p = false.
Proof. split; vm_compute; reflexivity. Qed.

End SizeCap.

(** ** Facts about the matcher *)

Module RegexFacts.
Import JsString Regex.

Lemma search_unfold ci r pre s :
  search ci r pre s =
  match matchHere ci r pre s with
  | Some (pre', _, cs) =>
      Some (Found (rev_onto (take (String.length pre' - String.length pre) pre') "") cs)
  | None =>
      match s with
      | EmptyString => None
      | String c s' => search ci r (String c pre) s'
      end
  end.
Proof. destruct s; reflexivity. Qed.

Lemma search_here ci r pre s :
  matchHere ci r pre s <> None -> search ci r pre s <> None.
Proof.
  intros H. rewrite search_unfold.
  destruct (matchHere ci r pre s) as [[[pre' s'] cs] | ]; [discriminate | congruence].
Qed.

Lemma search_later ci r pre c s :
  search ci r (String c pre) s <> None -> search ci r pre (String c s) <> None.
Proof.
  intros H. rewrite search_unfold.
  destruct (matchHere ci r pre (String c s)) as [[[pre' s'] cs] | ];
    [discriminate | exact H].
Qed.

Lemma search_none ci r pre s :
  search ci r pre s = None ->
  matchHere ci r pre s = None /\
  match s with
  | EmptyString => True
  | String c s' => search ci r (String c pre) s' = None
  end.
Proof.
  rewrite search_unfold.
  destruct (matchHere ci r pre s) as [[[pre' s'] cs] | ]; [discriminate | ].
  intros H. split; [reflexivity | ]. destruct s; [exact I | exact H].
Qed.

(** A pattern at least as permissive at every position is at least as
    permissive for the search. *)
Lemma search_weaken ci r1 r2 :
  (forall pre s, matchHere ci r1 pre s <> None -> matchHere ci r2 pre s <> None) ->
  forall s pre, search ci r1 pre s <> None -> search ci r2 pre s <> None.
Proof.
  intros Hw. induction s as [ | c s IH]; intros pre H.
  - apply search_here, Hw. intros Hn. apply H.
    rewrite search_unfold, Hn. reflexivity.
  - destruct (matchHere ci r1 pre (String c s)) as [res | ] eqn:E.
    + apply search_here, Hw. rewrite E. discriminate.
    + apply search_later, IH. rewrite search_unfold, E in H. exact H.
Qed.

Lemma test_true ci r s : test ci r s = true <-> search ci r "" s <> None.
Proof.
  unfold test, exec. destruct (search ci r "" s); split;
    congruence || discriminate.
Qed.

Lemma test_false ci r s : test ci r s = false <-> search ci r "" s = None.
Proof.
  unfold test, exec. destruct (search ci r "" s); split;
    congruence || discriminate.
Qed.

(** Where the pattern matches nowhere, removing its matches changes
    nothing. *)
Lemma removeFrom_no_match ci r :
  forall fuel s pre, search ci r pre s = None -> removeFrom fuel ci r pre s = s.
Proof.
  induction fuel as [ | fuel IH]; intros s pre H; [reflexivity | ].
  apply search_none in H. destruct H as [Hhere Hrest].
  cbn [removeFrom]. rewrite Hhere.
  destruct s as [ | c s]; [reflexivity | ].
  rewrite (IH _ _ Hrest). reflexivity.
Qed.

Lemma removeAll_no_match ci r s : test ci r s = false -> removeAll ci r s = s.
Proof.
  intros H. apply test_false in H. unfold removeAll.
  apply removeFrom_no_match. exact H.
Qed.

(** *** The fuel of the repetition is enough *)

Lemma starLoop_unfold step greedy (k : cont) fuel pre s cs :
  starLoop step greedy k fuel pre s cs =
  if greedy then
    orElse
      match fuel with
      | O => None
      | S fuel' =>
          step pre s cs (fun pre' s' cs' =>
            if (String.length s' <? String.length s)%nat
            then starLoop step greedy k fuel' pre' s' cs' else None)
      end
      (fun _ => k pre s cs)
  else
    orElse (k pre s cs)
      (fun _ =>
         match fuel with
         | O => None
         | S fuel' =>
             step pre s cs (fun pre' s' cs' =>
               if (String.length s' <? String.length s)%nat
               then starLoop step greedy k fuel' pre' s' cs' else None)
         end).
Proof. destruct fuel; reflexivity. Qed.

Section Repetition.

Variable step : string -> string -> captures -> cont -> option result.

Hypothesis step_ext :
  forall pre s cs (k1 k2 : cont),
    (forall pre' s' cs', k1 pre' s' cs' = k2 pre' s' cs') ->
    step pre s cs k1 = step pre s cs k2.

Hypothesis step_fail :
  forall pre s cs, step pre s cs (fun _ _ _ => None) = None.

Lemma starLoop_ext greedy (k1 k2 : cont) :
  (forall pre s cs, k1 pre s cs = k2 pre s cs) ->
  forall fuel pre s cs,
    starLoop step greedy k1 fuel pre s cs = starLoop step greedy k2 fuel pre s cs.
Proof.
  intros Hk. induction fuel as [ | fuel IH]; intros pre s cs; cbn [starLoop].
  - rewrite Hk. reflexivity.
  - rewrite Hk.
    rewrite (step_ext pre s cs
               (fun pre' s' cs' =>
                  if (String.length s' <? String.length s)%nat
                  then starLoop step greedy k1 fuel pre' s' cs' else None)
               (fun pre' s' cs' =>
                  if (String.length s' <? String.length s)%nat
                  then starLoop step greedy k2 fuel pre' s' cs' else None)).
    + reflexivity.
    + intros pre' s' cs'. rewrite IH. reflexivity.
Qed.

Lemma starLoop_fail greedy :
  forall fuel pre s cs, starLoop step greedy (fun _ _ _ => None) fuel pre s cs = None.
Proof.
  induction fuel as [ | fuel IH]; intros pre s cs; cbn [starLoop].
  - destruct greedy; reflexivity.
  - rewrite (step_ext pre s cs _ (fun _ _ _ => None)).
    + rewrite step_fail. destruct greedy; reflexivity.
    + intros pre' s' cs'. rewrite IH.
      destruct (String.length s' <? String.length s)%nat; reflexivity.
Qed.

(** Any two amounts of fuel that cover the subject give the same
    result. *)
Lemma starLoop_fuel greedy (k : cont) :
  forall fuel1 fuel2 pre s cs,
    (String.length s <= fuel1)%nat -> (String.length s <= fuel2)%nat ->
    starLoop step greedy k fuel1 pre s cs = starLoop step greedy k fuel2 pre s cs.
Proof.
  assert (Hshort : forall fuel pre s cs, String.length s = 0%nat ->
            step pre s cs (fun pre' s' cs' =>
              if (String.length s' <? String.length s)%nat
              then starLoop step greedy k fuel pre' s' cs' else None) = None).
  { intros fuel pre s cs H0.
    rewrite (step_ext pre s cs _ (fun _ _ _ => None)); [apply step_fail | ].
    intros pre' s' cs'. rewrite H0. reflexivity. }
  induction fuel1 as [ | fuel1 IH]; intros fuel2 pre s cs H1 H2.
  - destruct fuel2 as [ | fuel2]; [reflexivity | ].
    cbn [starLoop]. rewrite Hshort by lia. reflexivity.
  - destruct fuel2 as [ | fuel2].
    + cbn [starLoop]. rewrite Hshort by lia. reflexivity.
    + cbn [starLoop].
      rewrite (step_ext pre s cs
                 (fun pre' s' cs' =>
                    if (String.length s' <? String.length s)%nat
                    then starLoop step greedy k fuel1 pre' s' cs' else None)
                 (fun pre' s' cs' =>
                    if (String.length s' <? String.length s)%nat
                    then starLoop step greedy k fuel2 pre' s' cs' else None)).
      * reflexivity.
      * intros pre' s' cs'.
        destruct (Nat.ltb_spec (String.length s') (String.length s)); [ | reflexivity].
        apply IH; lia.
Qed.

End Repetition.

Lemma run_ext ci r :
  forall pre s cs (k1 k2 : cont),
    (forall pre' s' cs', k1 pre' s' cs' = k2 pre' s' cs') ->
    run ci r pre s cs k1 = run ci r pre s cs k2.
Proof.
  induction r as [ | c | | | | | r1 IH1 r2 IH2 | r1 IH1 r2 IH2 | g r1 IH1 | n r1 IH1
                 | r1 IH1]; intros pre s cs k1 k2 Hk; cbn [run].
  - apply Hk.
  - unfold one. destruct s as [ | x s]; [reflexivity | ].
    destruct (chrMatches ci c x); [apply Hk | reflexivity].
  - unfold one. destruct s as [ | x s]; [reflexivity | ].
    destruct (negb (isLineTerminator x)); [apply Hk | reflexivity].
  - unfold one. destruct s as [ | x s]; [reflexivity | ].
    destruct (isDigit x); [apply Hk | reflexivity].
  - unfold one. destruct s as [ | x s]; [reflexivity | ].
    destruct (isWhiteSpace x); [apply Hk | reflexivity].
  - destruct (xorb (wordBefore pre) (wordBefore s)); [apply Hk | reflexivity].
  - apply IH1. intros pre' s' cs'. apply IH2. exact Hk.
  - rewrite (IH1 pre s cs k1 k2 Hk), (IH2 pre s cs k1 k2 Hk). reflexivity.
  - apply starLoop_ext; assumption.
  - apply IH1. intros pre' s' cs'. apply Hk.
  - rewrite Hk. reflexivity.
Qed.

Lemma run_fail ci r :
  forall pre s cs, run ci r pre s cs (fun _ _ _ => None) = None.
Proof.
  induction r as [ | c | | | | | r1 IH1 r2 IH2 | r1 IH1 r2 IH2 | g r1 IH1 | n r1 IH1
                 | r1 IH1]; intros pre s cs; cbn [run].
  - reflexivity.
  - unfold one. destruct s as [ | x s]; [reflexivity | ].
    destruct (chrMatches ci c x); reflexivity.
  - unfold one. destruct s as [ | x s]; [reflexivity | ].
    destruct (negb (isLineTerminator x)); reflexivity.
  - unfold one. destruct s as [ | x s]; [reflexivity | ].
    destruct (isDigit x); reflexivity.
  - unfold one. destruct s as [ | x s]; [reflexivity | ].
    destruct (isWhiteSpace x); reflexivity.
  - destruct (xorb (wordBefore pre) (wordBefore s)); reflexivity.
  - rewrite (run_ext ci r1 pre s cs _ (fun _ _ _ => None)); [apply IH1 | ].
    intros pre' s' cs'. apply IH2.
  - rewrite IH1, IH2. reflexivity.
  - apply starLoop_fail; [apply run_ext | exact IH1].
  - apply IH1.
  - destruct (run ci r1 pre s cs accept); reflexivity.
Qed.

(** The repetition satisfies the equation that defines it in the language:
    one more iteration that consumes something, then the repetition again,
    or the continuation; in that order when greedy, in the other when
    lazy. *)
Lemma run_star ci greedy r pre s cs (k : cont) :
  run ci (Star greedy r) pre s cs k =
  let again (_ : unit) :=
    run ci r pre s cs (fun pre' s' cs' =>
      if (String.length s' <? String.length s)%nat
      then run ci (Star greedy r) pre' s' cs' k else None) in
  if greedy then orElse (again tt) (fun _ => k pre s cs)
  else orElse (k pre s cs) again.
Proof.
  cbv zeta. cbn [run].
  assert (E : forall fuel, (String.length s <= fuel)%nat ->
            match fuel with
            | O => None
            | S fuel' =>
                run ci r pre s cs (fun pre' s' cs' =>
                  if (String.length s' <? String.length s)%nat
                  then starLoop (run ci r) greedy k fuel' pre' s' cs' else None)
            end =
            run ci r pre s cs (fun pre' s' cs' =>
              if (String.length s' <? String.length s)%nat
              then starLoop (run ci r) greedy k (String.length s') pre' s' cs'
              else None)).
  { intros fuel Hf. destruct fuel as [ | fuel].
    - rewrite (run_ext ci r pre s cs _ (fun _ _ _ => None)).
      + rewrite run_fail. reflexivity.
      + intros pre' s' cs'.
        destruct (Nat.ltb_spec (String.length s') (String.length s));
          [lia | reflexivity].
    - apply run_ext. intros pre' s' cs'.
      destruct (Nat.ltb_spec (String.length s') (String.length s)); [ | reflexivity].
      apply starLoop_fuel;
        [apply run_ext | apply run_fail | lia | lia]. }
  rewrite starLoop_unfold. rewrite (E _ (le_n _)). reflexivity.
Qed.

(** Likewise for the global replacement: any fuel above the length of the
    subject gives the same text. *)
Lemma removeFrom_fuel ci r :
  forall fuel1 fuel2 pre s,
    (String.length s < fuel1)%nat -> (String.length s < fuel2)%nat ->
    removeFrom fuel1 ci r pre s = removeFrom fuel2 ci r pre s.
Proof.
  induction fuel1 as [ | fuel1 IH]; intros fuel2 pre s H1 H2; [lia | ].
  destruct fuel2 as [ | fuel2]; [lia | ].
  cbn [removeFrom].
  assert (Hstep : match s with
                  | EmptyString => EmptyString
                  | String c s'' => String c (removeFrom fuel1 ci r (String c pre) s'')
                  end =
                  match s with
                  | EmptyString => EmptyString
                  | String c s'' => String c (removeFrom fuel2 ci r (String c pre) s'')
                  end).
  { destruct s as [ | c s'']; [reflexivity | ].
    cbn [String.length] in H1, H2. f_equal. apply IH; lia. }
  destruct (matchHere ci r pre s) as [[[pre' s'] cs] | ]; [ | exact Hstep].
  destruct (Nat.ltb_spec (String.length s') (String.length s)); [ | exact Hstep].
  apply IH; lia.
Qed.

(** *** Trimming *)

Lemma trimEnd_idempotent s : trimEnd (trimEnd s) = trimEnd s.
Proof.
  induction s as [ | c s IH]; [reflexivity | ].
  cbn [trimEnd]. destruct (trimEnd s) as [ | d r] eqn:E.
  - destruct (isWhiteSpace c) eqn:W; [reflexivity | ].
    cbn [trimEnd]. rewrite W. reflexivity.
  - change (trimEnd (String c (String d r)))
      with (match trimEnd (String d r) with
            | EmptyString =>
                if isWhiteSpace c then EmptyString else String c EmptyString
            | String _ _ as r0 => String c r0
            end).
    rewrite IH. reflexivity.
Qed.

Lemma trimStart_head s :
  trimStart s = "" \/
  exists c r, trimStart s = String c r /\ isWhiteSpace c = false.
Proof.
  induction s as [ | c s IH]; [left; reflexivity | ].
  cbn [trimStart]. destruct (isWhiteSpace c) eqn:W; [exact IH | ].
  right. exists c, s. split; [reflexivity | exact W].
Qed.

Lemma trimEnd_keeps_head c r :
  isWhiteSpace c = false -> exists r', trimEnd (String c r) = String c r'.
Proof.
  intros W. cbn [trimEnd]. destruct (trimEnd r) as [ | d r'].
  - rewrite W. exists "". reflexivity.
  - exists (String d r'). reflexivity.
Qed.

Lemma trim_idempotent s : trim (trim s) = trim s.
Proof.
  unfold trim. destruct (trimStart_head s) as [E | [c [r [E W]]]]; rewrite E.
  - reflexivity.
  - destruct (@trimEnd_keeps_head c r W) as [r' E'].
    assert (Hs : trimStart (trimEnd (String c r)) = trimEnd (String c r)).
    { rewrite E'. cbn [trimStart]. rewrite W. reflexivity. }
    rewrite Hs. apply trimEnd_idempotent.
Qed.

End RegexFacts.

Module Cleaning.
Import JsString Regex APIManager Aux RegexFacts.

(** C5, as the spec has it, fails: removing a tag can join the digits
    around it into a four-digit run, which the next cleaning removes. *)
Lemma cleanTitle_not_idempotent :
  cleanTitle (cleanTitle "12WEBRip34") <> cleanTitle "12WEBRip34".
Proof. vm_compute. discriminate. Qed.

Example cleanTitle_joins_tag :
  cleanTitle "HEHEVCVC" = "HEVC" /\ cleanTitle "HEVC" = "".
Proof. split; vm_compute; reflexivity. Qed.

(** C5, amended. Cleaning is stable once nothing removable is left:
    whenever [cleanTitle(t)] contains no bracketed or parenthesized group,
    no run of four digits, no source tag and no codec tag,
    [cleanTitle(cleanTitle(t))] equals [cleanTitle(t)]. *)
Theorem cleanTitle_stable (t : string) :
  removable (cleanTitle t) = false ->
  cleanTitle (cleanTitle t) = cleanTitle t.
Proof.
  intros H. unfold removable in H.
  repeat (apply orb_false_iff in H; destruct H as [H ?]).
  unfold cleanTitle at 1.
  rewrite (@removeAll_no_match false reBracketed (cleanTitle t)) by assumption.
  rewrite (@removeAll_no_match false reParenthesized (cleanTitle t)) by assumption.
  rewrite (@removeAll_no_match false reFourDigits (cleanTitle t)) by assumption.
  rewrite (@removeAll_no_match true reSourceTag (cleanTitle t)) by assumption.
  rewrite (@removeAll_no_match true reCodecTag (cleanTitle t)) by assumption.
  unfold cleanTitle. apply trim_idempotent.
Qed.

Lemma cleanTitle_stable_witness :
  cleanTitle (cleanTitle scenarioLabel) = cleanTitle scenarioLabel.
Proof. apply (cleanTitle_stable scenarioLabel). vm_compute. reflexivity. Defined.

End Cleaning.

Module Hdr.
Import JsString Regex APIManager Aux RegexFacts.

Lemma lower_d_matches (a : ascii) :
  Ascii.eqb "d" (lowerChar a) = true -> chrMatches true "d" a = true.
Proof.
  destruct a as [[] [] [] [] [] [] [] []]; vm_compute; intros H;
    first [reflexivity | discriminate H].
Qed.

Lemma lower_v_matches (a : ascii) :
  Ascii.eqb "v" (lowerChar a) = true -> chrMatches true "v" a = true.
Proof.
  destruct a as [[] [] [] [] [] [] [] []]; vm_compute; intros H;
    first [reflexivity | discriminate H].
Qed.

Lemma dv_here (pre s : string) :
  startsWith (toLowerCase s) "dv" = true ->
  matchHere true reDolbyVision pre s <> None.
Proof.
  intros H. destruct s as [ | a [ | b rest]];
    cbn [toLowerCase startsWith] in H; try discriminate H.
  { apply andb_true_iff in H. destruct H as [_ H]. discriminate H. }
  apply andb_true_iff in H. destruct H as [Ha H].
  apply andb_true_iff in H. destruct H as [Hb _].
  apply lower_d_matches in Ha. apply lower_v_matches in Hb.
  unfold matchHere, reDolbyVision.
  cbn [run]. unfold orElse.
  match goal with |- match ?x with _ => _ end <> None => destruct x end;
    [discriminate | ].
  cbn [Lit run]. unfold one. rewrite Ha, Hb. discriminate.
Qed.

Lemma dv_found :
  forall s pre, includes (toLowerCase s) "dv" = true ->
                search true reDolbyVision pre s <> None.
Proof.
  induction s as [ | c s IH]; intros pre H; [discriminate H | ].
  cbn [toLowerCase includes] in H.
  apply orb_true_iff in H. destruct H as [H | H].
  - apply search_here, dv_here. exact H.
  - apply search_later, IH. exact H.
Qed.

(** C10. Any label that contains the two letters [dv], in any letter
    case, is classified as [Dolby Vision], whether or not it carries any
    HDR information; the DVD rip [Movie.2023.DVDRip.x264] is one. *)
Theorem extractHDRInfo_dv (label : string) :
  includes (toLowerCase label) "dv" = true ->
  extractHDRInfo label = "Dolby Vision".
Proof.
  intros H. unfold extractHDRInfo.
  assert (T : test true reDolbyVision label = true).
  { apply test_true, dv_found, H. }
  rewrite T. reflexivity.
Qed.

Lemma extractHDRInfo_dv_witness :
  extractHDRInfo "Movie.2023.DVDRip.x264" = "Dolby Vision".
Proof. apply (extractHDRInfo_dv "Movie.2023.DVDRip.x264"). vm_compute. reflexivity. Defined.

End Hdr.

Module Matching.
Import JsString Regex APIManager Aux.

Lemma hdr_content_rejected (m : Metadata.t) (p : Preferences.t) (h : string) :
  Metadata.hdr m = Some h -> h <> "" -> h <> "SDR" ->
  Preferences.hdrPreference p = Some "sdr-only" ->
  matchesPreferences m p = false.
Proof.
  intros Hh Hne Hsdr Hp. unfold matchesPreferences.
  rewrite Hh, Hp. unfold truthy, optIs.
  apply String.eqb_neq in Hne. apply String.eqb_neq in Hsdr.
  rewrite Hne, Hsdr. reflexivity.
Qed.

Lemma tier_not_empty (h : string) : In h Notions.hdrTiers -> h <> "".
Proof.
  unfold Notions.hdrTiers. cbn [In].
  intros [E | [E | [E | [E | [E | []]]]]]; subst h; discriminate.
Qed.

(** Every record [extractMetadataFromFilename] builds carries one of the
    tiers. *)
Lemma extracted_hdr_is_tier (filename : string) :
  exists h, Metadata.hdr (extractMetadataFromFilename filename) = Some h /\
            In h Notions.hdrTiers.
Proof.
  exists (extractHDRInfo filename). split; [reflexivity | ].
  unfold extractHDRInfo, Notions.hdrTiers. cbv zeta. cbn [In].
  repeat match goal with
         | |- context [if ?b then _ else _] => destruct b
         end; tauto.
Qed.

(** C7. For every metadata record whose [hdr] field, one of the tiers of
    [extractHDRInfo], is not ['SDR'], and every preferences object whose
    [hdrPreference] is ['sdr-only'], [matchesPreferences] returns false,
    whatever the record's [size] and the preferences' [maxSize] are: the
    size-cap clause is not reached. *)
Theorem sdr_only_rejects_hdr (m : Metadata.t) (p : Preferences.t) (h : string) :
  Metadata.hdr m = Some h -> In h Notions.hdrTiers -> h <> "SDR" ->
  Preferences.hdrPreference p = Some "sdr-only" ->
  matchesPreferences m p = false /\
  forall (sz mx : option string),
    matchesPreferences (Metadata.withSize sz m) (Preferences.withMaxSize mx p) = false.
Proof.
  intros Hh Htier Hsdr Hp. pose proof (@tier_not_empty h Htier) as Hne. split.
  - exact (hdr_content_rejected m p Hh Hne Hsdr Hp).
  - intros sz mx.
    apply (@hdr_content_rejected (Metadata.withSize sz m)
             (Preferences.withMaxSize mx p) h); assumption.
Qed.

Lemma sdr_only_rejects_hdr_witness :
  let m := extractMetadataFromFilename "Movie.2023.2160p.HDR10.x265 8 GB" in
  matchesPreferences m sdrOnly = false /\
  forall (sz mx : option string),
    matchesPreferences (Metadata.withSize sz m) (Preferences.withMaxSize mx sdrOnly) = false.
Proof.
  apply (@sdr_only_rejects_hdr
           (extractMetadataFromFilename "Movie.2023.2160p.HDR10.x265 8 GB")
           sdrOnly "HDR10").
  - vm_compute. reflexivity.
  - right. right. left. reflexivity.
  - discriminate.
  - reflexivity.
Defined.

End Matching.

Module Shows.
Import JsString Regex APIManager Aux RegexFacts.

(** Wherever the individual-episode pattern matches, the season pattern
    of the first test matches too. *)
Lemma episode_is_seasonish_here (pre s : string) :
  matchHere true reEpisode pre s <> None ->
  matchHere true reSeasonish pre s <> None.
Proof.
  unfold matchHere, reEpisode, reSeasonish. intros H.
  cbn [Alts run]. unfold orElse.
  match goal with |- match ?x with _ => _ end <> None => destruct x end;
    [discriminate | ].
  match goal with |- match ?x with _ => _ end <> None => destruct x end;
    [discriminate | ].
  cbn [Seqs run] in H |- *.
  destruct s as [ | a [ | b [ | c rest]]]; unfold one in H |- *;
    try (exfalso; apply H; reflexivity).
  - destruct (chrMatches true "s" a); exfalso; apply H; reflexivity.
  - destruct (chrMatches true "s" a); [ | exfalso; apply H; reflexivity].
    destruct (isDigit b); exfalso; apply H; reflexivity.
  - destruct (chrMatches true "s" a); [ | exfalso; apply H; reflexivity].
    destruct (isDigit b); [ | exfalso; apply H; reflexivity].
    destruct (isDigit c); [ | exfalso; apply H; reflexivity].
    discriminate.
Qed.

Lemma episode_is_seasonish (title : string) :
  test true reEpisode title = true -> test true reSeasonish title = true.
Proof.
  intros H. apply test_true. apply test_true in H.
  revert H. apply search_weaken. exact episode_is_seasonish_here.
Qed.

(** So the branch that skips individual episodes is never taken: the
    filter of [findBestQualityMatchForShow] is [matchesPreferences],
    whether [completeSeasons] is set or not. *)
Lemma showFilter_ignores_completeSeasons (p : Preferences.t) (m : Metadata.t) :
  showFilter p m = matchesPreferences m p.
Proof.
  unfold showFilter. destruct (matchesPreferences m p); [ | reflexivity].
  cbn [negb]. destruct (Preferences.completeSeasons p); [ | reflexivity].
  destruct (test true reSeasonish (Metadata.title m)) eqn:S; [reflexivity | ].
  destruct (test true reEpisode (Metadata.title m)) eqn:E; [ | reflexivity].
  apply episode_is_seasonish in E. congruence.
Qed.

(** An individual-episode title lands in an individual-episode group. *)
Lemma episode_has_season_here (pre s : string) :
  matchHere true reEpisode pre s <> None ->
  matchHere true reSeasonNum pre s <> None.
Proof.
  unfold matchHere, reEpisode, reSeasonNum. cbn [Seqs run]. intros H.
  destruct s as [ | a [ | b [ | c rest]]]; unfold one in H |- *;
    repeat (match type of H with context [if ?t then _ else _] => destruct t end);
    try (exfalso; apply H; reflexivity); discriminate.
Qed.

Lemma episode_has_number_here (pre s : string) :
  matchHere true reEpisode pre s <> None ->
  matchHere true reEpisodeNum pre s <> None.
Proof.
  unfold matchHere, reEpisode, reEpisodeNum. cbn [Seqs run]. intros H.
  destruct s as [ | a [ | b [ | c [ | d [ | e [ | f rest]]]]]]; unfold one in H |- *;
    repeat (match type of H with context [if ?t then _ else _] => destruct t end);
    try (exfalso; apply H; reflexivity); discriminate.
Qed.

Lemma episode_grouped_individual (title : string) :
  test true reEpisode title = true ->
  exists seasonNum,
    seasonGroupKey title = cleanTitle title ++ "_S" ++ seasonNum ++ "_Individual".
Proof.
  intros H. apply test_true in H. unfold seasonGroupKey, exec.
  pose proof (@search_weaken true reEpisode reSeasonNum episode_has_season_here _ _ H) as Hs.
  pose proof (@search_weaken true reEpisode reEpisodeNum episode_has_number_here _ _ H) as He.
  destruct (search true reSeasonNum "" title) as [seasonMatch | ]; [ | congruence].
  destruct (search true reEpisodeNum "" title) as [episodeMatch | ]; [ | congruence].
  exists (groupText 1 seasonMatch). reflexivity.
Qed.

(** A run: with [completeSeasons] set, the individual episode
    [Show.S01E02.1080p] stays in the filtered candidates next to the
    season pack, and both are selected, each in its own group. *)
Example completeSeasons_keeps_episode :
  Preferences.completeSeasons completeSeasons1080 = true /\
  test true reEpisode (Metadata.title singleEpisode) = true /\
  filter (showFilter completeSeasons1080) [seasonPack; singleEpisode]
    = [seasonPack; singleEpisode] /\
  groupShowsBySeasonStructure [seasonPack; singleEpisode]
    = [("Show.S01.Complete._S01_Pack", [seasonPack]);
       ("Show.S01E02._S01_Individual", [singleEpisode])] /\
  selectBestForShow [seasonPack; singleEpisode] completeSeasons1080
    = [seasonPack; singleEpisode].
Proof. repeat split; vm_compute; reflexivity. Qed.


Lemma lastChar_app (s t : string) :
  t <> "" -> Notions.lastChar (s ++ t) = Notions.lastChar t.
Proof.
  intros H. induction s as [ | c s IH]; [reflexivity | ].
  cbn [append Notions.lastChar]. rewrite <- IH.
  destruct (s ++ t) eqn:E; [ | reflexivity].
  destruct s; cbn in E; [contradiction | discriminate E].
Qed.

Lemma key_last (a g suffix : string) :
  suffix <> "" ->
  Notions.lastChar (a ++ "_S" ++ g ++ suffix) = Notions.lastChar suffix.
Proof.
  intros H.
  rewrite lastChar_app by (cbn; discriminate).
  rewrite (@lastChar_app "_S") by (destruct g; cbn; [exact H | discriminate]).
  apply lastChar_app, H.
Qed.

(** The titles of the individual-episode groups are those whose group key
    ends in [_Individual]. *)
Lemma individual_group_key (title : string) :
  Notions.inIndividualGroup title = true <->
  exists seasonNum,
    seasonGroupKey title = cleanTitle title ++ "_S" ++ seasonNum ++ "_Individual".
Proof.
  unfold Notions.inIndividualGroup, seasonGroupKey.
  destruct (exec true reSeasonNum title) as [seasonMatch | ].
  - destruct (exec true reEpisodeNum title) as [episodeMatch | ].
    + split; [intros _; eexists; reflexivity | reflexivity].
    + split; [discriminate | ]. intros [n E]. exfalso.
      apply (f_equal Notions.lastChar) in E.
      rewrite !key_last in E by discriminate. discriminate E.
  - split; [discriminate | ]. intros [n E]. exfalso.
    apply (f_equal Notions.lastChar) in E.
    rewrite key_last in E by discriminate.
    rewrite lastChar_app in E by discriminate. discriminate E.
Qed.



End Shows.

Module Scanning.
Import JsString APIManager Scanner.

Section AnyCollaborators.

Variable World : Type.
Variable getRealDebridTorrents : string -> World -> reply (list Torrent.t) * World.
Variable addMagnetToRealDebrid : string -> option string -> World -> reply unit * World.
Variable deleteRealDebridTorrent : string -> string -> World -> bool * World.
Variable findAllMatchingContent :
  string -> string -> World -> outcome (list Metadata.t) * World.

Local Notation scan1 :=
  (checkForQualityUpgrades_1 getRealDebridTorrents addMagnetToRealDebrid
     deleteRealDebridTorrent findAllMatchingContent).
Local Notation scan2 :=
  (checkForQualityUpgrades getRealDebridTorrents addMagnetToRealDebrid
     deleteRealDebridTorrent findAllMatchingContent).
Local Notation check :=
  (checkTorrent addMagnetToRealDebrid deleteRealDebridTorrent findAllMatchingContent).
Local Notation submit :=
  (submitUpgrade addMagnetToRealDebrid deleteRealDebridTorrent).

Lemma filterByContentType_falsy (contentType : option string) (ts : list Torrent.t) :
  truthy contentType = false -> filterByContentType contentType ts = ts.
Proof. intros H. unfold filterByContentType. rewrite H. reflexivity. Qed.

(** C3, amended. When the third argument is absent, [null] or empty,
    the two definitions of [checkForQualityUpgrades] agree: from any
    state and for any behaviour of the collaborators they return the
    same report after the same calls, leaving the same world. *)
Theorem checkForQualityUpgrades_agree (rdApiKey : string)
    (preferences : Preferences.t) (contentType : option string)
    (st : store World) :
  truthy contentType = false ->
  scan2 rdApiKey preferences contentType st = scan1 rdApiKey preferences st.
Proof.
  intros H. unfold checkForQualityUpgrades, checkForQualityUpgrades_1.
  unfold bind, tryCatch.
  destruct (update (fun _ => emptyResults) st) as [[[] | msg] st0]; [ | reflexivity].
  destruct (perform (GetRealDebridTorrents rdApiKey)
              (getRealDebridTorrents rdApiKey) st0) as [[torrentsResult | msg] st1];
    [ | reflexivity].
  destruct torrentsResult as [currentTorrents | err]; [ | reflexivity].
  rewrite (filterByContentType_falsy _ currentTorrents H). reflexivity.
Qed.

(** *** How exceptions travel *)










End AnyCollaborators.

(** *** Runs with concrete collaborators *)

Import Demo.

(** C3, as the spec has it, fails: given the content type ['movie'], the
    second definition leaves a held episode out (nothing checked, no
    search), while the first one counts and searches it. *)
Lemma checkForQualityUpgrades_differ :
  checkForQualityUpgrades (holding [heldEpisode]) addSucceeds deleteSucceeds
    (searchFinds []) "key" upgradeTo1080 (Some "movie") (start 0)
  <>
  checkForQualityUpgrades_1 (holding [heldEpisode]) addSucceeds deleteSucceeds
    (searchFinds []) "key" upgradeTo1080 (start 0).
Proof. vm_compute. discriminate. Qed.

Example checkForQualityUpgrades_differ_runs :
  fst (checkForQualityUpgrades (holding [heldEpisode]) addSucceeds deleteSucceeds
         (searchFinds []) "key" upgradeTo1080 (Some "movie") (start 0))
  = Returned {| checkedTorrents := 0; upgradesFound := 0; upgradesAdded := 0;
                errors := [] |} /\
  fst (checkForQualityUpgrades_1 (holding [heldEpisode]) addSucceeds deleteSucceeds
         (searchFinds []) "key" upgradeTo1080 (start 0))
  = Returned {| checkedTorrents := 1; upgradesFound := 0; upgradesAdded := 0;
                errors := [] |}.
Proof. split; vm_compute; reflexivity. Qed.

Lemma checkForQualityUpgrades_agree_witness :
  checkForQualityUpgrades (holding [heldEpisode; heldMovieA]) addSucceeds deleteSucceeds
    (searchFinds [betterMovieA]) "key" upgradeTo1080 None (start 0)
  =
  checkForQualityUpgrades_1 (holding [heldEpisode; heldMovieA]) addSucceeds
    deleteSucceeds (searchFinds [betterMovieA]) "key" upgradeTo1080 (start 0).
Proof.
  apply (@checkForQualityUpgrades_agree World (holding [heldEpisode; heldMovieA])
           addSucceeds deleteSucceeds (searchFinds [betterMovieA]) "key"
           upgradeTo1080 None (start 0)).
  reflexivity.
Defined.


(** A refused submission, by contrast, does not stop the scan: both held
    movies are searched and both refusals are reported. *)
Example scan_goes_on_after_refusal :
  let run := checkForQualityUpgrades (holding [heldMovieA; heldMovieB]) addFails
               deleteSucceeds (searchFinds [betterMovieA]) "key" upgradeTo1080 None
               (start 0) in
  fst run = Returned {| checkedTorrents := 2; upgradesFound := 2; upgradesAdded := 0;
                        errors := ["Failed to upgrade Movie.A.720p: Failed to add magnet";
                                   "Failed to upgrade Movie.B.720p: Failed to add magnet"] |}
  /\ calls (snd run) =
     [GetRealDebridTorrents "key";
      FindAllMatchingContent "Movie.A.720p" "movie";
      AddMagnetToRealDebrid "key" (Some "magnet:?xt=urn:btih:ee");
      FindAllMatchingContent "Movie.B.720p" "movie";
      AddMagnetToRealDebrid "key" (Some "magnet:?xt=urn:btih:ee")].
Proof. cbv zeta. split; vm_compute; reflexivity. Qed.


End Scanning.


(** * Further properties of the code *)

Module RankOrder.
Import JsString APIManager Notions.

Lemma getQualityRank_bound_low (q : option string) : (-1 <= getQualityRank q)%Z.
Proof.
  unfold getQualityRank. destruct q as [s | ]; [ | lia].
  repeat match goal with
         | |- context [if ?b then _ else _] => destruct b
         end; lia.
Qed.

Lemma getQualityRank_unknown (q : option string) :
  noQuality q -> getQualityRank q = (-1)%Z.
Proof. intros [H | [H | H]]; subst q; reflexivity. Qed.

(** X1. A rank is an integer from -1 to 5, and it is -1 exactly for a
    quality that is undefined, empty or ['Unknown']. *)
Theorem getQualityRank_range (q : option string) :
  (-1 <= getQualityRank q <= 5)%Z /\
  (getQualityRank q = (-1)%Z <-> noQuality q).
Proof.
  unfold getQualityRank, noQuality. destruct q as [s | ].
  - destruct (String.eqb_spec s "") as [E1 | N1].
    + subst s. cbn [orb]. split; [lia | ]. split; [intros _ | reflexivity].
      right. left. reflexivity.
    + destruct (String.eqb_spec s "Unknown") as [E2 | N2].
      * subst s. cbn [orb]. split; [lia | ]. split; [intros _ | reflexivity].
        right. right. reflexivity.
      * cbn [orb].
        assert (Hne : ~ (Some s = None \/ Some s = Some "" \/ Some s = Some "Unknown")).
        { intros [H | [H | H]]; [discriminate H | | ]; inversion H; contradiction. }
        repeat match goal with
               | |- context [if ?b then _ else _] => destruct b
               end; (split; [lia | split; [intros H; discriminate H | intros H; tauto]]).
  - split; [lia | ]. split; [intros _; left | ]; reflexivity.
Qed.

(** X2. For a fixed preferred quality, being a better quality is a strict
    order on qualities: nothing is better than itself, and better than
    better is better. *)
Theorem isBetterQuality_strict_order (p : option string) :
  (forall q, isBetterQuality q q p = false) /\
  (forall a b c, isBetterQuality a b p = true -> isBetterQuality b c p = true ->
                 isBetterQuality a c p = true).
Proof.
  split.
  - intros q. unfold isBetterQuality.
    destruct (Z.gtb_spec (getQualityRank q) (getQualityRank q)); [lia | reflexivity].
  - intros a b c. unfold isBetterQuality.
    generalize (getQualityRank a) (getQualityRank b) (getQualityRank c)
      (getQualityRank p). intros ra rb rc rp.
    destruct (Z.gtb_spec ra rb); [ | discriminate].
    destruct (Z.gtb_spec rb rc); [ | discriminate].
    destruct (Z.gtb_spec ra rc); [ | lia].
    rewrite !orb_true_iff, !Z.ltb_lt, !Z.leb_le. lia.
Qed.

Lemma isBetterQuality_strict_order_witness :
  isBetterQuality (Some "2160p") (Some "720p") (Some "2160p") = true.
Proof.
  apply (proj2 (isBetterQuality_strict_order (Some "2160p"))
           (Some "2160p") (Some "1080p") (Some "720p")); reflexivity.
Defined.

(** X3. Without a preferred quality (undefined, empty or ['Unknown'])
    nothing counts as a better quality; and a new quality that is itself
    unknown is never better, whatever is preferred. *)
Theorem isBetterQuality_needs_known (n c p : option string) :
  noQuality p \/ noQuality n -> isBetterQuality n c p = false.
Proof.
  intros H. unfold isBetterQuality.
  pose proof (getQualityRank_bound_low n) as Hn.
  pose proof (getQualityRank_bound_low c) as Hc.
  destruct H as [H | H]; apply getQualityRank_unknown in H.
  - rewrite H. destruct (Z.gtb_spec (getQualityRank n) (getQualityRank c));
      [ | reflexivity].
    apply orb_false_iff. split; [apply Z.ltb_ge | apply Z.leb_gt]; lia.
  - rewrite H. destruct (Z.gtb_spec (-1) (getQualityRank c)); [lia | reflexivity].
Qed.

Lemma isBetterQuality_needs_known_witness :
  isBetterQuality (Some "2160p") (Some "720p") None = false.
Proof.
  apply isBetterQuality_needs_known. left. left. reflexivity.
Defined.

End RankOrder.

Module Sorting.
Import JsString APIManager Notions.

Lemma insertByRank_perm (x : Metadata.t) (l : list Metadata.t) :
  Permutation (x :: l) (insertByRank x l).
Proof.
  induction l as [ | y ys IH]; cbn [insertByRank]; [reflexivity | ].
  destruct (getQualityRank (Metadata.quality y) >? getQualityRank (Metadata.quality x))%Z.
  - rewrite perm_swap. apply perm_skip. exact IH.
  - reflexivity.
Qed.

Lemma sortByRank_perm (l : list Metadata.t) : Permutation l (sortByRank l).
Proof.
  induction l as [ | x l IH]; [reflexivity | ].
  cbn [sortByRank fold_right]. rewrite <- insertByRank_perm.
  apply perm_skip. exact IH.
Qed.

Lemma insertByRank_bestFirst (x : Metadata.t) (l : list Metadata.t) :
  bestFirst l -> bestFirst (insertByRank x l).
Proof.
  unfold bestFirst. induction 1 as [ | y ys Hs IH Hall]; cbn [insertByRank].
  - constructor; constructor.
  - fold (rankOf y). fold (rankOf x).
    destruct (Z.gtb_spec (rankOf y) (rankOf x)) as [Hgt | Hle].
    + constructor; [exact IH | ].
      apply (Permutation_Forall (insertByRank_perm x ys)).
      constructor; [lia | exact Hall].
    + constructor; [constructor; assumption | ].
      constructor; [exact Hle | ].
      revert Hall. apply Forall_impl. intros b Hb. lia.
Qed.

Lemma sortByRank_bestFirst (l : list Metadata.t) : bestFirst (sortByRank l).
Proof.
  induction l as [ | x l IH]; [constructor | ].
  cbn [sortByRank fold_right]. apply insertByRank_bestFirst. exact IH.
Qed.

Lemma ofRank_insert (r : Z) (x : Metadata.t) (l : list Metadata.t) :
  ofRank r (insertByRank x l) = ofRank r (x :: l).
Proof.
  unfold ofRank. induction l as [ | y ys IH]; cbn [insertByRank]; [reflexivity | ].
  fold (rankOf y). fold (rankOf x).
  destruct (Z.gtb_spec (rankOf y) (rankOf x)) as [Hgt | Hle]; [ | reflexivity].
  cbn [filter] in IH |- *. rewrite IH.
  destruct (Z.eqb_spec (rankOf y) r), (Z.eqb_spec (rankOf x) r);
    try reflexivity; lia.
Qed.

Lemma ofRank_sort (r : Z) (l : list Metadata.t) : ofRank r (sortByRank l) = ofRank r l.
Proof.
  induction l as [ | x l IH]; [reflexivity | ].
  cbn [sortByRank fold_right]. rewrite ofRank_insert.
  unfold ofRank in IH |- *. cbn [filter]. fold (sortByRank l). rewrite IH. reflexivity.
Qed.

(** X4. Sorting by rank rearranges the candidates, puts the best rank
    first, and keeps candidates of equal rank in their original order (the
    sort is stable). *)
Theorem sortByRank_stable_sort (ms : list Metadata.t) :
  Permutation ms (sortByRank ms) /\
  bestFirst (sortByRank ms) /\
  forall r, ofRank r (sortByRank ms) = ofRank r ms.
Proof.
  split; [apply sortByRank_perm | ].
  split; [apply sortByRank_bestFirst | ].
  intros r. apply ofRank_sort.
Qed.

End Sorting.

Module Selecting.
Import JsString APIManager Notions Sorting.

Lemma find_first {A : Type} (P : A -> bool) (l : list A) (m : A) :
  find P l = Some m ->
  exists l1 l2, l = (l1 ++ m :: l2)%list /\ P m = true /\
                forall x, In x l1 -> P x = false.
Proof.
  induction l as [ | y l IH]; cbn [find]; [discriminate | ].
  destruct (P y) eqn:Py.
  - intros H. inversion H. subst y. exists [], l.
    split; [reflexivity | ]. split; [exact Py | intros x []].
  - intros H. destruct (IH H) as [l1 [l2 [E [Pm Hl1]]]].
    exists (y :: l1), l2. split; [rewrite E; reflexivity | ].
    split; [exact Pm | ]. intros x [Hx | Hx]; [subst x; exact Py | apply Hl1, Hx].
Qed.

Lemma find_none_all {A : Type} (P : A -> bool) (l : list A) :
  find P l = None -> forall x, In x l -> P x = false.
Proof. intros H x Hx. exact (find_none P l H x Hx). Qed.

Lemma withinPreferred_iff (r pref : Z) :
  (r =? pref)%Z || (r <=? pref)%Z = true <-> (r <= pref)%Z.
Proof. rewrite orb_true_iff, Z.eqb_eq, Z.leb_le. lia. Qed.

Lemma withinPreferred_not (r pref : Z) :
  (r =? pref)%Z || (r <=? pref)%Z = false <-> (pref < r)%Z.
Proof. rewrite orb_false_iff, Z.eqb_neq, Z.leb_gt. lia. Qed.

Lemma bestFirst_after (l1 l2 : list Metadata.t) (m m' : Metadata.t) :
  bestFirst (l1 ++ m :: l2) -> In m' (m :: l2) -> (rankOf m' <= rankOf m)%Z.
Proof.
  unfold bestFirst. induction l1 as [ | y l1 IH]; cbn [app]; intros Hs Hin.
  - destruct Hin as [E | Hin]; [subst m'; lia | ].
    apply StronglySorted_inv in Hs. destruct Hs as [_ Hall].
    rewrite Forall_forall in Hall. apply Hall, Hin.
  - apply StronglySorted_inv in Hs. destruct Hs as [Hs _]. exact (IH Hs Hin).
Qed.

Lemma bestOfGroup_some (p : Preferences.t) (ms : list Metadata.t) (m : Metadata.t) :
  bestOfGroup p ms = Some m ->
  In m ms /\
  (((rankOf m <= preferredRankOf p)%Z /\
    forall m', In m' ms -> (rankOf m' <= preferredRankOf p)%Z ->
               (rankOf m' <= rankOf m)%Z) \/
   (Preferences.allowHigherQuality p = true /\
    forall m', In m' ms -> (preferredRankOf p < rankOf m' <= rankOf m)%Z)).
Proof.
  unfold bestOfGroup. cbv zeta.
  fold (preferredRankOf p).
  pose proof (sortByRank_perm ms) as Hperm.
  pose proof (sortByRank_bestFirst ms) as Hsorted.
  destruct (find _ (sortByRank ms)) as [m0 | ] eqn:F.
  - intros H. inversion H. subst m0. clear H.
    apply find_first in F. destruct F as [l1 [l2 [E [Pm Hl1]]]].
    fold (rankOf m) in Pm. apply withinPreferred_iff in Pm.
    split.
    + apply (Permutation_in _ (Permutation_sym Hperm)).
      rewrite E. apply in_or_app. right. left. reflexivity.
    + left. split; [exact Pm | ]. intros m' Hin Hle.
      apply (Permutation_in _ Hperm) in Hin. rewrite E in Hin, Hsorted.
      apply in_app_or in Hin. destruct Hin as [Hin | Hin].
      * apply Hl1 in Hin. fold (rankOf m') in Hin.
        apply withinPreferred_not in Hin. lia.
      * exact (@bestFirst_after l1 l2 m m' Hsorted Hin).
  - destruct (Preferences.allowHigherQuality p); [ | discriminate].
    destruct (sortByRank ms) as [ | m0 rest] eqn:E; cbn [hd_error]; [discriminate | ].
    intros H. inversion H. subst m0. clear H.
    split.
    + apply (Permutation_in _ (Permutation_sym Hperm)). left. reflexivity.
    + right. split; [reflexivity | ]. intros m' Hin.
      apply (Permutation_in _ Hperm) in Hin.
      pose proof (find_none_all _ _ F m' Hin) as Hn.
      fold (rankOf m') in Hn. apply withinPreferred_not in Hn.
      split; [exact Hn | ].
      exact (@bestFirst_after [] rest m m' Hsorted Hin).
Qed.

Lemma bestOfGroup_none (p : Preferences.t) (ms : list Metadata.t) :
  bestOfGroup p ms = None <->
  ms = [] \/
  (Preferences.allowHigherQuality p = false /\
   forall m', In m' ms -> (preferredRankOf p < rankOf m')%Z).
Proof.
  unfold bestOfGroup. cbv zeta. fold (preferredRankOf p).
  pose proof (sortByRank_perm ms) as Hperm.
  destruct (find _ (sortByRank ms)) as [m0 | ] eqn:F.
  - split; [discriminate | ]. intros H. exfalso.
    apply find_first in F. destruct F as [l1 [l2 [E [Pm _]]]].
    fold (rankOf m0) in Pm. apply withinPreferred_iff in Pm.
    assert (Hin : In m0 ms).
    { apply (Permutation_in _ (Permutation_sym Hperm)). rewrite E.
      apply in_or_app. right. left. reflexivity. }
    destruct H as [H | [_ H]]; [subst ms; destruct Hin | ].
    specialize (H m0 Hin). lia.
  - assert (Hall : forall m', In m' ms -> (preferredRankOf p < rankOf m')%Z).
    { intros m' Hin. apply (Permutation_in _ Hperm) in Hin.
      pose proof (find_none_all _ _ F m' Hin) as Hn.
      fold (rankOf m') in Hn. apply withinPreferred_not in Hn. exact Hn. }
    destruct (Preferences.allowHigherQuality p).
    + destruct (sortByRank ms) as [ | m0 rest] eqn:E; cbn [hd_error].
      * split; [intros _; left | reflexivity].
        apply Permutation_sym, Permutation_nil in Hperm. exact Hperm.
      * split; [discriminate | ]. intros [H | [H _]]; [ | discriminate H].
        subst ms. apply Permutation_nil in Hperm. discriminate Hperm.
    + split; [ | reflexivity]. intros _.
      destruct ms as [ | m1 ms']; [left; reflexivity | right].
      split; [reflexivity | exact Hall].
Qed.

(** X5. The choice inside a group.  The chosen candidate is a member of
    the group; it is either the best-ranked member among those not above the
    preferred rank, or, when every member is above the preferred rank and
    higher quality is allowed, the best-ranked member of all.  Nothing is
    chosen exactly when the group is empty, or every member is above the
    preferred rank and higher quality is not allowed. *)
Theorem bestOfGroup_choice (p : Preferences.t) (ms : list Metadata.t) :
  (forall m, bestOfGroup p ms = Some m ->
     In m ms /\
     (((rankOf m <= preferredRankOf p)%Z /\
       forall m', In m' ms -> (rankOf m' <= preferredRankOf p)%Z ->
                  (rankOf m' <= rankOf m)%Z) \/
      (Preferences.allowHigherQuality p = true /\
       forall m', In m' ms -> (preferredRankOf p < rankOf m' <= rankOf m)%Z))) /\
  (bestOfGroup p ms = None <->
   ms = [] \/
   (Preferences.allowHigherQuality p = false /\
    forall m', In m' ms -> (preferredRankOf p < rankOf m')%Z)).
Proof.
  split; [intros m; apply bestOfGroup_some | apply bestOfGroup_none].
Qed.

Lemma bestOfGroup_choice_witness :
  let group := [DemoChoice.movieA720; DemoChoice.movieA2160; DemoChoice.movieA1080;
                DemoChoice.movieA1080Remux] in
  In DemoChoice.movieA1080 group /\
  (((rankOf DemoChoice.movieA1080 <= preferredRankOf Demo.upgradeTo1080)%Z /\
    forall m', In m' group ->
               (rankOf m' <= preferredRankOf Demo.upgradeTo1080)%Z ->
               (rankOf m' <= rankOf DemoChoice.movieA1080)%Z) \/
   (Preferences.allowHigherQuality Demo.upgradeTo1080 = true /\
    forall m', In m' group ->
               (preferredRankOf Demo.upgradeTo1080 < rankOf m'
                <= rankOf DemoChoice.movieA1080)%Z)).
Proof.
  apply (proj1 (bestOfGroup_choice Demo.upgradeTo1080
                  [DemoChoice.movieA720; DemoChoice.movieA2160; DemoChoice.movieA1080;
                   DemoChoice.movieA1080Remux])
           DemoChoice.movieA1080).
  vm_compute. reflexivity.
Defined.

(** The same group under other preferences: with a 720p preference the
    720p release is chosen, with a 480p preference nothing is, and a 480p
    preference that allows higher quality takes the 2160p release. *)
Example bestOfGroup_choice_runs :
  let group := [DemoChoice.movieA720; DemoChoice.movieA2160; DemoChoice.movieA1080;
                DemoChoice.movieA1080Remux] in
  bestOfGroup Demo.upgradeTo1080 group = Some DemoChoice.movieA1080 /\
  bestOfGroup (withQuality (Some "720p") Demo.upgradeTo1080) group
  = Some DemoChoice.movieA720 /\
  bestOfGroup (withQuality (Some "480p") Demo.upgradeTo1080) group = None /\
  bestOfGroup (withQuality (Some "480p") DemoChoice.higherAllowed) group
  = Some DemoChoice.movieA2160.
Proof. repeat split; vm_compute; reflexivity. Qed.

(** *** The upgrade candidates *)

Lemma In_firstn {A : Type} (k : nat) (l : list A) (x : A) :
  In x (firstn k l) -> In x l.
Proof.
  revert l. induction k as [ | k IH]; intros l H; [destruct H | ].
  destruct l as [ | y l]; [destruct H | ].
  cbn [firstn] in H. destruct H as [H | H]; [left; exact H | right; apply IH, H].
Qed.

Lemma bestFirst_firstn (k : nat) (l : list Metadata.t) :
  bestFirst l -> bestFirst (firstn k l).
Proof.
  unfold bestFirst. revert l. induction k as [ | k IH]; intros l H; [constructor | ].
  destruct l as [ | y l]; [constructor | ].
  apply StronglySorted_inv in H. destruct H as [Hs Hall].
  cbn [firstn]. constructor; [apply IH, Hs | ].
  rewrite Forall_forall in Hall |- *. intros x Hx. apply Hall. exact (@In_firstn _ k l x Hx).
Qed.

Lemma sliceTo_firstn {A : Type} (n : Z) (xs : list A) :
  exists k, sliceTo n xs = firstn k xs /\ ((0 <= n)%Z -> k = Z.to_nat n).
Proof.
  unfold sliceTo. destruct (Z.ltb_spec n 0).
  - eexists. split; [reflexivity | lia].
  - eexists. split; [reflexivity | reflexivity].
Qed.

Lemma no_preference_no_upgrade (n c p : option string) :
  noQuality p -> isBetterQuality n c p = false.
Proof.
  intros H. unfold isBetterQuality.
  pose proof (RankOrder.getQualityRank_bound_low c) as Hc.
  rewrite (RankOrder.getQualityRank_unknown H).
  destruct (Z.gtb_spec (getQualityRank n) (getQualityRank c)); [ | reflexivity].
  apply orb_false_iff. split; [apply Z.ltb_ge | apply Z.leb_gt]; lia.
Qed.

Lemma sliceTo_length {A : Type} (n : Z) (xs : list A) :
  ((0 <= n)%Z ->
   Z.of_nat (List.length (sliceTo n xs)) = Z.min n (Z.of_nat (List.length xs))) /\
  ((n < 0)%Z ->
   Z.of_nat (List.length (sliceTo n xs)) = Z.max (Z.of_nat (List.length xs) + n) 0).
Proof.
  unfold sliceTo. destruct (Z.ltb_spec n 0); (split; [ | ]); intros Hn; try lia;
    rewrite length_firstn; lia.
Qed.

Lemma sliceTo_prefix {A : Type} (n : Z) (xs : list A) :
  sliceTo n xs = firstn (List.length (sliceTo n xs)) xs.
Proof.
  destruct (sliceTo_firstn n xs) as [k [E _]]. rewrite E. clear E.
  rewrite length_firstn. revert k. induction xs as [ | x xs IH]; intros k.
  - destruct k; reflexivity.
  - destruct k as [ | k]; [reflexivity | ].
    cbn [firstn List.length Nat.min]. rewrite <- IH. reflexivity.
Qed.

(** X6. Every candidate [findBetterQualityMatches] keeps was among those
    the search returned, is a better quality than the held one and
    satisfies the preferences.  The kept candidates are the leading ones of
    the eligible candidates sorted best rank first.  How many are kept
    depends on [maxUpgradeMatches]: with a positive [n], the first [n] (all
    when there are fewer); when it is absent or zero, the first three; and a
    negative [n] is no cap at all, it drops the last [-n] of the sorted
    candidates and keeps every other one. *)
Theorem selectBetterMatches_sound (allMatches : list Metadata.t)
    (currentQuality : option string) (p : Preferences.t) :
  let kept := selectBetterMatches allMatches currentQuality p in
  let eligible := eligibleUpgrades allMatches currentQuality p in
  (forall m, In m kept ->
     In m allMatches /\
     isBetterQuality (Metadata.quality m) currentQuality (Preferences.quality p) = true /\
     matchesPreferences m p = true) /\
  bestFirst kept /\
  kept = firstn (List.length kept) (sortByRank eligible) /\
  (forall n, Preferences.maxUpgradeMatches p = Some n -> (0 < n)%Z ->
     Z.of_nat (List.length kept) = Z.min n (Z.of_nat (List.length eligible))) /\
  ((Preferences.maxUpgradeMatches p = None \/ Preferences.maxUpgradeMatches p = Some 0%Z) ->
   Z.of_nat (List.length kept) = Z.min 3 (Z.of_nat (List.length eligible))) /\
  (forall n, Preferences.maxUpgradeMatches p = Some n -> (n < 0)%Z ->
     Z.of_nat (List.length kept) = Z.max (Z.of_nat (List.length eligible) + n) 0).
Proof.
  cbv zeta. unfold selectBetterMatches, eligibleUpgrades. cbv zeta.
  set (better := filter _ allMatches).
  assert (Hlen : List.length (sortByRank better) = List.length better)
    by (symmetry; apply Permutation_length, sortByRank_perm).
  pose proof (sliceTo_length (upgradeLimit p) (sortByRank better)) as [Hpos Hneg].
  rewrite Hlen in Hpos, Hneg.
  pose proof (sliceTo_prefix (upgradeLimit p) (sortByRank better)) as Hpre.
  destruct (sliceTo_firstn (upgradeLimit p) (sortByRank better)) as [k [E _]].
  assert (Hin : forall m, In m (sliceTo (upgradeLimit p) (sortByRank better)) ->
                          In m better).
  { intros m H. rewrite E in H. apply In_firstn in H.
    exact (Permutation_in _ (Permutation_sym (sortByRank_perm better)) H). }
  split; [ | split; [ | split; [ | split; [ | split]]]].
  - intros m H. apply Hin, filter_In in H. destruct H as [H1 H2].
    apply andb_true_iff in H2. tauto.
  - rewrite E. apply bestFirst_firstn, sortByRank_bestFirst.
  - exact Hpre.
  - intros n Hn Hp.
    assert (L : upgradeLimit p = n).
    { unfold upgradeLimit. rewrite Hn.
      destruct (Z.eqb_spec n 0); [lia | reflexivity]. }
    rewrite L in Hpos |- *. apply Hpos. lia.
  - intros H.
    assert (L : upgradeLimit p = 3%Z)
      by (destruct H as [H | H]; unfold upgradeLimit; rewrite H; reflexivity).
    rewrite L in Hpos |- *. apply Hpos. lia.
  - intros n Hn Hp.
    assert (L : upgradeLimit p = n).
    { unfold upgradeLimit. rewrite Hn.
      destruct (Z.eqb_spec n 0); [lia | reflexivity]. }
    rewrite L in Hneg |- *. apply Hneg, Hp.
Qed.

Lemma selectBetterMatches_sound_witness :
  let found := [DemoChoice.movieA1080; DemoChoice.movieA2160; DemoChoice.movieA1080Remux;
                DemoChoice.movieA720; Demo.betterMovieA; DemoChoice.movieA1080] in
  Z.of_nat (List.length (selectBetterMatches found (Some "480p") Demo.upgradeTo1080))
  = Z.min 3 (Z.of_nat (List.length (eligibleUpgrades found (Some "480p") Demo.upgradeTo1080)))
  /\
  Z.of_nat (List.length (selectBetterMatches found (Some "480p") DemoChoice.allButLast))
  = Z.max (Z.of_nat (List.length
                       (eligibleUpgrades found (Some "480p") DemoChoice.allButLast))
           + (-1)) 0.
Proof.
  cbv zeta. split.
  - apply (proj1 (proj2 (proj2 (proj2 (proj2 (selectBetterMatches_sound
             [DemoChoice.movieA1080; DemoChoice.movieA2160; DemoChoice.movieA1080Remux;
              DemoChoice.movieA720; Demo.betterMovieA; DemoChoice.movieA1080]
             (Some "480p") Demo.upgradeTo1080)))))).
    left. reflexivity.
  - apply (proj2 (proj2 (proj2 (proj2 (proj2 (selectBetterMatches_sound
             [DemoChoice.movieA1080; DemoChoice.movieA2160; DemoChoice.movieA1080Remux;
              DemoChoice.movieA720; Demo.betterMovieA; DemoChoice.movieA1080]
             (Some "480p") DemoChoice.allButLast))))) (-1)%Z).
    + reflexivity.
    + reflexivity.
Defined.

(** The two runs: four candidates are eligible; the default keeps three of
    them, and [maxUpgradeMatches = -1] keeps three as well, all but the
    last; with five eligible it would keep four. *)
Example selectBetterMatches_runs :
  let found := [DemoChoice.movieA1080; DemoChoice.movieA2160; DemoChoice.movieA1080Remux;
                DemoChoice.movieA720; Demo.betterMovieA; DemoChoice.movieA1080] in
  eligibleUpgrades found (Some "480p") Demo.upgradeTo1080
  = [DemoChoice.movieA1080; DemoChoice.movieA1080Remux; Demo.betterMovieA;
     DemoChoice.movieA1080] /\
  selectBetterMatches found (Some "480p") Demo.upgradeTo1080
  = [DemoChoice.movieA1080; DemoChoice.movieA1080Remux; Demo.betterMovieA] /\
  selectBetterMatches (found ++ [DemoChoice.movieA1080Remux]) (Some "480p")
    DemoChoice.allButLast
  = [DemoChoice.movieA1080; DemoChoice.movieA1080Remux; Demo.betterMovieA;
     DemoChoice.movieA1080].
Proof. repeat split; vm_compute; reflexivity. Qed.

(** X7. Without a preferred quality (undefined, empty or ['Unknown'])
    [findBetterQualityMatches] keeps no candidate at all. *)
Theorem selectBetterMatches_without_preference (allMatches : list Metadata.t)
    (currentQuality : option string) (p : Preferences.t) :
  noQuality (Preferences.quality p) ->
  selectBetterMatches allMatches currentQuality p = [].
Proof.
  intros H. unfold selectBetterMatches. cbv zeta.
  assert (E : filter (fun m =>
                isBetterQuality (Metadata.quality m) currentQuality (Preferences.quality p)
                && matchesPreferences m p) allMatches = []).
  { induction allMatches as [ | m l IH]; [reflexivity | ].
    cbn [filter]. rewrite (no_preference_no_upgrade _ _ H). exact IH. }
  rewrite E. cbn [sortByRank fold_right].
  destruct (sliceTo_firstn (upgradeLimit p) (@nil Metadata.t)) as [k [Ek _]].
  rewrite Ek. destruct k; reflexivity.
Qed.

Lemma selectBetterMatches_without_preference_witness :
  selectBetterMatches [Demo.betterMovieA] (Some "720p") Preferences.none = [].
Proof.
  apply selectBetterMatches_without_preference. left. reflexivity.
Defined.

End Selecting.

Module Grouping.
Import JsString APIManager Notions Selecting.

Section ByKey.

Variable key : Metadata.t -> string.

Lemma addToGroup_keys_old (k : string) (m : Metadata.t) (groups : groupMap) :
  In k (map fst groups) -> map fst (addToGroup k m groups) = map fst groups.
Proof.
  induction groups as [ | [k0 ms0] rest IH]; cbn [map fst addToGroup In]; [tauto | ].
  intros H. destruct (String.eqb_spec k0 k) as [E | N]; [reflexivity | ].
  cbn [map fst]. f_equal. apply IH. destruct H as [H | H]; [contradiction | exact H].
Qed.

Lemma addToGroup_keys_new (k : string) (m : Metadata.t) (groups : groupMap) :
  ~ In k (map fst groups) ->
  map fst (addToGroup k m groups) = (map fst groups ++ [k])%list.
Proof.
  induction groups as [ | [k0 ms0] rest IH]; cbn [map fst addToGroup In app];
    [reflexivity | ].
  intros H. destruct (String.eqb_spec k0 k) as [E | N]; [tauto | ].
  cbn [map fst]. f_equal. apply IH. tauto.
Qed.

(** The entries after one insertion, when the keys are distinct. *)
Lemma addToGroup_entries (k : string) (m : Metadata.t) (groups : groupMap)
    (k' : string) (ms' : list Metadata.t) :
  NoDup (map fst groups) ->
  In (k', ms') (addToGroup k m groups) ->
  (k' <> k /\ In (k', ms') groups) \/
  (k' = k /\ ((exists ms0, In (k, ms0) groups /\ ms' = (ms0 ++ [m])%list) \/
              (~ In k (map fst groups) /\ ms' = [m]))).
Proof.
  induction groups as [ | [k0 ms0] rest IH]; cbn [map fst addToGroup In];
    intros Hnd Hin.
  - destruct Hin as [Hin | []]. inversion Hin. subst k' ms'.
    right. split; [reflexivity | ]. right. split; [tauto | reflexivity].
  - apply NoDup_cons_iff in Hnd. destruct Hnd as [Hfresh Hnd].
    destruct (String.eqb_spec k0 k) as [E | N].
    + subst k0. destruct Hin as [Hin | Hin].
      * inversion Hin. subst k' ms'. right. split; [reflexivity | ].
        left. exists ms0. split; [left; reflexivity | reflexivity].
      * left. split; [ | right; exact Hin].
        intros E. subst k'. apply Hfresh.
        change k with (fst (k, ms')). apply in_map. exact Hin.
    + destruct Hin as [Hin | Hin].
      * inversion Hin. subst k' ms'. left. split; [exact N | left; reflexivity].
      * destruct (IH Hnd Hin) as [[Hne Hold] | [Heq [[ms1 [Hold Hms]] | [Hnew Hms]]]].
        -- left. split; [exact Hne | right; exact Hold].
        -- right. split; [exact Heq | ]. left. exists ms1.
           split; [right; exact Hold | exact Hms].
        -- right. split; [exact Heq | ]. right. split; [ | exact Hms].
           intros [H | H]; [apply N; exact H | apply Hnew; exact H].
Qed.

Lemma filter_none {A : Type} (f : A -> bool) (l : list A) :
  (forall x, In x l -> f x = false) -> filter f l = [].
Proof.
  induction l as [ | y l IH]; intros H; [reflexivity | ].
  cbn [filter]. rewrite (H y (or_introl eq_refl)). apply IH.
  intros x Hx. apply H. right. exact Hx.
Qed.

Lemma filter_key_snoc (k : string) (done : list Metadata.t) (m : Metadata.t) :
  filter (fun x => String.eqb (key x) k) (done ++ [m])%list =
  (filter (fun x => String.eqb (key x) k) done
     ++ (if String.eqb (key m) k then [m] else []))%list.
Proof. rewrite filter_app. reflexivity. Qed.

Lemma addToGroup_grouped (done : list Metadata.t) (m : Metadata.t) (groups : groupMap) :
  groupedBy key done groups ->
  groupedBy key (done ++ [m])%list (addToGroup (key m) m groups).
Proof.
  intros [Hnd [Hmem Hcov]]. split; [ | split].
  - destruct (in_dec string_dec (key m) (map fst groups)) as [Hin | Hout].
    + rewrite (addToGroup_keys_old _ m _ Hin). exact Hnd.
    + rewrite (addToGroup_keys_new _ m _ Hout).
      apply NoDup_app; [exact Hnd | constructor; [intros [] | constructor] | ].
      intros x Hx [E | []]. subst x. exact (Hout Hx).
  - intros k members Hin.
    destruct (addToGroup_entries _ _ _ _ _ Hnd Hin)
      as [[Hne Hold] | [Heq [[ms0 [Hold Hms]] | [Hnew Hms]]]].
    + destruct (Hmem _ _ Hold) as [Hnonempty Hfilter].
      split; [exact Hnonempty | ].
      rewrite filter_key_snoc.
      destruct (String.eqb_spec (key m) k) as [E | _]; [congruence | ].
      rewrite app_nil_r. exact Hfilter.
    + subst k members. destruct (Hmem _ _ Hold) as [_ Hfilter].
      split; [destruct ms0; discriminate | ].
      rewrite filter_key_snoc, String.eqb_refl, <- Hfilter. reflexivity.
    + subst k members. split; [discriminate | ].
      rewrite filter_key_snoc, String.eqb_refl.
      assert (E : filter (fun x => String.eqb (key x) (key m)) done = []).
      { apply filter_none. intros y Hy. apply String.eqb_neq. intros Ek.
        apply Hnew. rewrite <- Ek. apply Hcov, Hy. }
      rewrite E. reflexivity.
  - intros x Hx. apply in_app_or in Hx.
    destruct (in_dec string_dec (key m) (map fst groups)) as [Hin | Hout].
    + rewrite (addToGroup_keys_old _ m _ Hin).
      destruct Hx as [Hx | [E | []]]; [apply Hcov, Hx | subst x; exact Hin].
    + rewrite (addToGroup_keys_new _ m _ Hout). apply in_or_app.
      destruct Hx as [Hx | [E | []]]; [left; apply Hcov, Hx | subst x; right; left; reflexivity].
Qed.

Lemma fold_grouped (ms done : list Metadata.t) (groups : groupMap) :
  groupedBy key done groups ->
  groupedBy key (done ++ ms)%list
    (fold_left (fun g m => addToGroup (key m) m g) ms groups).
Proof.
  revert done groups. induction ms as [ | m ms IH]; intros done groups H.
  - rewrite app_nil_r. exact H.
  - cbn [fold_left].
    replace (done ++ m :: ms)%list with ((done ++ [m]) ++ ms)%list
      by (rewrite <- app_assoc; reflexivity).
    apply IH. apply addToGroup_grouped. exact H.
Qed.

Lemma grouped_from_nothing (ms : list Metadata.t) :
  groupedBy key ms (fold_left (fun g m => addToGroup (key m) m g) ms []).
Proof.
  apply (fold_grouped ms (done := []) (groups := [])).
  split; [constructor | ]. split; [intros k members [] | intros m []].
Qed.

(** One pick per group gives picks of distinct keys. *)
Lemma picks_distinct (pick : string * list Metadata.t -> list Metadata.t)
    (groups : groupMap) :
  (forall g m, In m (pick g) -> In m (snd g)) ->
  (forall g, (List.length (pick g) <= 1)%nat) ->
  NoDup (map fst groups) ->
  (forall k members m, In (k, members) groups -> In m members -> key m = k) ->
  NoDup (map key (flat_map pick groups)).
Proof.
  intros Hsub Hone. induction groups as [ | [k0 ms0] rest IH]; intros Hnd Hkey.
  - constructor.
  - cbn [map fst] in Hnd. apply NoDup_cons_iff in Hnd. destruct Hnd as [Hfresh Hnd].
    assert (IHrest : NoDup (map key (flat_map pick rest))).
    { apply IH; [exact Hnd | ]. intros k members m Hin. apply Hkey. right. exact Hin. }
    cbn [flat_map]. specialize (Hone (k0, ms0)). pose proof (Hsub (k0, ms0)) as Hsub0.
    destruct (pick (k0, ms0)) as [ | m [ | m2 tl]]; cbn [List.length] in Hone; [ | | lia].
    + exact IHrest.
    + cbn [app map]. constructor; [ | exact IHrest].
      intros Hin. apply in_map_iff in Hin. destruct Hin as [m' [Ek Hin]].
      apply in_flat_map in Hin. destruct Hin as [[k1 ms1] [Hg Hp]].
      apply Hfresh.
      assert (E0 : key m = k0).
      { apply (Hkey k0 ms0); [left; reflexivity | apply Hsub0; left; reflexivity]. }
      assert (E1 : key m' = k1).
      { apply (Hkey k1 ms1); [right; exact Hg | ].
        exact (Hsub (k1, ms1) m' Hp). }
      rewrite <- E0, <- Ek, E1. change k1 with (fst (k1, ms1)). apply in_map. exact Hg.
Qed.

End ByKey.

(** X8. Both groupings are partitions of the candidates by their key (the
    cleaned title, or the cleaned title with its season tag): the keys of
    the groups are distinct, every group holds exactly the candidates of its
    key, in the order they came and at least one, and every candidate is in
    the group of its key. *)
Theorem groupings_partition (ms : list Metadata.t) :
  groupedBy titleKey ms (groupByTitle ms) /\
  groupedBy seasonKey ms (groupShowsBySeasonStructure ms).
Proof.
  split.
  - exact (@grouped_from_nothing titleKey ms).
  - exact (@grouped_from_nothing seasonKey ms).
Qed.

Lemma grouped_member_key (key : Metadata.t -> string) (ms : list Metadata.t)
    (groups : groupMap) (k : string) (members : list Metadata.t) (m : Metadata.t) :
  groupedBy key ms groups -> In (k, members) groups -> In m members ->
  In m ms /\ key m = k.
Proof.
  intros [_ [Hmem _]] Hg Hm. destruct (Hmem _ _ Hg) as [_ E].
  rewrite E in Hm. apply filter_In in Hm. destruct Hm as [Hin Hk].
  split; [exact Hin | apply String.eqb_eq; exact Hk].
Qed.

Lemma showFilter_matches (p : Preferences.t) (m : Metadata.t) :
  showFilter p m = true -> matchesPreferences m p = true.
Proof.
  unfold showFilter. destruct (matchesPreferences m p); [reflexivity | discriminate].
Qed.

Lemma chosen_rank (p : Preferences.t) (ms : list Metadata.t) (m : Metadata.t) :
  bestOfGroup p ms = Some m ->
  In m ms /\
  ((rankOf m <= preferredRankOf p)%Z \/ Preferences.allowHigherQuality p = true).
Proof.
  intros H. apply bestOfGroup_some in H. destruct H as [Hin [[Hle _] | [Ha _]]];
    (split; [exact Hin | tauto]).
Qed.

(** X9. What [findBestQualityMatchForShow] returns: every returned
    candidate was among those the search returned and satisfies the
    preferences; its rank is at most the preferred rank unless higher
    quality is allowed; and no two returned candidates share a season
    group. *)
Theorem selectBestForShow_sound (allMatches : list Metadata.t) (p : Preferences.t) :
  (forall m, In m (selectBestForShow allMatches p) ->
     In m allMatches /\ matchesPreferences m p = true /\
     ((rankOf m <= preferredRankOf p)%Z \/ Preferences.allowHigherQuality p = true)) /\
  NoDup (map seasonKey (selectBestForShow allMatches p)).
Proof.
  unfold selectBestForShow.
  destruct allMatches as [ | a l]; [split; [intros m [] | constructor] | ].
  cbv zeta. set (filtered := filter (showFilter p) (a :: l)).
  pose proof (@grouped_from_nothing seasonKey filtered) as G.
  change (fold_left _ filtered []) with (groupShowsBySeasonStructure filtered) in G.
  split.
  - intros m Hm. apply in_flat_map in Hm. destruct Hm as [[k members] [Hg Hp]].
    cbn [snd] in Hp.
    destruct (bestOfGroup p members) as [m0 | ] eqn:B; [ | destruct Hp].
    destruct Hp as [E | []]. subst m0.
    destruct (chosen_rank _ _ B) as [Hin Hrank].
    destruct (@grouped_member_key _ _ _ k members m G Hg Hin) as [Hf _].
    apply filter_In in Hf. destruct Hf as [Hall Hshow].
    split; [exact Hall | ]. split; [apply showFilter_matches; exact Hshow | exact Hrank].
  - apply (@picks_distinct seasonKey).
    + intros [k members] m Hp. cbn [snd] in Hp |- *.
      destruct (bestOfGroup p members) as [m0 | ] eqn:B; [ | destruct Hp].
      destruct Hp as [E | []]. subst m0. apply (chosen_rank _ _ B).
    + intros g. destruct (bestOfGroup p (snd g)); cbn [List.length]; lia.
    + apply G.
    + intros k members m Hg Hm. apply (@grouped_member_key _ _ _ k members m G Hg Hm).
Qed.

Lemma selectBestForShow_sound_witness :
  In Aux.seasonPack [Aux.seasonPack; Aux.singleEpisode] /\
  matchesPreferences Aux.seasonPack Aux.completeSeasons1080 = true /\
  ((rankOf Aux.seasonPack <= preferredRankOf Aux.completeSeasons1080)%Z \/
   Preferences.allowHigherQuality Aux.completeSeasons1080 = true).
Proof.
  apply (proj1 (selectBestForShow_sound [Aux.seasonPack; Aux.singleEpisode]
                  Aux.completeSeasons1080) Aux.seasonPack).
  vm_compute. left. reflexivity.
Defined.

(** X10. What [findBestQualityMatch] returns: every returned candidate was
    among those the search returned and satisfies the preferences; its rank
    is at most the preferred rank unless higher quality is allowed; and no
    two returned candidates share a cleaned title. *)
Theorem selectBest_sound (allMatches : list Metadata.t) (p : Preferences.t) :
  (forall m, In m (selectBest allMatches p) ->
     In m allMatches /\ matchesPreferences m p = true /\
     ((rankOf m <= preferredRankOf p)%Z \/ Preferences.allowHigherQuality p = true)) /\
  NoDup (map titleKey (selectBest allMatches p)).
Proof.
  unfold selectBest.
  destruct allMatches as [ | a l]; [split; [intros m [] | constructor] | ].
  cbv zeta.
  pose proof (@grouped_from_nothing titleKey (a :: l)) as G.
  change (fold_left _ (a :: l) []) with (groupByTitle (a :: l)) in G.
  split.
  - intros m Hm. apply in_flat_map in Hm. destruct Hm as [[k members] [Hg Hp]].
    cbn [snd] in Hp.
    destruct (bestOfGroup p members) as [m0 | ] eqn:B; [ | destruct Hp].
    destruct (matchesPreferences m0 p) eqn:MP; [ | destruct Hp].
    destruct Hp as [E | []]. subst m0.
    destruct (chosen_rank _ _ B) as [Hin Hrank].
    destruct (@grouped_member_key _ _ _ k members m G Hg Hin) as [Hall _].
    split; [exact Hall | ]. split; [exact MP | exact Hrank].
  - apply (@picks_distinct titleKey).
    + intros [k members] m Hp. cbn [snd] in Hp |- *.
      destruct (bestOfGroup p members) as [m0 | ] eqn:B; [ | destruct Hp].
      destruct (matchesPreferences m0 p); [ | destruct Hp].
      destruct Hp as [E | []]. subst m0. apply (chosen_rank _ _ B).
    + intros g. destruct (bestOfGroup p (snd g)) as [m0 | ]; [ | cbn [List.length]; lia].
      destruct (matchesPreferences m0 p); cbn [List.length]; lia.
    + apply G.
    + intros k members m Hg Hm. apply (@grouped_member_key _ _ _ k members m G Hg Hm).
Qed.

Lemma selectBest_sound_witness :
  In Demo.betterMovieA [Demo.betterMovieA] /\
  matchesPreferences Demo.betterMovieA Demo.upgradeTo1080 = true /\
  ((rankOf Demo.betterMovieA <= preferredRankOf Demo.upgradeTo1080)%Z \/
   Preferences.allowHigherQuality Demo.upgradeTo1080 = true).
Proof.
  apply (proj1 (selectBest_sound [Demo.betterMovieA] Demo.upgradeTo1080)
           Demo.betterMovieA).
  vm_compute. left. reflexivity.
Defined.

End Grouping.

Module Clauses.
Import JsString APIManager Notions.

(** X11. The HDR policy.  ['hdr-only'] rejects every record that is not
    HDR content (no [hdr] field, an empty one, or ['SDR']).  Any policy
    other than ['sdr-only'] and ['hdr-only'] (['any'], ['hdr-preferred'], or
    an unknown word) filters nothing: the answer is the one given without an
    HDR policy. *)
Theorem hdr_policy (m : Metadata.t) (p : Preferences.t) :
  (notHdrContent m -> Preferences.hdrPreference p = Some "hdr-only" ->
   matchesPreferences m p = false) /\
  (forall pref, Preferences.hdrPreference p = Some pref ->
     pref <> "sdr-only" -> pref <> "hdr-only" ->
     matchesPreferences m p = matchesPreferences m (withHdrPreference None p)).
Proof.
  split.
  - intros Hm Hp. unfold matchesPreferences. rewrite Hp.
    destruct Hm as [E | [E | E]]; rewrite E; reflexivity.
  - intros pref Hp N1 N2. unfold matchesPreferences, withHdrPreference.
    cbn [Preferences.hdrPreference Preferences.quality Preferences.allowHigherQuality
         Preferences.allowLowerQuality].
    rewrite Hp. apply String.eqb_neq in N1. apply String.eqb_neq in N2.
    rewrite N1, N2. cbn [andb]. destruct (pref =? "any"); reflexivity.
Qed.

Lemma hdr_policy_witness :
  matchesPreferences (Aux.candidate "magnet:?xt=urn:btih:ff" "Movie.1080p" "1080p" "Unknown" "movie")
    (withHdrPreference (Some "hdr-only") Preferences.none) = false.
Proof.
  apply (proj1 (hdr_policy _ (withHdrPreference (Some "hdr-only") Preferences.none)));
    [left; reflexivity | reflexivity].
Defined.

(** X12. The quality bounds, when a preferred quality is set and the
    record's quality is not ['Unknown'].  A record ranked above the
    preferred quality is rejected unless higher quality is allowed, and one
    ranked below it (a record with no quality at all ranks lowest) is
    rejected unless lower quality is allowed.  A record whose quality is
    ['Unknown'] is not subject to the bounds: the answer is the one given
    without a preferred quality. *)
Theorem quality_bounds (m : Metadata.t) (p : Preferences.t) :
  (truthy (Preferences.quality p) = true -> Metadata.quality m <> Some "Unknown" ->
   ((preferredRankOf p < rankOf m)%Z -> Preferences.allowHigherQuality p = false ->
    matchesPreferences m p = false) /\
   ((rankOf m < preferredRankOf p)%Z -> Preferences.allowLowerQuality p = false ->
    matchesPreferences m p = false)) /\
  (Metadata.quality m = Some "Unknown" ->
   matchesPreferences m p = matchesPreferences m (withQuality None p)).
Proof.
  split.
  - intros Ht Hq.
    assert (Hu : isUnknown (Metadata.quality m) = false).
    { unfold isUnknown. destruct (Metadata.quality m) as [q | ]; [ | reflexivity].
      apply String.eqb_neq. intros E. apply Hq. rewrite E. reflexivity. }
    unfold preferredRankOf, rankOf. split.
    + intros Hgt Ha. unfold matchesPreferences. rewrite Ht, Hu, Ha. cbn [negb andb].
      destruct (Z.eqb_spec (getQualityRank (Metadata.quality m))
                  (getQualityRank (Preferences.quality p))); [lia | ].
      destruct (Z.gtb_spec (getQualityRank (Metadata.quality m))
                  (getQualityRank (Preferences.quality p))); [ | lia].
      cbn [andb]. repeat match goal with
                         | |- context [if ?b then _ else _] => destruct b
                         end; reflexivity.
    + intros Hlt Ha. unfold matchesPreferences. rewrite Ht, Hu, Ha. cbn [negb andb].
      destruct (Z.eqb_spec (getQualityRank (Metadata.quality m))
                  (getQualityRank (Preferences.quality p))); [lia | ].
      destruct (Z.gtb_spec (getQualityRank (Metadata.quality m))
                  (getQualityRank (Preferences.quality p))); [lia | ].
      destruct (Z.ltb_spec (getQualityRank (Metadata.quality m))
                  (getQualityRank (Preferences.quality p))); [ | lia].
      cbn [andb]. repeat match goal with
                         | |- context [if ?b then _ else _] => destruct b
                         end; reflexivity.
  - intros Hq. unfold matchesPreferences, withQuality.
    cbn [Preferences.hdrPreference Preferences.quality Preferences.allowHigherQuality
         Preferences.allowLowerQuality truthy].
    rewrite Hq. cbn [isUnknown]. change ("Unknown" =? "Unknown") with true.
    cbn [negb]. rewrite andb_false_r. cbn [andb]. reflexivity.
Qed.

Lemma quality_bounds_witness :
  matchesPreferences
    (Aux.candidate "magnet:?xt=urn:btih:ff" "Movie.2160p" "2160p" "Unknown" "movie")
    Demo.upgradeTo1080 = false.
Proof.
  apply (proj1 (proj1 (quality_bounds
           (Aux.candidate "magnet:?xt=urn:btih:ff" "Movie.2160p" "2160p" "Unknown" "movie")
           Demo.upgradeTo1080) eq_refl ltac:(discriminate)));
    [vm_compute; reflexivity | reflexivity].
Defined.

Lemma unknown_type_never_matches (title t : string) :
  ~ knownFileType t -> hasPreferredType title t = false.
Proof.
  intros H. unfold hasPreferredType, knownFileType in *.
  destruct (String.eqb_spec t "remux"); [tauto | ].
  destruct (String.eqb_spec t "bluray"); [tauto | ].
  destruct (String.eqb_spec t "web"); [tauto | reflexivity].
Qed.

(** X13. The release-type whitelist.  When [fileTypes] is not empty and
    names none of ['remux'], ['bluray'], ['web'], every record is rejected,
    whatever its title. *)
Theorem unknown_file_types_reject (m : Metadata.t) (p : Preferences.t)
    (t : string) (ts : list string) :
  Preferences.fileTypes p = Some (t :: ts) ->
  Forall (fun x => ~ knownFileType x) (t :: ts) ->
  matchesOtherPreferences m p = false /\ matchesPreferences m p = false.
Proof.
  intros Hf Hall.
  assert (E : existsb (hasPreferredType (Metadata.title m)) (t :: ts) = false).
  { clear Hf. induction Hall as [ | x xs Hx _ IH]; [reflexivity | ].
    cbn [existsb]. rewrite (unknown_type_never_matches _ Hx). exact IH. }
  assert (O : matchesOtherPreferences m p = false).
  { unfold matchesOtherPreferences. rewrite Hf, E. reflexivity. }
  split; [exact O | ].
  unfold matchesPreferences. rewrite O.
  repeat match goal with
         | |- context [if ?b then _ else _] => destruct b
         end; reflexivity.
Qed.

Lemma unknown_file_types_reject_witness :
  let p := {| Preferences.quality := None; Preferences.allowHigherQuality := false;
              Preferences.allowLowerQuality := false; Preferences.hdrPreference := None;
              Preferences.fileTypes := Some ["hdtv"]; Preferences.maxSize := None;
              Preferences.autoUpgrade := false;
              Preferences.deleteOldAfterUpgrade := false;
              Preferences.maxUpgradeMatches := None;
              Preferences.completeSeasons := false |} in
  matchesOtherPreferences Demo.betterMovieA p = false /\
  matchesPreferences Demo.betterMovieA p = false.
Proof.
  cbv zeta. apply (@unknown_file_types_reject _ _ "hdtv" []); [reflexivity | ].
  constructor; [ | constructor].
  intros [H | [H | H]]; discriminate H.
Defined.

(** X14. No constraint, no rejection: with no HDR policy, no preferred
    quality, no release types (none, or an empty list) and no size cap,
    every record satisfies the preferences. *)
Theorem no_preference_accepts (m : Metadata.t) (p : Preferences.t) :
  Preferences.hdrPreference p = None ->
  truthy (Preferences.quality p) = false ->
  (Preferences.fileTypes p = None \/ Preferences.fileTypes p = Some []) ->
  truthy (Preferences.maxSize p) = false ->
  matchesPreferences m p = true.
Proof.
  intros Hh Hq Hf Hs. unfold matchesPreferences, matchesOtherPreferences.
  rewrite Hh, Hq, Hs. cbn [andb].
  destruct Hf as [E | E]; rewrite E; reflexivity.
Qed.

Lemma no_preference_accepts_witness :
  matchesPreferences Demo.betterMovieA Preferences.none = true.
Proof.
  apply no_preference_accepts; [reflexivity | reflexivity | left; reflexivity | reflexivity].
Defined.

End Clauses.

Module Labels.
Import JsString Regex APIManager Notions RegexFacts.

Lemma canonicalize_lowerChar (a : ascii) : canonicalize (lowerChar a) = canonicalize a.
Proof. destruct a as [[] [] [] [] [] [] [] []]; vm_compute; reflexivity. Qed.

Lemma lower_matches (c a : ascii) :
  Ascii.eqb (lowerChar c) (lowerChar a) = true -> chrMatches true c a = true.
Proof.
  intros H. apply Ascii.eqb_eq in H. unfold chrMatches.
  rewrite <- (canonicalize_lowerChar c), H, canonicalize_lowerChar.
  apply Ascii.eqb_refl.
Qed.

(** A literal matches, whatever the letter case, where the lower-cased
    subject starts with the lower-cased literal. *)
Lemma literal_here (lit : string) :
  forall (s pre : string),
    startsWith (toLowerCase s) (toLowerCase lit) = true ->
    exists pre' s', forall (cs : captures) (k : cont),
      run true (Lit lit) pre s cs k = k pre' s' cs.
Proof.
  induction lit as [ | c lit IH]; intros s pre H.
  - exists pre, s. reflexivity.
  - destruct s as [ | a s]; [discriminate H | ].
    cbn [toLowerCase startsWith] in H. apply andb_true_iff in H. destruct H as [Hc H].
    apply lower_matches in Hc.
    destruct lit as [ | d lit'].
    + exists (String a pre), s. intros cs k. cbn [Lit run]. unfold one.
      rewrite Hc. reflexivity.
    + destruct (IH s (String a pre) H) as [pre' [s' E]].
      exists pre', s'. intros cs k.
      change (Lit (String c (String d lit')))
        with (Seq (Chr c) (Lit (String d lit'))).
      cbn [run]. unfold one. rewrite Hc. apply E.
Qed.

Lemma literal_matches (lit : string) (pre s : string) :
  startsWith (toLowerCase s) (toLowerCase lit) = true ->
  matchHere true (Lit lit) pre s <> None.
Proof.
  intros H. unfold matchHere.
  destruct (literal_here lit s pre H) as [pre' [s' E]].
  rewrite E. discriminate.
Qed.

(** A literal is the sequence of its parts. *)
Lemma run_literal_app (ci : bool) (a b : string) :
  forall (pre s : string) (cs : captures) (k : cont),
    run ci (Lit (a ++ b)) pre s cs k =
    run ci (Lit a) pre s cs (fun pre' s' cs' => run ci (Lit b) pre' s' cs' k).
Proof.
  induction a as [ | c a IH]; intros pre s cs k; [reflexivity | ].
  destruct a as [ | d a'].
  - destruct b as [ | e b']; [reflexivity | ].
    change (Lit ("" ++ String e b')) with (Lit (String e b')).
    reflexivity.
  - change (Lit (String c (String d a') ++ b))
      with (Seq (Chr c) (Lit (String d a' ++ b))).
    change (Lit (String c (String d a'))) with (Seq (Chr c) (Lit (String d a'))).
    cbn [run]. unfold one. destruct s as [ | x s]; [reflexivity | ].
    destruct (chrMatches ci c x); [ | reflexivity]. apply IH.
Qed.

(** From every position to the search. *)
Lemma includes_found (lit : string) (r : regex) :
  (forall pre s, startsWith (toLowerCase s) lit = true -> matchHere true r pre s <> None) ->
  forall s pre, includes (toLowerCase s) lit = true -> search true r pre s <> None.
Proof.
  intros Hhere. induction s as [ | c s IH]; intros pre H.
  - apply search_here, Hhere. cbn [toLowerCase includes] in H.
    rewrite orb_false_r in H. exact H.
  - cbn [toLowerCase includes] in H. apply orb_true_iff in H. destruct H as [H | H].
    + apply search_here, Hhere. exact H.
    + apply search_later, IH. exact H.
Qed.

Lemma alt_left (r1 r2 : regex) (pre s : string) :
  matchHere true r1 pre s <> None -> matchHere true (Alt r1 r2) pre s <> None.
Proof.
  unfold matchHere. cbn [run]. unfold orElse.
  destruct (run true r1 pre s [] accept); [discriminate | congruence].
Qed.

Lemma alt_right (r1 r2 : regex) (pre s : string) :
  matchHere true r2 pre s <> None -> matchHere true (Alt r1 r2) pre s <> None.
Proof.
  unfold matchHere. cbn [run]. unfold orElse.
  destruct (run true r1 pre s [] accept); [discriminate | tauto].
Qed.

Lemma includes_test (lit : string) (r : regex) (label : string) :
  (forall pre s, startsWith (toLowerCase s) lit = true -> matchHere true r pre s <> None) ->
  includes (toLowerCase label) lit = true -> test true r label = true.
Proof.
  intros Hhere H. apply test_true. exact (@includes_found lit r Hhere label "" H).
Qed.

(** X15. Codec precedence: a label that contains [x265] or [hevc], in any
    letter case, is classified as [HEVC], also when it names H.264 or AV1 as
    well. *)
Theorem extractCodec_hevc_first (label : string) :
  includes (toLowerCase label) "x265" = true \/
  includes (toLowerCase label) "hevc" = true ->
  extractCodec label = "HEVC".
Proof.
  intros H. unfold extractCodec.
  assert (T : test true reHevc label = true).
  { destruct H as [H | H].
    - apply (@includes_test "x265" reHevc label); [ | exact H].
      intros pre s Hs. unfold reHevc. cbn [Alts].
      apply alt_left. exact (@literal_matches "x265" pre s Hs).
    - apply (@includes_test "hevc" reHevc label); [ | exact H].
      intros pre s Hs. unfold reHevc. cbn [Alts].
      apply alt_right, alt_left. exact (@literal_matches "hevc" pre s Hs). }
  rewrite T. reflexivity.
Qed.

Lemma extractCodec_hevc_first_witness :
  extractCodec "Movie.2160p.x264.to.HEVC.reencode" = "HEVC".
Proof.
  apply extractCodec_hevc_first. right. vm_compute. reflexivity.
Defined.

(** X16. A label that contains the word [season] or [episode], in any
    letter case and anywhere, is classified as [tv], whether or not it has
    an [SxxEyy] tag. *)
Theorem detectContentType_words (label : string) :
  includes (toLowerCase label) "season" = true \/
  includes (toLowerCase label) "episode" = true ->
  detectContentType label = "tv".
Proof.
  intros H. unfold detectContentType.
  assert (T : test true reTv label = true).
  { destruct H as [H | H].
    - apply (@includes_test "season" reTv label); [ | exact H].
      intros pre s Hs. unfold reTv. cbn [Alts].
      apply alt_right, alt_left. exact (@literal_matches "Season" pre s Hs).
    - apply (@includes_test "episode" reTv label); [ | exact H].
      intros pre s Hs. unfold reTv. cbn [Alts].
      apply alt_right, alt_right. exact (@literal_matches "Episode" pre s Hs). }
  rewrite T. reflexivity.
Qed.

Lemma detectContentType_words_witness :
  detectContentType "Open.Season.2006.1080p.BluRay" = "tv".
Proof.
  apply detectContentType_words. left. vm_compute. reflexivity.
Defined.

Lemma hdr10_here (pre s : string) :
  startsWith (toLowerCase s) "hdr10" = true ->
  matchHere true reHdr10Plus pre s <> None \/
  matchHere true reHdr10NotPlus pre s <> None.
Proof.
  intros H. unfold matchHere, reHdr10Plus, reHdr10NotPlus.
  change (Lit "hdr10+") with (Lit ("hdr10" ++ "+")).
  rewrite run_literal_app. cbn [run].
  destruct (literal_here "hdr10" s pre H) as [pre' [s' E]].
  rewrite !E. change (Lit "+") with (Chr "+"). cbn [run].
  destruct (one (chrMatches true "+") pre' s' [] accept).
  - left. discriminate.
  - right. discriminate.
Qed.

Lemma hdr10_found :
  forall s pre, includes (toLowerCase s) "hdr10" = true ->
    search true reHdr10Plus pre s <> None \/ search true reHdr10NotPlus pre s <> None.
Proof.
  induction s as [ | c s IH]; intros pre H; [discriminate H | ].
  cbn [toLowerCase includes] in H. apply orb_true_iff in H. destruct H as [H | H].
  - destruct (hdr10_here pre (String c s) H) as [Hp | Hn].
    + left. apply search_here, Hp.
    + right. apply search_here, Hn.
  - destruct (IH (String c pre) H) as [Hp | Hn].
    + left. apply search_later, Hp.
    + right. apply search_later, Hn.
Qed.

(** X17. A label that contains [hdr10], in any letter case, is never
    classified as plain [HDR] or as [SDR]: it is [Dolby Vision], [HDR10+] or
    [HDR10]. *)
Theorem extractHDRInfo_hdr10 (label : string) :
  includes (toLowerCase label) "hdr10" = true ->
  extractHDRInfo label = "Dolby Vision" \/
  extractHDRInfo label = "HDR10+" \/
  extractHDRInfo label = "HDR10".
Proof.
  intros H. unfold extractHDRInfo.
  destruct (test true reDolbyVision label); [left; reflexivity | right].
  destruct (test true reHdr10Plus label) eqn:P; [left; reflexivity | right].
  destruct (hdr10_found label "" H) as [Hp | Hn].
  - apply test_true in Hp. congruence.
  - apply test_true in Hn. rewrite Hn. reflexivity.
Qed.

Lemma extractHDRInfo_hdr10_witness :
  extractHDRInfo "Show.S02.2160p.HDR10.HEVC" = "Dolby Vision" \/
  extractHDRInfo "Show.S02.2160p.HDR10.HEVC" = "HDR10+" \/
  extractHDRInfo "Show.S02.2160p.HDR10.HEVC" = "HDR10".
Proof.
  apply extractHDRInfo_hdr10. vm_compute. reflexivity.
Defined.

(** *** Cleaning never adds anything *)

Lemma removeFrom_length (ci : bool) (r : regex) :
  forall fuel pre s,
    (String.length (removeFrom fuel ci r pre s) <= String.length s)%nat.
Proof.
  induction fuel as [ | fuel IH]; intros pre s; [apply le_n | ].
  cbn [removeFrom].
  assert (Hstep : (String.length
                     match s with
                     | EmptyString => EmptyString
                     | String c s'' => String c (removeFrom fuel ci r (String c pre) s'')
                     end <= String.length s)%nat).
  { destruct s as [ | c s'']; [apply le_n | ].
    cbn [String.length]. apply le_n_S, IH. }
  destruct (matchHere ci r pre s) as [[[pre' s'] cs] | ]; [ | exact Hstep].
  destruct (Nat.ltb_spec (String.length s') (String.length s)); [ | exact Hstep].
  specialize (IH pre' s'). lia.
Qed.

Lemma removeAll_length (ci : bool) (r : regex) (s : string) :
  (String.length (removeAll ci r s) <= String.length s)%nat.
Proof. apply removeFrom_length. Qed.

Lemma trimStart_length (s : string) :
  (String.length (trimStart s) <= String.length s)%nat.
Proof.
  induction s as [ | c s IH]; [apply le_n | ].
  cbn [trimStart]. destruct (isWhiteSpace c); [cbn [String.length]; lia | apply le_n].
Qed.

Lemma trimEnd_length (s : string) :
  (String.length (trimEnd s) <= String.length s)%nat.
Proof.
  induction s as [ | c s IH]; [apply le_n | ].
  cbn [trimEnd]. destruct (trimEnd s) as [ | d r'].
  - destruct (isWhiteSpace c); cbn [String.length]; lia.
  - cbn [String.length] in IH |- *. lia.
Qed.

(** X18. A cleaned title is never longer than the title it comes from,
    and it has no white space at either end: trimming it again changes
    nothing. *)
Theorem cleanTitle_shrinks_and_is_trimmed (title : string) :
  (String.length (cleanTitle title) <= String.length title)%nat /\
  trim (cleanTitle title) = cleanTitle title.
Proof.
  split.
  - unfold cleanTitle, trim.
    eapply Nat.le_trans; [apply trimEnd_length | ].
    eapply Nat.le_trans; [apply trimStart_length | ].
    do 4 (eapply Nat.le_trans; [apply removeAll_length | ]).
    apply removeAll_length.
  - unfold cleanTitle. apply trim_idempotent.
Qed.

End Labels.

Module ScanInvariants.
Import JsString APIManager Scanner ScanNotions.

Section AnyCollaborators.

Variable World : Type.
Variable getRealDebridTorrents : string -> World -> reply (list Torrent.t) * World.
Variable addMagnetToRealDebrid : string -> option string -> World -> reply unit * World.
Variable deleteRealDebridTorrent : string -> string -> World -> bool * World.
Variable findAllMatchingContent :
  string -> string -> World -> outcome (list Metadata.t) * World.

Local Notation scan :=
  (checkForQualityUpgrades getRealDebridTorrents addMagnetToRealDebrid
     deleteRealDebridTorrent findAllMatchingContent).
Local Notation check :=
  (checkTorrent addMagnetToRealDebrid deleteRealDebridTorrent findAllMatchingContent).
Local Notation submit :=
  (submitUpgrade addMagnetToRealDebrid deleteRealDebridTorrent).

Variable rdApiKey : string.
Variable preferences : Preferences.t.

(** What one submission does to the state. *)
Lemma submit_effect (torrent : Torrent.t) (cm m : Metadata.t)
    (st st' : store World) (o : outcome unit) :
  submit rdApiKey preferences torrent cm m st = (o, st') ->
  o = Returned tt /\
  checkedTorrents (results st') = checkedTorrents (results st) /\
  upgradesFound (results st') = upgradesFound (results st) /\
  (upgradesAdded (results st') + List.length (errors (results st'))
   = upgradesAdded (results st) + List.length (errors (results st)) + 1)%nat /\
  (upgradesAdded (results st) <= upgradesAdded (results st'))%nat /\
  exists subs,
    calls st' = (calls st ++ subs)%list /\
    Forall (fun c => isSubmission c = true) subs /\
    (Preferences.deleteOldAfterUpgrade preferences = false ->
     Forall (fun c => isDeletion c = false) subs).
Proof.
  unfold submitUpgrade, bind, perform, update, ret.
  destruct (addMagnetToRealDebrid rdApiKey (Metadata.magnet m) (world st))
    as [[[] | err] w1].
  - destruct (Preferences.deleteOldAfterUpgrade preferences) eqn:D.
    + cbv beta iota zeta delta [world].
      destruct (deleteRealDebridTorrent rdApiKey (Torrent.id torrent) w1) as [b w2].
      intros H. inversion H. subst o st'. clear H.
      cbn [results calls upgradesAdded upgradesFound checkedTorrents errors incrAdded].
      repeat split; try lia.
      eexists. split; [rewrite <- app_assoc; reflexivity | ].
      split; [repeat constructor | discriminate].
    + intros H. inversion H. subst o st'. clear H.
      cbn [results calls upgradesAdded upgradesFound checkedTorrents errors incrAdded].
      repeat split; try lia.
      eexists. split; [reflexivity | ].
      split; [repeat constructor | intros _; repeat constructor].
  - intros H. inversion H. subst o st'. clear H.
    cbn [results calls upgradesAdded upgradesFound checkedTorrents errors pushError].
    rewrite length_app. cbn [List.length].
    repeat split; try lia.
    eexists. split; [reflexivity | ].
    split; [repeat constructor | intros _; repeat constructor].
Qed.

Lemma submits_effect (torrent : Torrent.t) (cm : Metadata.t) (ms : list Metadata.t) :
  forall (st st' : store World) (o : outcome unit),
    forEach (submit rdApiKey preferences torrent cm) ms st = (o, st') ->
    o = Returned tt /\
    checkedTorrents (results st') = checkedTorrents (results st) /\
    upgradesFound (results st') = upgradesFound (results st) /\
    (upgradesAdded (results st') + List.length (errors (results st'))
     = upgradesAdded (results st) + List.length (errors (results st))
       + List.length ms)%nat /\
    (upgradesAdded (results st) <= upgradesAdded (results st'))%nat /\
    exists subs,
      calls st' = (calls st ++ subs)%list /\
      Forall (fun c => isSubmission c = true) subs /\
      (Preferences.deleteOldAfterUpgrade preferences = false ->
       Forall (fun c => isDeletion c = false) subs).
Proof.
  induction ms as [ | m ms IH]; intros st st' o H.
  - cbn [forEach] in H. unfold ret in H. inversion H. subst o st'.
    repeat split; try (cbn [List.length]; lia).
    exists []. rewrite app_nil_r. repeat split; constructor.
  - cbn [forEach] in H. unfold bind in H.
    destruct (submit rdApiKey preferences torrent cm m st) as [o1 st1] eqn:E1.
    destruct (submit_effect _ _ _ _ E1)
      as [Ho [Hc [Hf [Hsum [Hle [subs1 [Hcalls [Hsub Hdel]]]]]]]].
    subst o1.
    destruct (IH _ _ _ H)
      as [Ho' [Hc' [Hf' [Hsum' [Hle' [subs2 [Hcalls' [Hsub' Hdel']]]]]]]].
    cbn [List.length]. repeat split; try lia; try assumption.
    exists (subs1 ++ subs2)%list. rewrite Hcalls', Hcalls, app_assoc.
    split; [reflexivity | ]. split; [apply Forall_app; split; assumption | ].
    intros D. apply Forall_app. split; [apply Hdel, D | apply Hdel', D].
Qed.

Lemma submission_not_search (c : call) : isSubmission c = true -> isSearch c = false.
Proof. destruct c; cbn; intros H; congruence. Qed.

Lemma filter_search_submissions (subs : list call) :
  Forall (fun c => isSubmission c = true) subs -> filter isSearch subs = [].
Proof.
  induction 1 as [ | c subs Hc _ IH]; [reflexivity | ].
  cbn [filter]. rewrite (submission_not_search _ Hc). exact IH.
Qed.

(** What checking one torrent does to the state. *)
Lemma check_effect (torrent : Torrent.t) (st st' : store World) (o : outcome unit) :
  check rdApiKey preferences torrent st = (o, st') ->
  checkedTorrents (results st') = checkedTorrents (results st) /\
  (upgradesAdded (results st) <= upgradesAdded (results st'))%nat /\
  (exists n,
     upgradesFound (results st') = (upgradesFound (results st) + n)%nat /\
     (Preferences.autoUpgrade preferences = true ->
      (upgradesAdded (results st') + List.length (errors (results st'))
       = upgradesAdded (results st) + List.length (errors (results st)) + n)%nat) /\
     (Preferences.autoUpgrade preferences = false ->
      upgradesAdded (results st') = upgradesAdded (results st) /\
      errors (results st') = errors (results st))) /\
  (exists subs,
     calls st' = (calls st ++ (if downloaded torrent then [searchFor torrent] else [])
                    ++ subs)%list /\
     Forall (fun c => isSubmission c = true) subs /\
     (Preferences.autoUpgrade preferences = false -> subs = []) /\
     (Preferences.deleteOldAfterUpgrade preferences = false ->
      Forall (fun c => isDeletion c = false) subs) /\
     (o <> Returned tt -> subs = [] /\ downloaded torrent = true)).
Proof.
  unfold checkTorrent, downloaded, searchFor.
  destruct (Torrent.status torrent =? "downloaded") eqn:Dl; cbn [negb].
  - cbv zeta. unfold findBetterQualityMatches, bind at 1 2, performOrThrow, ret.
    destruct (findAllMatchingContent _ _ (world st)) as [[found | msg] w1].
    + set (better := selectBetterMatches found _ preferences).
      destruct (0 <? List.length better)%nat.
      * unfold bind, update. cbn [world calls results].
        destruct (Preferences.autoUpgrade preferences) eqn:A.
        -- intros H. apply submits_effect in H.
           destruct H as [Ho [Hc [Hf [Hsum [Hle [subs [Hcalls [Hsub Hdel]]]]]]]].
           cbn [results calls upgradesAdded upgradesFound checkedTorrents errors addFound]
             in Hc, Hf, Hsum, Hle, Hcalls.
           split; [exact Hc | ]. split; [exact Hle | ]. split.
           ++ exists (List.length better). split; [exact Hf | ].
              split; [intros _; lia | discriminate].
           ++ exists subs. rewrite Hcalls, <- app_assoc.
              split; [reflexivity | ]. split; [exact Hsub | ].
              split; [discriminate | ]. split; [exact Hdel | ].
              intros N. contradiction.
        -- unfold ret. intros H. inversion H. subst o st'. clear H.
           cbn [results calls upgradesAdded upgradesFound checkedTorrents errors addFound].
           split; [reflexivity | ]. split; [apply le_n | ]. split.
           ++ exists (List.length better). split; [reflexivity | ].
              split; [discriminate | intros _; split; reflexivity].
           ++ exists []. rewrite app_nil_r.
              split; [reflexivity | ]. split; [constructor | ].
              split; [reflexivity | ]. split; [intros _; constructor | ].
              intros N. contradiction.
      * intros H. inversion H. subst o st'. clear H.
        cbn [results calls].
        split; [reflexivity | ]. split; [apply le_n | ]. split.
        -- exists 0%nat. split; [lia | ]. split; [intros _; lia | intros _; split; reflexivity].
        -- exists []. rewrite app_nil_r.
           split; [reflexivity | ]. split; [constructor | ].
           split; [reflexivity | ]. split; [intros _; constructor | ].
           intros N. contradiction.
    + intros H. inversion H. subst o st'. clear H. cbn [results calls].
      split; [reflexivity | ]. split; [apply le_n | ]. split.
      * exists 0%nat. split; [lia | ]. split; [intros _; lia | intros _; split; reflexivity].
      * exists []. rewrite app_nil_r.
        split; [reflexivity | ]. split; [constructor | ].
        split; [reflexivity | ]. split; [intros _; constructor | ].
        intros _. split; reflexivity.
  - unfold ret. intros H. inversion H. subst o st'. clear H.
    split; [reflexivity | ]. split; [apply le_n | ]. split.
    + exists 0%nat. split; [lia | ]. split; [intros _; lia | intros _; split; reflexivity].
    + exists []. rewrite !app_nil_r.
      split; [reflexivity | ]. split; [constructor | ].
      split; [reflexivity | ]. split; [intros _; constructor | ].
      intros N. contradiction.
Qed.

Lemma firstn_app_whole {A : Type} (l1 l2 : list A) (k : nat) :
  (l1 ++ firstn k l2)%list = firstn (List.length l1 + k) (l1 ++ l2)%list.
Proof.
  induction l1 as [ | x l1 IH]; [reflexivity | ].
  cbn [app List.length Nat.add firstn]. rewrite IH. reflexivity.
Qed.

(** What checking the torrents of a list, one after the other, does to the
    state. *)
Lemma checks_effect (ts : list Torrent.t) :
  forall (st st' : store World) (o : outcome unit),
    forEach (check rdApiKey preferences) ts st = (o, st') ->
    checkedTorrents (results st') = checkedTorrents (results st) /\
    (upgradesAdded (results st) <= upgradesAdded (results st'))%nat /\
    (exists n,
       upgradesFound (results st') = (upgradesFound (results st) + n)%nat /\
       (Preferences.autoUpgrade preferences = true ->
        (upgradesAdded (results st') + List.length (errors (results st'))
         = upgradesAdded (results st) + List.length (errors (results st)) + n)%nat) /\
       (Preferences.autoUpgrade preferences = false ->
        upgradesAdded (results st') = upgradesAdded (results st) /\
        errors (results st') = errors (results st))) /\
    (exists new,
       calls st' = (calls st ++ new)%list /\
       (exists k, filter isSearch new
                  = firstn k (map searchFor (filter downloaded ts))) /\
       (o = Returned tt ->
        filter isSearch new = map searchFor (filter downloaded ts)) /\
       (Preferences.autoUpgrade preferences = false ->
        Forall (fun c => isSubmission c = false) new) /\
       (Preferences.deleteOldAfterUpgrade preferences = false ->
        Forall (fun c => isDeletion c = false) new) /\
       Forall (fun c => isListing c = false) new).
Proof.
  induction ts as [ | t ts IH]; intros st st' o H.
  - cbn [forEach] in H. unfold ret in H. inversion H. subst o st'.
    split; [reflexivity | ]. split; [apply le_n | ]. split.
    + exists 0%nat. split; [lia | ]. split; [intros _; lia | intros _; split; reflexivity].
    + exists []. rewrite app_nil_r. split; [reflexivity | ].
      split; [exists 0%nat; reflexivity | ]. split; [reflexivity | ].
      split; [intros _; constructor | ]. split; [intros _; constructor | constructor].
  - cbn [forEach] in H. unfold bind in H.
    destruct (check rdApiKey preferences t st) as [o1 st1] eqn:E1.
    destruct (check_effect _ _ E1)
      as [Hc [Hle [[n1 [Hf [Hsum Hno]]] [subs [Hcalls [Hsub [Hnone [Hdel Hthrow]]]]]]]].
    assert (Hpre : filter isSearch
                     ((if downloaded t then [searchFor t] else []) ++ subs)%list
                   = (if downloaded t then [searchFor t] else [])).
    { rewrite filter_app, (filter_search_submissions Hsub), app_nil_r.
      destruct (downloaded t); reflexivity. }
    assert (Hsubm : Preferences.autoUpgrade preferences = false ->
                    Forall (fun c => isSubmission c = false)
                      ((if downloaded t then [searchFor t] else []) ++ subs)%list).
    { intros A. rewrite (Hnone A), app_nil_r.
      destruct (downloaded t); repeat constructor. }
    assert (Hdelm : Preferences.deleteOldAfterUpgrade preferences = false ->
                    Forall (fun c => isDeletion c = false)
                      ((if downloaded t then [searchFor t] else []) ++ subs)%list).
    { intros D. apply Forall_app. split; [ | apply Hdel, D].
      destruct (downloaded t); repeat constructor. }
    assert (Hlist : Forall (fun c => isListing c = false)
                      ((if downloaded t then [searchFor t] else []) ++ subs)%list).
    { apply Forall_app. split; [destruct (downloaded t); repeat constructor | ].
      revert Hsub. apply Forall_impl. intros c. destruct c; cbn; congruence. }
    destruct o1 as [[] | msg].
    + destruct (IH _ _ _ H)
        as [Hc' [Hle' [[n2 [Hf' [Hsum' Hno']]]
                         [new [Hcalls' [[k Hk] [Hall [Hs' [Hd' Hl']]]]]]]]].
      split; [congruence | ]. split; [lia | ]. split.
      * exists (n1 + n2)%nat. split; [lia | ]. split.
        -- intros A. specialize (Hsum A). specialize (Hsum' A). lia.
        -- intros A. destruct (Hno A) as [Ha He]. destruct (Hno' A) as [Ha' He'].
           split; congruence.
      * exists (((if downloaded t then [searchFor t] else []) ++ subs) ++ new)%list.
        split; [rewrite Hcalls', Hcalls, <- !app_assoc; reflexivity | ].
        rewrite filter_app, Hpre. cbn [filter].
        split; [ | split; [ | split; [ | split]]].
        -- rewrite Hk. destruct (downloaded t).
           ++ exists (S k). reflexivity.
           ++ exists k. reflexivity.
        -- intros Ho. rewrite (Hall Ho). destruct (downloaded t); reflexivity.
        -- intros A. apply Forall_app. split; [apply Hsubm, A | apply Hs', A].
        -- intros D. apply Forall_app. split; [apply Hdelm, D | apply Hd', D].
        -- apply Forall_app. split; [exact Hlist | exact Hl'].
    + inversion H. subst o st'. clear H.
      destruct Hthrow as [Hsubs Hdown]; [discriminate | ].
      split; [exact Hc | ]. split; [exact Hle | ]. split.
      * exists n1. split; [exact Hf | ]. split; assumption.
      * exists ((if downloaded t then [searchFor t] else []) ++ subs)%list.
        split; [exact Hcalls | ].
        split; [rewrite Hpre, Hdown; cbn [filter]; rewrite Hdown;
                exists 1%nat; reflexivity | ].
        split; [discriminate | ]. split; [assumption | ]. split; assumption.
Qed.

(** The scan, spelled out by what the listing answers and how the loop
    ends. *)
Lemma scan_cases (contentType : option string) (st : store World) :
  match getRealDebridTorrents rdApiKey (world st) with
  | (Failure _, w1) =>
      scan rdApiKey preferences contentType st =
      (let r := pushError "Failed to get current torrents" emptyResults in
       (Returned r,
        {| world := w1; calls := (calls st ++ [GetRealDebridTorrents rdApiKey])%list;
           results := r |}))
  | (Success ts, w1) =>
      let filtered := filterByContentType contentType ts in
      match forEach (check rdApiKey preferences) filtered
              {| world := w1;
                 calls := (calls st ++ [GetRealDebridTorrents rdApiKey])%list;
                 results := setChecked (List.length filtered) emptyResults |} with
      | (Returned _, st2) =>
          scan rdApiKey preferences contentType st = (Returned (results st2), st2)
      | (Thrown msg, st2) =>
          scan rdApiKey preferences contentType st =
          (let r := pushError ("Quality upgrade check error: " ++ msg) (results st2) in
           (Returned r, {| world := world st2; calls := calls st2; results := r |}))
      end
  end.
Proof.
  unfold checkForQualityUpgrades, bind, tryCatch, update, perform, getResults,
    checkErrorHandler.
  cbn [world calls results].
  destruct (getRealDebridTorrents rdApiKey (world st)) as [[ts | err] w1].
  - cbv zeta. cbn [world calls results].
    destruct (forEach _ (filterByContentType contentType ts) _) as [[[] | msg] st2].
    + destruct st2; reflexivity.
    + reflexivity.
  - reflexivity.
Qed.

(** X19. The counters of a report are consistent.  Never more upgrades
    are added than were found.  Without [autoUpgrade] none is added and the
    report holds at most one error.  With [autoUpgrade] every found upgrade
    is either added or reported as an error, and at most one further error
    (the listing that failed, or the exception that ended the scan) is
    reported. *)
Theorem report_counts (contentType : option string) (st st' : store World)
    (r : Results) :
  scan rdApiKey preferences contentType st = (Returned r, st') ->
  (upgradesAdded r <= upgradesFound r)%nat /\
  (Preferences.autoUpgrade preferences = false ->
   upgradesAdded r = 0%nat /\ (List.length (errors r) <= 1)%nat) /\
  (Preferences.autoUpgrade preferences = true ->
   (upgradesFound r <= upgradesAdded r + List.length (errors r) <= upgradesFound r + 1)%nat).
Proof.
  pose proof (scan_cases contentType st) as C.
  destruct (getRealDebridTorrents rdApiKey (world st)) as [[ts | err] w1].
  - cbv zeta in C.
    destruct (forEach _ (filterByContentType contentType ts) _) as [o st2] eqn:E.
    apply checks_effect in E.
    destruct E as [_ [Hle [[n [Hf [Hsum Hno]]] _]]].
    cbn [results upgradesAdded upgradesFound errors setChecked emptyResults List.length]
      in Hle, Hf, Hsum, Hno.
    assert (Hbase : (upgradesAdded (results st2) <= upgradesFound (results st2))%nat).
    { destruct (Preferences.autoUpgrade preferences).
      - specialize (Hsum eq_refl). lia.
      - destruct (Hno eq_refl) as [Ha _]. lia. }
    destruct o as [[] | msg]; rewrite C; intros H; inversion H; subst r st'; clear H.
    + split; [exact Hbase | ]. split.
      * intros A. destruct (Hno A) as [Ha He]. rewrite Ha, He. cbn [List.length]. lia.
      * intros A. specialize (Hsum A). lia.
    + cbn [upgradesAdded upgradesFound errors pushError]. rewrite length_app.
      cbn [List.length]. split; [exact Hbase | ]. split.
      * intros A. destruct (Hno A) as [Ha He]. rewrite Ha, He. cbn [List.length]. lia.
      * intros A. specialize (Hsum A). lia.
  - rewrite C. intros H. inversion H. subst r st'. clear H.
    cbn. split; [lia | ]. split; intros _; lia.
Qed.

(** X20. What the scan never does.  Without [autoUpgrade] it submits
    nothing and deletes nothing; without [deleteOldAfterUpgrade] it deletes
    nothing; and it lists the held torrents exactly once, before anything
    else. *)
Theorem scan_restraint (contentType : option string) (st st' : store World)
    (o : outcome Results) :
  scan rdApiKey preferences contentType st = (o, st') ->
  exists new,
    calls st' = (calls st ++ GetRealDebridTorrents rdApiKey :: new)%list /\
    Forall (fun c => isListing c = false) new /\
    (Preferences.autoUpgrade preferences = false ->
     Forall (fun c => isSubmission c = false) new) /\
    (Preferences.deleteOldAfterUpgrade preferences = false ->
     Forall (fun c => isDeletion c = false) new).
Proof.
  pose proof (scan_cases contentType st) as C.
  destruct (getRealDebridTorrents rdApiKey (world st)) as [[ts | err] w1].
  - cbv zeta in C.
    destruct (forEach _ (filterByContentType contentType ts) _) as [o2 st2] eqn:E.
    apply checks_effect in E.
    destruct E as [_ [_ [_ [new [Hcalls [_ [_ [Hs [Hd Hl]]]]]]]]].
    cbn [calls] in Hcalls.
    destruct o2 as [[] | msg]; rewrite C; intros H; inversion H; subst o st'; clear H;
      cbn [calls]; exists new;
      (split; [rewrite Hcalls, <- app_assoc; reflexivity | ]);
      (split; [exact Hl | ]); (split; assumption).
  - rewrite C. intros H. inversion H. subst o st'. clear H.
    cbn [calls]. exists []. split; [reflexivity | ].
    split; [constructor | ]. split; intros _; constructor.
Qed.

Local Notation searchAnswer := (searchAnswer findAllMatchingContent).
Local Notation reaches :=
  (reaches addMagnetToRealDebrid deleteRealDebridTorrent findAllMatchingContent
     rdApiKey preferences).
Local Notation allAnswered :=
  (allAnswered addMagnetToRealDebrid deleteRealDebridTorrent findAllMatchingContent
     rdApiKey preferences).
Local Notation searchedAll :=
  (searchedAll addMagnetToRealDebrid deleteRealDebridTorrent findAllMatchingContent
     rdApiKey preferences).
Local Notation stoppedAtThrow :=
  (stoppedAtThrow addMagnetToRealDebrid deleteRealDebridTorrent findAllMatchingContent
     rdApiKey preferences).

(** A check throws only when its search does, and nothing follows. *)
Lemma check_thrown (torrent : Torrent.t) (st st' : store World) (message : string) :
  check rdApiKey preferences torrent st = (Thrown message, st') ->
  downloaded torrent = true /\
  exists w2,
    searchAnswer torrent st = (Thrown message, w2) /\
    st' = {| world := w2; calls := (calls st ++ [searchFor torrent])%list;
             results := results st |}.
Proof.
  unfold checkTorrent, downloaded, searchFor, ScanNotions.searchAnswer.
  destruct (Torrent.status torrent =? "downloaded") eqn:Dl; cbn [negb].
  - cbv zeta. unfold findBetterQualityMatches, bind at 1 2, performOrThrow, ret.
    destruct (findAllMatchingContent _ _ (world st)) as [[found | msg] w1].
    + set (better := selectBetterMatches found _ preferences).
      destruct (0 <? List.length better)%nat.
      * unfold bind, update. cbn [world calls results].
        destruct (Preferences.autoUpgrade preferences).
        -- intros H. apply submits_effect in H. destruct H as [H _]. discriminate H.
        -- unfold ret. intros H. discriminate H.
      * intros H. discriminate H.
    + intros H. inversion H. subst msg st'. clear H.
      split; [reflexivity | ]. exists w1. split; reflexivity.
  - unfold ret. intros H. discriminate H.
Qed.

(** A check of a downloaded torrent that returns had its search answered. *)
Lemma check_returned (torrent : Torrent.t) (st st' : store World) :
  check rdApiKey preferences torrent st = (Returned tt, st') ->
  downloaded torrent = true ->
  exists found w, searchAnswer torrent st = (Returned found, w).
Proof.
  unfold checkTorrent, downloaded, ScanNotions.searchAnswer. intros H Dl.
  rewrite Dl in H. cbn [negb] in H. cbv zeta in H.
  unfold findBetterQualityMatches, bind at 1 2, performOrThrow, ret in H.
  cbv zeta.
  destruct (findAllMatchingContent _ _ (world st)) as [[found | msg] w1].
  - exists found, w1. reflexivity.
  - discriminate H.
Qed.

Lemma allAnswered_nil (st0 : store World) : allAnswered [] st0.
Proof. intros [ | i] torrent H; discriminate H. Qed.

Lemma allAnswered_cons (t0 : Torrent.t) (ts : list Torrent.t) (st0 s1 : store World) :
  check rdApiKey preferences t0 st0 = (Returned tt, s1) ->
  allAnswered ts s1 -> allAnswered (t0 :: ts) st0.
Proof.
  intros E H [ | i] torrent Hn Hd.
  - cbn [nth_error] in Hn. inversion Hn. subst torrent.
    destruct (@check_returned _ _ _ E Hd) as [found [w Hf]].
    exists st0, found, w. split; [reflexivity | exact Hf].
  - cbn [nth_error] in Hn.
    destruct (H i torrent Hn Hd) as [st1 [found [w [Hr Hf]]]].
    exists st1, found, w. split; [ | exact Hf].
    unfold ScanNotions.reaches. cbn [firstn forEach]. unfold bind at 1.
    rewrite E. exact Hr.
Qed.

(** How the loop ends: at the end of the list, every search answered; or
    at the first search that throws. *)
Lemma loop_cases (ts : list Torrent.t) :
  forall (st0 st2 : store World) (o : outcome unit),
    forEach (check rdApiKey preferences) ts st0 = (o, st2) ->
    (o = Returned tt /\ allAnswered ts st0) \/
    (exists i torrent message st1 w2,
        nth_error ts i = Some torrent /\ downloaded torrent = true /\
        reaches ts st0 i st1 /\
        allAnswered (firstn i ts) st0 /\
        searchAnswer torrent st1 = (Thrown message, w2) /\
        o = Thrown message /\
        st2 = {| world := w2; calls := (calls st1 ++ [searchFor torrent])%list;
                 results := results st1 |}).
Proof.
  induction ts as [ | t0 ts IH]; intros st0 st2 o H.
  - cbn [forEach] in H. unfold ret in H. inversion H. subst o st2.
    left. split; [reflexivity | apply allAnswered_nil].
  - cbn [forEach] in H. unfold bind at 1 in H.
    destruct (check rdApiKey preferences t0 st0) as [[[] | msg] s1] eqn:E.
    + destruct (IH _ _ _ H)
        as [[Ho Hall] | [i [torrent [message [st1 [w2 [Hn [Hd [Hr [Ha [Hs [Ho Hst]]]]]]]]]]]].
      * left. split; [exact Ho | exact (@allAnswered_cons _ _ _ _ E Hall)].
      * right. exists (S i), torrent, message, st1, w2.
        split; [exact Hn | ]. split; [exact Hd | ].
        split; [unfold ScanNotions.reaches; cbn [firstn forEach]; unfold bind at 1;
                rewrite E; exact Hr | ].
        split; [cbn [firstn]; exact (@allAnswered_cons _ _ _ _ E Ha) | ].
        split; [exact Hs | ]. split; assumption.
    + inversion H. subst o st2. clear H.
      destruct (@check_thrown _ _ _ _ E) as [Hd [w2 [Hs Hst]]].
      right. exists 0%nat, t0, msg, st0, w2.
      split; [reflexivity | ]. split; [exact Hd | ].
      split; [reflexivity | ]. split; [apply allAnswered_nil | ].
      split; [exact Hs | ]. split; [reflexivity | exact Hst].
Qed.

(** X21. Which torrents are searched.  When the listing fails, nothing is
    searched and the report is [Failed to get current torrents] with all
    counters at zero.  Otherwise [checkedTorrents] is the number of torrents
    of the requested content type, and the loop over them ends in one of two
    ways.  Either no search throws in this run: then the searches made are
    those for the downloaded torrents among them, in snapshot order, once
    each, and each of them answered.  Or some search throws: then the
    searches made are those for the downloaded torrents before the first
    one whose search throws, which all answered, followed by that search;
    it is the last call of the scan, and the report is the one built so far
    with [Quality upgrade check error: <message>] added at its end. *)
Theorem scan_searches (contentType : option string) (st st' : store World)
    (r : Results) :
  scan rdApiKey preferences contentType st = (Returned r, st') ->
  match getRealDebridTorrents rdApiKey (world st) with
  | (Failure _, _) =>
      filter isSearch (skipn (List.length (calls st)) (calls st')) = [] /\
      r = {| checkedTorrents := 0; upgradesFound := 0; upgradesAdded := 0;
             errors := ["Failed to get current torrents"] |}
  | (Success ts, w1) =>
      let filtered := filterByContentType contentType ts in
      let st0 := listed rdApiKey st w1 (List.length filtered) in
      checkedTorrents r = List.length filtered /\
      (searchedAll filtered st0 st' r \/ stoppedAtThrow filtered st0 st' r)
  end.
Proof.
  pose proof (scan_cases contentType st) as C.
  destruct (getRealDebridTorrents rdApiKey (world st)) as [[ts | err] w1].
  - cbv zeta in C |- *. fold (listed rdApiKey st w1
                                 (List.length (filterByContentType contentType ts))) in C.
    set (filtered := filterByContentType contentType ts) in *.
    set (st0 := listed rdApiKey st w1 (List.length filtered)) in *.
    destruct (forEach _ filtered st0) as [o2 st2] eqn:E.
    pose proof (@checks_effect _ _ _ _ E) as [Hc [_ [_ [new [Hcalls [_ [Hall _]]]]]]].
    cbn [calls results checkedTorrents setChecked listed] in Hc.
    destruct (@loop_cases _ _ _ _ E)
      as [[Ho Hans] | [i [torrent [message [st1 [w2 [Hn [Hd [Hr [Ha [Hs [Ho Hst]]]]]]]]]]]];
      subst o2; rewrite C; intros H; inversion H; subst r st'; clear H.
    + split; [exact Hc | ]. left.
      split; [exact E | ]. split; [reflexivity | ]. split; [ | exact Hans].
      unfold searchesSince. rewrite Hcalls, skipn_app, skipn_all, Nat.sub_diag.
      cbn [skipn app]. apply Hall. reflexivity.
    + pose proof (@checks_effect _ _ _ _ Hr) as [Hc1 [_ [_ [new1 [Hcalls1 [_ [Hall1 _]]]]]]].
      cbn [calls results checkedTorrents setChecked listed] in Hc1.
      subst st2. cbn [world calls results checkedTorrents pushError].
      split; [exact Hc1 | ]. right.
      exists i, torrent, message, st1, w2.
      split; [exact Hn | ]. split; [exact Hd | ]. split; [exact Hr | ].
      split; [exact Ha | ]. split; [exact Hs | ].
      split; [ | split; [reflexivity | split; reflexivity]].
      unfold searchesSince. cbn [calls].
      rewrite Hcalls1, <- app_assoc, skipn_app, skipn_all, Nat.sub_diag.
      cbn [skipn app]. rewrite filter_app, (Hall1 eq_refl). reflexivity.
  - rewrite C. intros H. inversion H. subst r st'. clear H.
    cbn [calls]. rewrite skipn_app, skipn_all, Nat.sub_diag. split; reflexivity.
Qed.

End AnyCollaborators.

(** *** Runs with concrete collaborators *)

Import Demo.

Lemma report_counts_witness :
  let r := {| checkedTorrents := 2; upgradesFound := 2; upgradesAdded := 0;
              errors := ["Failed to upgrade Movie.A.720p: Failed to add magnet";
                         "Failed to upgrade Movie.B.720p: Failed to add magnet"] |} in
  (upgradesAdded r <= upgradesFound r)%nat /\
  (Preferences.autoUpgrade upgradeTo1080 = false ->
   upgradesAdded r = 0%nat /\ (List.length (errors r) <= 1)%nat) /\
  (Preferences.autoUpgrade upgradeTo1080 = true ->
   (upgradesFound r <= upgradesAdded r + List.length (errors r) <= upgradesFound r + 1)%nat).
Proof.
  cbv zeta.
  apply (@report_counts World (holding [heldMovieA; heldMovieB]) addFails
           deleteSucceeds (searchFinds [betterMovieA]) "key" upgradeTo1080 None
           (start 0)
           (snd (checkForQualityUpgrades (holding [heldMovieA; heldMovieB]) addFails
                   deleteSucceeds (searchFinds [betterMovieA]) "key" upgradeTo1080 None
                   (start 0)))).
  vm_compute. reflexivity.
Defined.

Lemma scan_restraint_witness :
  exists new,
    calls (snd (checkForQualityUpgrades (holding [heldMovieA; heldMovieB]) addSucceeds
                  deleteSucceeds (searchFinds [betterMovieA]) "key" upgradeTo1080 None
                  (start 0)))
    = ([] ++ GetRealDebridTorrents "key" :: new)%list /\
    Forall (fun c => isListing c = false) new /\
    (Preferences.autoUpgrade upgradeTo1080 = false ->
     Forall (fun c => isSubmission c = false) new) /\
    (Preferences.deleteOldAfterUpgrade upgradeTo1080 = false ->
     Forall (fun c => isDeletion c = false) new).
Proof.
  apply (@scan_restraint World (holding [heldMovieA; heldMovieB]) addSucceeds
           deleteSucceeds (searchFinds [betterMovieA]) "key" upgradeTo1080 None
           (start 0) _
           (fst (checkForQualityUpgrades (holding [heldMovieA; heldMovieB]) addSucceeds
                   deleteSucceeds (searchFinds [betterMovieA]) "key" upgradeTo1080 None
                   (start 0)))).
  vm_compute. reflexivity.
Defined.

Lemma scan_searches_witness :
  let held := [queuedMovie; heldMovieA; heldEpisode; heldMovieB] in
  let run := checkForQualityUpgrades (holding held) addSucceeds deleteSucceeds
               (DemoChoice.searchThrowsFrom 2) "key" upgradeTo1080 (Some "movie")
               (start 0) in
  let filtered := filterByContentType (Some "movie") held in
  let st0 := listed "key" (start 0) 1%nat (List.length filtered) in
  let r := {| checkedTorrents := 3; upgradesFound := 0; upgradesAdded := 0;
              errors := ["Quality upgrade check error: index unavailable"] |} in
  checkedTorrents r = List.length filtered /\
  (searchedAll addSucceeds deleteSucceeds (DemoChoice.searchThrowsFrom 2) "key"
     upgradeTo1080 filtered st0 (snd run) r \/
   stoppedAtThrow addSucceeds deleteSucceeds (DemoChoice.searchThrowsFrom 2) "key"
     upgradeTo1080 filtered st0 (snd run) r).
Proof.
  cbv zeta.
  apply (@scan_searches World
           (holding [queuedMovie; heldMovieA; heldEpisode; heldMovieB])
           addSucceeds deleteSucceeds (DemoChoice.searchThrowsFrom 2) "key"
           upgradeTo1080 (Some "movie") (start 0)).
  vm_compute. reflexivity.
Defined.

(** That run: the first movie is searched and the index answers; the
    search for the second throws, and it is the last call of the scan. *)
Example scan_stops_at_first_throw :
  let held := [queuedMovie; heldMovieA; heldEpisode; heldMovieB; heldMovieA] in
  let run := checkForQualityUpgrades (holding held) addSucceeds deleteSucceeds
               (DemoChoice.searchThrowsFrom 2) "key" upgradeTo1080 (Some "movie")
               (start 0) in
  calls (snd run)
  = [GetRealDebridTorrents "key"; searchFor heldMovieA; searchFor heldMovieB] /\
  fst run
  = Returned {| checkedTorrents := 4; upgradesFound := 0; upgradesAdded := 0;
                errors := ["Quality upgrade check error: index unavailable"] |}.
Proof. split; vm_compute; reflexivity. Qed.

End ScanInvariants.

Module HttpFacts.
Import JsString Scanner Http HttpNotions.

Lemma tryNextProxy_wellFormed (p : proxyState) : wellFormed (tryNextProxy p).
Proof.
  unfold wellFormed, tryNextProxy. cbn [currentProxyIndex corsProxy].
  split; [apply Nat.mod_upper_bound; discriminate | reflexivity].
Qed.

Lemma rotated_succ_r (k : nat) (p : proxyState) :
  rotated k (tryNextProxy p) = rotated (S k) p.
Proof.
  unfold rotated. symmetry. apply Nat.iter_succ_r.
Qed.

Lemma rotated_wellFormed (k : nat) (p : proxyState) :
  wellFormed p -> wellFormed (rotated k p).
Proof.
  intros H. destruct k as [ | k]; [exact H | ].
  unfold rotated. rewrite Nat.iter_succ. apply tryNextProxy_wellFormed.
Qed.

Lemma rotated_index (k : nat) (p : proxyState) :
  wellFormed p ->
  currentProxyIndex (rotated k p) = ((currentProxyIndex p + k) mod 6)%nat.
Proof.
  intros [Hlt _]. change (List.length corsProxies) with 6%nat in Hlt.
  induction k as [ | k IH].
  - change (rotated 0 p) with p.
    rewrite Nat.add_0_r, Nat.mod_small; [reflexivity | exact Hlt].
  - unfold rotated in IH |- *. rewrite Nat.iter_succ. unfold tryNextProxy at 1.
    cbn [currentProxyIndex]. rewrite IH.
    change (List.length corsProxies) with 6%nat.
    rewrite Nat.Div0.add_mod_idemp_l. f_equal. lia.
Qed.

(** X22. The rotation.  The constructor leaves a well-formed state (the
    index inside the list, [corsProxy] the entry there); [tryNextProxy]
    always produces one; after [k] rotations the index has advanced by [k]
    modulo the six proxies; and six rotations lead back to the state they
    started from. *)
Theorem proxy_rotation :
  wellFormed initialProxy /\
  (forall p, wellFormed (tryNextProxy p)) /\
  (forall p k, wellFormed p ->
     currentProxyIndex (rotated k p) = ((currentProxyIndex p + k) mod 6)%nat) /\
  (forall p, wellFormed p -> rotated 6 p = p).
Proof.
  split; [split; [cbn; lia | reflexivity] | ].
  split; [exact tryNextProxy_wellFormed | ].
  split; [intros p k; apply rotated_index | ].
  intros p Hp. pose proof (rotated_index 6 Hp) as Hi.
  pose proof (rotated_wellFormed 6 Hp) as [_ Hc].
  destruct Hp as [Hlt Hcp]. change (List.length corsProxies) with 6%nat in Hlt.
  assert (E : ((currentProxyIndex p + 6) mod 6 = currentProxyIndex p)%nat).
  { rewrite <- Nat.Div0.add_mod_idemp_r.
    change (6 mod 6)%nat with 0%nat. rewrite Nat.add_0_r. apply Nat.mod_small, Hlt. }
  rewrite E in Hi. rewrite Hi in Hc.
  destruct (rotated 6 p) as [i c]. destruct p as [i0 c0].
  cbn [currentProxyIndex corsProxy] in *. subst. reflexivity.
Qed.

Lemma proxy_rotation_witness :
  currentProxyIndex (rotated 8 initialProxy) = ((currentProxyIndex initialProxy + 8) mod 6)%nat.
Proof.
  apply (proj1 (proj2 (proj2 proxy_rotation)) initialProxy 8%nat).
  split; [cbn; lia | reflexivity].
Defined.

Lemma getHeader_setHeader_same (k v : string) (hs : list (string * string)) :
  getHeader k (setHeader k v hs) = Some v.
Proof.
  induction hs as [ | [k' v'] rest IH]; cbn [setHeader getHeader].
  - rewrite String.eqb_refl. reflexivity.
  - destruct (String.eqb_spec k' k) as [E | N]; cbn [getHeader].
    + subst k'. rewrite String.eqb_refl. reflexivity.
    + apply String.eqb_neq in N. rewrite N. exact IH.
Qed.

Lemma getHeader_setHeader_other (k v k0 : string) (hs : list (string * string)) :
  k0 <> k -> getHeader k0 (setHeader k v hs) = getHeader k0 hs.
Proof.
  intros N. induction hs as [ | [k' v'] rest IH]; cbn [setHeader getHeader].
  - destruct (String.eqb_spec k k0); [congruence | reflexivity].
  - destruct (String.eqb_spec k' k) as [E | N']; cbn [getHeader].
    + subst k'. destruct (String.eqb_spec k k0); [congruence | reflexivity].
    + destruct (String.eqb_spec k' k0); [reflexivity | exact IH].
Qed.

(** X23. What is sent: the options of a request are the caller's, with the
    header [X-Requested-With: XMLHttpRequest] set; every other header, the
    method and the body are the caller's own. *)
Theorem requestOptions_header (o : options) :
  getHeader "X-Requested-With" (headers (requestOptions o)) = Some "XMLHttpRequest" /\
  (forall k, k <> "X-Requested-With" ->
     getHeader k (headers (requestOptions o)) = getHeader k (headers o)) /\
  method (requestOptions o) = method o /\
  body (requestOptions o) = body o.
Proof.
  unfold requestOptions. cbn [headers method body].
  split; [apply getHeader_setHeader_same | ].
  split; [intros k N; apply getHeader_setHeader_other, N | split; reflexivity].
Qed.

Lemma requestOptions_header_witness :
  getHeader "Authorization"
    (headers (requestOptions {| method := None; headers := [bearer "key"];
                                body := None |}))
  = Some "Bearer key".
Proof.
  apply (proj1 (proj2 (requestOptions_header
           {| method := None; headers := [bearer "key"]; body := None |}))
           "Authorization").
  discriminate.
Defined.

Section AnyNetwork.

Variable World : Type.
Variable Json : Type.
Variable fetch : string -> options -> World -> outcome (response Json) * World.
Variable encodeURIComponent : string -> string.
Variable idOf : Json -> outcome (option string).
Variable filesOf : Json -> option nat.

Local Notation attempt := (@attempt World Json fetch encodeURIComponent).
Local Notation retryLoop := (@retryLoop World Json fetch encodeURIComponent).
Local Notation fetchWithFallback := (@fetchWithFallback World Json fetch encodeURIComponent).
Local Notation requestAt := (requestAt encodeURIComponent).

Lemma attempt_effect (url : string) (o : options) (st st1 : net World)
    (out : outcome (response Json)) :
  attempt url o st = (out, st1) ->
  proxy st1 = proxy st /\
  requests st1 = (requests st ++ [requestAt (proxy st) url o 0])%list /\
  (forall r, out = Returned r -> ok r = true \/ (status r < 400)%nat).
Proof.
  unfold Http.attempt, bind, doFetch, ret, throw, HttpNotions.requestAt.
  change (rotated 0 (proxy st)) with (proxy st).
  destruct (fetch _ _ (world st)) as [[r | msg] w].
  - destruct (ok r) eqn:Ok.
    + intros H. inversion H. subst out st1. cbn [proxy requests].
      split; [reflexivity | ]. split; [reflexivity | ].
      intros r0 E. inversion E. subst r0. left. exact Ok.
    + destruct (Nat.leb_spec 400 (status r)) as [Hge | Hlt].
      * intros H. inversion H. subst out st1. cbn [proxy requests].
        split; [reflexivity | ]. split; [reflexivity | discriminate].
      * intros H. inversion H. subst out st1. cbn [proxy requests].
        split; [reflexivity | ]. split; [reflexivity | ].
        intros r0 E. inversion E. subst r0. right. exact Hlt.
  - intros H. inversion H. subst out st1. cbn [proxy requests].
    split; [reflexivity | ]. split; [reflexivity | discriminate].
Qed.

Lemma requestAt_next (p : proxyState) (url : string) (o : options) (j : nat) :
  requestAt (tryNextProxy p) url o j = requestAt p url o (S j).
Proof. unfold HttpNotions.requestAt. rewrite rotated_succ_r. reflexivity. Qed.

Lemma requests_shift (p : proxyState) (url : string) (o : options) (n : nat) :
  (requestAt p url o 0 :: map (requestAt (tryNextProxy p) url o) (seq 0 n))%list
  = map (requestAt p url o) (seq 0 (S n)).
Proof.
  cbn [seq map]. f_equal. rewrite <- seq_shift, map_map.
  apply map_ext. intros j. apply requestAt_next.
Qed.

(** The loop: how it ends, where the rotation stands then, and which
    requests it made. *)
Lemma retryLoop_effect (url : string) (o : options) :
  forall (remaining : nat) (lastError : option string) (st st' : net World)
         (res : response Json + option string),
    retryLoop remaining url o lastError st = (res, st') ->
    match res with
    | inl r =>
        (ok r = true \/ (status r < 400)%nat) /\
        exists k, (k < remaining)%nat /\
                  proxy st' = rotated k (proxy st) /\
                  requests st' = (requests st
                                    ++ map (requestAt (proxy st) url o) (seq 0 (S k)))%list
    | inr last =>
        proxy st' = rotated (remaining - 1) (proxy st) /\
        requests st' = (requests st
                          ++ map (requestAt (proxy st) url o) (seq 0 remaining))%list /\
        (remaining = 0%nat -> last = lastError) /\
        ((0 < remaining)%nat -> exists m, last = Some m)
    end.
Proof.
  induction remaining as [ | rest IH]; intros lastError st st' res H.
  - cbn [Http.retryLoop] in H. inversion H. subst res st'.
    split; [reflexivity | ]. split; [cbn [seq map]; rewrite app_nil_r; reflexivity | ].
    split; [reflexivity | intros C; inversion C].
  - cbn [Http.retryLoop] in H.
    destruct (attempt url o st) as [[r | msg] st1] eqn:A;
      destruct (attempt_effect _ _ _ A) as [Hp [Hr Hok]].
    + inversion H. subst res st'. split; [apply Hok; reflexivity | ].
      exists 0%nat. split; [lia | ]. split; [exact Hp | exact Hr].
    + destruct rest as [ | rest'].
      * cbn [Http.retryLoop] in H. inversion H. subst res st'.
        split; [exact Hp | ]. split; [exact Hr | ].
        split; [discriminate | intros _; exists msg; reflexivity].
      * apply IH in H. cbn [proxy requests] in H. rewrite Hp, Hr in H.
        destruct res as [r | last].
        -- destruct H as [Hok' [k [Hk [Hpk Hrk]]]]. split; [exact Hok' | ].
           exists (S k). split; [lia | ].
           split; [rewrite Hpk; apply rotated_succ_r | ].
           rewrite Hrk, <- app_assoc. f_equal. apply requests_shift.
        -- destruct H as [Hpk [Hrk [_ Hsome]]].
           split; [rewrite Hpk; cbn [Nat.sub]; rewrite Nat.sub_0_r; apply rotated_succ_r | ].
           split; [rewrite Hrk, <- app_assoc; f_equal; apply requests_shift | ].
           split; [discriminate | intros _; apply Hsome; lia].
Qed.

(** X24. When [fetchWithFallback] throws.  It throws only after all
    [maxRetries] attempts have failed, each through the next proxy of the
    rotation; the message is [All CORS proxies failed. Last error: ]
    followed by a non-empty text; and the rotation is put back to the index
    it had at the start (a well-formed state is restored exactly). *)
Theorem fetchWithFallback_failure (url : string) (o : options) (maxRetries : nat)
    (st st' : net World) (message : string) :
  fetchWithFallback url o maxRetries st = (Thrown message, st') ->
  (exists last, message = "All CORS proxies failed. Last error: " ++ last /\ last <> "") /\
  requests st' = (requests st
                    ++ map (requestAt (proxy st) url o) (seq 0 maxRetries))%list /\
  currentProxyIndex (proxy st') = currentProxyIndex (proxy st) /\
  corsProxy (proxy st') = proxyAt (currentProxyIndex (proxy st)) /\
  (wellFormed (proxy st) -> proxy st' = proxy st).
Proof.
  unfold Http.fetchWithFallback.
  destruct (retryLoop maxRetries url o None st) as [[r | last] st1] eqn:L;
    [discriminate | ].
  apply retryLoop_effect in L. destruct L as [_ [Hr _]].
  intros H. inversion H. subst message st'. clear H. cbn [proxy requests].
  split.
  - exists (errorMessage last). split; [reflexivity | ].
    unfold errorMessage. destruct last as [m | ]; [ | discriminate].
    destruct (String.eqb_spec m ""); [discriminate | assumption].
  - split; [exact Hr | ]. split; [reflexivity | ]. split; [reflexivity | ].
    intros [_ Hc]. destruct (proxy st) as [i c]. cbn [currentProxyIndex corsProxy] in *.
    subst c. reflexivity.
Qed.

(** X25. When [fetchWithFallback] returns.  The response is never an
    error response: it is [ok], or its status is below 400.  It was the
    answer to attempt [k], for some [k] below [maxRetries]; attempts 0 to
    [k] were made, each through the next proxy of the rotation, and the
    rotation stays at the proxy that answered. *)
Theorem fetchWithFallback_success (url : string) (o : options) (maxRetries : nat)
    (st st' : net World) (r : response Json) :
  fetchWithFallback url o maxRetries st = (Returned r, st') ->
  (ok r = true \/ (status r < 400)%nat) /\
  exists k, (k < maxRetries)%nat /\
            proxy st' = rotated k (proxy st) /\
            requests st' = (requests st
                              ++ map (requestAt (proxy st) url o) (seq 0 (S k)))%list.
Proof.
  unfold Http.fetchWithFallback.
  destruct (retryLoop maxRetries url o None st) as [[r0 | last] st1] eqn:L;
    [ | discriminate].
  apply retryLoop_effect in L.
  intros H. inversion H. subst r0 st1. exact L.
Qed.

Lemma within_ret {A : Type} (a : A) : within 0 (@ret World A a).
Proof.
  intros st out st' H. unfold ret in H. inversion H. subst.
  split; [lia | tauto].
Qed.

Lemma within_throw {A : Type} (msg : string) : within 0 (@throw World A msg).
Proof.
  intros st out st' H. unfold throw in H. inversion H. subst.
  split; [lia | tauto].
Qed.

Lemma within_awaitJson (r : response Json) : within 0 (@awaitJson World Json r).
Proof.
  intros st out st' H. unfold awaitJson in H. inversion H. subst.
  split; [lia | tauto].
Qed.

Lemma within_weaken {A : Type} (n n' : nat) (m : H World A) :
  (n <= n')%nat -> within n m -> within n' m.
Proof.
  intros Hle Hm st out st' H. destruct (Hm _ _ _ H) as [Hb Hw].
  split; [lia | exact Hw].
Qed.

Lemma within_bind {A B : Type} (n1 n2 : nat) (m : H World A) (f : A -> H World B) :
  within n1 m -> (forall a, within n2 (f a)) -> within (n1 + n2) (bind m f).
Proof.
  intros Hm Hf st out st' H. unfold bind in H.
  destruct (m st) as [[a | msg] st1] eqn:E; destruct (Hm _ _ _ E) as [Hb Hw].
  - destruct (Hf a _ _ _ H) as [Hb' Hw']. split; [lia | tauto].
  - inversion H. subst. split; [lia | exact Hw].
Qed.

Lemma within_tryCatch {A : Type} (n1 n2 : nat) (m : H World A)
    (handler : string -> H World A) :
  within n1 m -> (forall msg, within n2 (handler msg)) ->
  within (n1 + n2) (tryCatch m handler).
Proof.
  intros Hm Hh st out st' H. unfold tryCatch in H.
  destruct (m st) as [[a | msg] st1] eqn:E; destruct (Hm _ _ _ E) as [Hb Hw].
  - inversion H. subst. split; [lia | exact Hw].
  - destruct (Hh msg _ _ _ H) as [Hb' Hw']. split; [lia | tauto].
Qed.

Lemma within_fetchWithFallback (url : string) (o : options) (maxRetries : nat) :
  within maxRetries (fetchWithFallback url o maxRetries).
Proof.
  intros st out st'. unfold Http.fetchWithFallback.
  destruct (retryLoop maxRetries url o None st) as [[r | last] st1] eqn:L;
    apply retryLoop_effect in L; intros H; inversion H; subst; clear H.
  - destruct L as [_ [k [Hk [Hp Hr]]]]. rewrite Hr, Hp, length_app, length_map, length_seq.
    split; [lia | apply rotated_wellFormed].
  - destruct L as [_ [Hr _]]. cbn [proxy requests].
    rewrite Hr, length_app, length_map, length_seq.
    split; [lia | ]. intros [Hlt _]. split; [exact Hlt | reflexivity].
Qed.

Lemma caught_never_throws {A : Type} (m : H World A) (handler : string -> A) :
  neverThrows (tryCatch m (fun msg => ret (handler msg))).
Proof.
  intros st. unfold tryCatch, ret. destruct (m st) as [[a | msg] st1]; eauto.
Qed.

Local Notation getRealDebridTorrents :=
  (@getRealDebridTorrents World Json fetch encodeURIComponent).
Local Notation deleteRealDebridTorrent :=
  (@deleteRealDebridTorrent World Json fetch encodeURIComponent).
Local Notation selectAllFiles :=
  (@selectAllFiles World Json fetch encodeURIComponent filesOf).
Local Notation addMagnetToRealDebrid :=
  (@addMagnetToRealDebrid World Json fetch encodeURIComponent idOf filesOf).

Lemma within_selectAllFiles (apiKey torrentId : string) :
  within 6 (selectAllFiles apiKey torrentId).
Proof.
  unfold Http.selectAllFiles.
  apply (@within_tryCatch unit 6 0); [ | intros msg; apply within_ret].
  apply (@within_bind _ unit 3 3); [apply within_fetchWithFallback | ].
  intros r. destruct (ok r); [ | apply (within_weaken (n := 0)); [lia | apply within_ret]].
  apply (@within_bind _ unit 0 3); [apply within_awaitJson | ].
  intros info. destruct (filesOf info) as [n | ].
  - apply (@within_bind _ unit 3 0); [apply within_fetchWithFallback | ].
    intros _. apply within_ret.
  - apply (within_weaken (n := 0)); [lia | apply within_throw].
Qed.

(** X26. The Real-Debrid calls are safe to use in a loop.  None of
    [getRealDebridTorrents], [deleteRealDebridTorrent], [selectAllFiles] and
    [addMagnetToRealDebrid] ever throws, whatever the network does; listing
    and deleting make at most 3 requests, selecting the files at most 6,
    adding a magnet at most 9; and each leaves the proxy rotation well
    formed. *)
Theorem realDebrid_calls_safe (apiKey torrentId magnetLink : string) :
  (neverThrows (getRealDebridTorrents apiKey) /\
   within 3 (getRealDebridTorrents apiKey)) /\
  (neverThrows (deleteRealDebridTorrent apiKey torrentId) /\
   within 3 (deleteRealDebridTorrent apiKey torrentId)) /\
  (neverThrows (selectAllFiles apiKey torrentId) /\
   within 6 (selectAllFiles apiKey torrentId)) /\
  (neverThrows (addMagnetToRealDebrid apiKey magnetLink) /\
   within 9 (addMagnetToRealDebrid apiKey magnetLink)).
Proof.
  split; [ | split; [ | split]].
  - split; [apply caught_never_throws | ].
    unfold Http.getRealDebridTorrents.
    apply (@within_tryCatch _ 3 0); [ | intros msg; apply within_ret].
    apply (@within_bind _ _ 3 0); [apply within_fetchWithFallback | ].
    intros r. destruct (ok r); [ | apply within_ret].
    apply (@within_bind _ _ 0 0); [apply within_awaitJson | ].
    intros data. apply within_ret.
  - split; [apply (caught_never_throws _ (fun _ => false)) | ].
    unfold Http.deleteRealDebridTorrent.
    apply (@within_tryCatch _ 3 0); [ | intros msg; apply within_ret].
    apply (@within_bind _ _ 3 0); [apply within_fetchWithFallback | ].
    intros r. apply within_ret.
  - split; [apply (caught_never_throws _ (fun _ => tt)) | ].
    apply within_selectAllFiles.
  - split; [apply caught_never_throws | ].
    unfold Http.addMagnetToRealDebrid.
    apply (@within_tryCatch _ 9 0); [ | intros msg; apply within_ret].
    apply (@within_bind _ _ 3 6); [apply within_fetchWithFallback | ].
    intros r. destruct (ok r); [ | apply (within_weaken (n := 0)); [lia | apply within_ret]].
    apply (@within_bind _ _ 0 6); [apply within_awaitJson | ].
    intros addResult.
    apply (@within_bind _ _ 6 0); [ | intros _; apply within_ret].
    destruct (idOf addResult) as [[id | ] | message].
    + apply within_selectAllFiles.
    + apply (within_weaken (n := 0)); [lia | apply within_ret].
    + apply (within_weaken (n := 0)); [lia | apply within_throw].
Qed.

End AnyNetwork.

(** *** Runs on a concrete network *)

Import DemoNet.

Lemma fetchWithFallback_failure_witness :
  let st' := snd (fetchWithFallback fetchUnavailable noEncoding "u" noOptions 3 fresh) in
  (exists last,
      "All CORS proxies failed. Last error: HTTP 503: Service Unavailable"
      = "All CORS proxies failed. Last error: " ++ last /\ last <> "") /\
  requests st' = (requests fresh
                    ++ map (requestAt noEncoding (proxy fresh) "u" noOptions) (seq 0 3))%list /\
  currentProxyIndex (proxy st') = currentProxyIndex (proxy fresh) /\
  corsProxy (proxy st') = proxyAt (currentProxyIndex (proxy fresh)) /\
  (wellFormed (proxy fresh) -> proxy st' = proxy fresh).
Proof.
  cbv zeta.
  apply (@fetchWithFallback_failure World Json fetchUnavailable noEncoding "u" noOptions 3
           fresh).
  vm_compute. reflexivity.
Defined.

Lemma fetchWithFallback_success_witness :
  let run := fetchWithFallback fetchSecondTime noEncoding "u" noOptions 3 fresh in
  let r := {| ok := true; status := 200; statusText := "OK"; json := Returned tt |} in
  (ok r = true \/ (status r < 400)%nat) /\
  exists k, (k < 3)%nat /\
            proxy (snd run) = rotated k (proxy fresh) /\
            requests (snd run)
            = (requests fresh
                 ++ map (requestAt noEncoding (proxy fresh) "u" noOptions) (seq 0 (S k)))%list.
Proof.
  cbv zeta.
  apply (@fetchWithFallback_success World Json fetchSecondTime noEncoding "u" noOptions 3
           fresh).
  vm_compute. reflexivity.
Defined.

(** The second proxy answered: the rotation stays there. *)
Example fetchWithFallback_keeps_working_proxy :
  proxy (snd (fetchWithFallback fetchSecondTime noEncoding "u" noOptions 3 fresh))
  = {| currentProxyIndex := 1; corsProxy := Some "https://cors-anywhere.herokuapp.com/" |}.
Proof. vm_compute. reflexivity. Qed.

End HttpFacts.

Module AutoAddFacts.
Import JsString APIManager Scanner AutoAdd.

Section AnyCollaborators.

Variable World : Type.
Variable getRealDebridTorrents : string -> World -> reply (list Torrent.t) * World.
Variable addMagnetToRealDebrid : string -> option string -> World -> reply unit * World.
Variable deleteRealDebridTorrent : string -> string -> World -> bool * World.
Variable findAllMatchingContent :
  string -> string -> World -> outcome (list Metadata.t) * World.
Variable getTraktWatchlist : string -> string -> World -> reply (list WatchItem) * World.

Local Notation run :=
  (runAutoAddProcessSeparate getRealDebridTorrents addMagnetToRealDebrid
     deleteRealDebridTorrent findAllMatchingContent getTraktWatchlist).
Local Notation scan :=
  (checkForQualityUpgrades getRealDebridTorrents addMagnetToRealDebrid
     deleteRealDebridTorrent findAllMatchingContent).

Variable rdApiKey traktToken : string.
Variable moviePreferences showPreferences : Preferences.t.
Variable globalSettings : GlobalSettings.

(** X27. The process never throws, and it does nothing unless switched
    on: with both auto-adds off, and the upgrade check off or no preference
    set asking for upgrades, it returns the empty report without touching
    the world or making a call. *)
Theorem autoAdd_idle_and_safe :
  (forall s, exists r s',
      run rdApiKey traktToken moviePreferences showPreferences globalSettings s
      = (Returned r, s')) /\
  (autoAddMovies globalSettings = false -> autoAddShows globalSettings = false ->
   checkForUpgrades globalSettings = false \/
   (Preferences.autoUpgrade moviePreferences = false /\
    Preferences.autoUpgrade showPreferences = false) ->
   forall w,
     run rdApiKey traktToken moviePreferences showPreferences globalSettings (begin w)
     = (Returned emptyAutoResults, begin w)).
Proof.
  split.
  - intros s. unfold runAutoAddProcessSeparate.
    unfold bind at 1 2, tryCatch, update at 1, getAuto.
    match goal with
    | |- context [match ?body ?s0 with _ => _ end] =>
        destruct (body s0) as [[[] | msg] s1]
    end.
    + eexists. eexists. reflexivity.
    + unfold update. eexists. eexists. reflexivity.
  - intros Hm Hs Hu w. unfold runAutoAddProcessSeparate. rewrite Hm, Hs.
    destruct Hu as [Hu | [Hu1 Hu2]].
    + rewrite Hu. reflexivity.
    + rewrite Hu1, Hu2. destruct (checkForUpgrades globalSettings); reflexivity.
Qed.

(** X28. The upgrade check of the process is the scan, restricted to
    movies: when only the movie preferences ask for upgrades and both
    auto-adds are off, the report of the process carries the found and added
    counts and the errors of [checkForQualityUpgrades] called with content
    type ['movie'], and everything else is as that scan left it. *)
Theorem autoAdd_movie_upgrades (w : World) (u : Results) (st : store World) :
  checkForUpgrades globalSettings = true ->
  Preferences.autoUpgrade moviePreferences = true ->
  Preferences.autoUpgrade showPreferences = false ->
  autoAddMovies globalSettings = false -> autoAddShows globalSettings = false ->
  scan rdApiKey moviePreferences (Some "movie") (start w) = (Returned u, st) ->
  run rdApiKey traktToken moviePreferences showPreferences globalSettings (begin w)
  = (let r := {| moviesProcessed := 0; showsProcessed := 0; moviesAdded := 0;
                 showsAdded := 0;
                 movieUpgradesFound := Scanner.upgradesFound u;
                 showUpgradesFound := 0;
                 upgradesAdded := Scanner.upgradesAdded u;
                 errors := Scanner.errors u |} in
     (Returned r, {| scanStore := st; auto := r |})).
Proof.
  intros Hc Hm Hs Ham Has Hscan. unfold runAutoAddProcessSeparate.
  rewrite Hc, Hm, Hs, Ham, Has.
  unfold bind, tryCatch, update, getAuto, call, ret, begin.
  cbn [scanStore auto]. rewrite Hscan. reflexivity.
Qed.

(** X29. One failing search ends the whole process.  When the search for
    the first movie of the watchlist throws, the report holds the single
    error [Auto-add process error: <message>], no movie is added, and the
    shows are not processed at all (their watchlist is not even fetched),
    whether or not adding shows is switched on. *)
Theorem autoAdd_stops_at_exception (w w1 w2 : World) (item : WatchItem)
    (rest : list WatchItem) (message : string) :
  checkForUpgrades globalSettings = false ->
  autoAddMovies globalSettings = true ->
  getTraktWatchlist traktToken "movies" w = (Success (item :: rest), w1) ->
  findAllMatchingContent (title item) "movie" w1 = (Thrown message, w2) ->
  run rdApiKey traktToken moviePreferences showPreferences globalSettings (begin w)
  = (let r := {| moviesProcessed := S (List.length rest); showsProcessed := 0;
                 moviesAdded := 0; showsAdded := 0;
                 movieUpgradesFound := 0; showUpgradesFound := 0;
                 upgradesAdded := 0;
                 errors := ["Auto-add process error: " ++ message] |} in
     (Returned r,
      {| scanStore := {| world := w2;
                         calls := [FindAllMatchingContent (title item) "movie"];
                         results := emptyResults |};
         auto := r |})).
Proof.
  intros Hc Ham Hw Hf. unfold runAutoAddProcessSeparate.
  rewrite Hc, Ham.
  unfold bind, tryCatch, update, getAuto, call, ret, begin, watchlist, start.
  cbn [scanStore auto world calls results]. rewrite Hw.
  cbn [forEach]. unfold bind, call, findBestQualityMatch, Scanner.bind, performOrThrow.
  cbn [scanStore auto world calls results]. rewrite Hf. reflexivity.
Qed.

End AnyCollaborators.

(** *** Runs with concrete collaborators *)

Import Demo DemoAuto.

Lemma autoAdd_idle_and_safe_witness :
  runAutoAddProcessSeparate (holding [heldMovieA]) addSucceeds deleteSucceeds
    (searchFinds [betterMovieA]) (watching [movieA]) "key" "token"
    upgradeTo1080 upgradeTo1080 everythingOff (begin 0)
  = (Returned emptyAutoResults, begin 0).
Proof.
  apply (proj2 (@autoAdd_idle_and_safe World (holding [heldMovieA]) addSucceeds
                  deleteSucceeds (searchFinds [betterMovieA]) (watching [movieA])
                  "key" "token" upgradeTo1080 upgradeTo1080 everythingOff));
    [reflexivity | reflexivity | left; reflexivity].
Defined.

Lemma autoAdd_movie_upgrades_witness :
  runAutoAddProcessSeparate (holding [heldMovieA; heldEpisode]) addSucceeds deleteSucceeds
    (searchFinds [betterMovieA]) (watching [movieA]) "key" "token"
    upgradeTo1080 Preferences.none upgradesOnly (begin 0)
  = (let r := {| moviesProcessed := 0; showsProcessed := 0; moviesAdded := 0;
                 showsAdded := 0; movieUpgradesFound := 1; showUpgradesFound := 0;
                 upgradesAdded := 1; errors := [] |} in
     (Returned r,
      {| scanStore :=
           snd (checkForQualityUpgrades (holding [heldMovieA; heldEpisode]) addSucceeds
                  deleteSucceeds (searchFinds [betterMovieA]) "key" upgradeTo1080
                  (Some "movie") (start 0));
         auto := r |})).
Proof.
  apply (@autoAdd_movie_upgrades World (holding [heldMovieA; heldEpisode]) addSucceeds
           deleteSucceeds (searchFinds [betterMovieA]) (watching [movieA])
           "key" "token" upgradeTo1080 Preferences.none upgradesOnly 0%nat
           {| checkedTorrents := 1; Scanner.upgradesFound := 1;
              Scanner.upgradesAdded := 1; Scanner.errors := [] |});
    reflexivity.
Defined.

Lemma autoAdd_stops_at_exception_witness :
  runAutoAddProcessSeparate (holding []) addSucceeds deleteSucceeds
    searchThrows (watching [movieA; movieB]) "key" "token"
    upgradeTo1080 upgradeTo1080 addingBoth (begin 0)
  = (let r := {| moviesProcessed := 2; showsProcessed := 0;
                 moviesAdded := 0; showsAdded := 0;
                 movieUpgradesFound := 0; showUpgradesFound := 0;
                 upgradesAdded := 0;
                 errors := ["Auto-add process error: this.findAllMatchingContent is not a function"] |} in
     (Returned r,
      {| scanStore := {| world := 2;
                         calls := [FindAllMatchingContent "Movie A" "movie"];
                         results := emptyResults |};
         auto := r |})).
Proof.
  apply (@autoAdd_stops_at_exception World (holding []) addSucceeds deleteSucceeds
           searchThrows (watching [movieA; movieB]) "key" "token"
           upgradeTo1080 upgradeTo1080 addingBoth 0%nat 1%nat 2%nat movieA [movieB]
           "this.findAllMatchingContent is not a function");
    reflexivity.
Defined.

End AutoAddFacts.
